(** * CertificateManager: the certificate ledger state machine

    A shallow embedding of the Solidity contract [CertificateManager]
    (ERC-1155, Ownable, ReentrancyGuard, Pausable) and the proofs of its
    ledger properties: payment replay protection, one certificate per user,
    course lists, settlement arithmetic and ordering, soulbound ownership and
    token identifier allocation.

    Conventions of the embedding:
    - [uint256], [bytes32] and [address] values are integers in [Z]; checked
      arithmetic reverts with [Panic] outside [0, 2^256), [unchecked] blocks
      wrap around modulo [2^256];
    - a Solidity [mapping] is a [gmap] read with the zero value as default;
    - a contract function is a computation in the monad [M]: it reads and
      writes the contract storage, may revert with an [Error], and appends
      the value transfers it performs and the events it emits to a log;
    - the other contracts (CourseFactory, ProgressTracker, CourseLicense) and
      the recipients of value transfers are read through the oracle record
      [Env]; the call context ([msg.sender], [msg.value], [block.timestamp])
      is the record [Msg]. *)

From stdpp Require Import base gmap strings list.
From Stdlib Require Import ZArith Lia.

Local Open Scope Z_scope.

(** ** Data model *)

Definition address : Type := Z.

Definition MAX_UINT256 : Z := 2 ^ 256 - 1.

(** [1 ether] in wei. *)
Definition ether : Z := 10 ^ 18.

(** [0.002 ether] *)
Definition MAX_CERTIFICATE_PRICE : Z := 2 * 10 ^ 15.

Inductive Error : Type :=
| InvalidPaymentReceiptHash
| CertificateAlreadyExists
| NoCertificateExists
| CourseNotCompleted
| CourseAlreadyInCertificate
| InsufficientPayment
| InvalidStringLength (param : string) (maxLength : Z)
| InvalidAddress (addr : address)
| CertificateNotFound (tokenId : Z)
| PaymentHashAlreadyUsed
| ZeroAmount
| EmptyCoursesArray
| NoLicenseOwnership
| ExceedsMaxPrice
| CreatorPriceNotSet
(* revert("...") and require(cond, "...") *)
| RevertMsg (reason : string)
(* arithmetic overflow or underflow of checked arithmetic *)
| Panic (code : Z)
(* errors of the inherited OpenZeppelin contracts *)
| EnforcedPause
| ExpectedPause
| ReentrancyGuardReentrantCall
| OwnableUnauthorizedAccount (account : address)
| OwnableInvalidOwner (account : address)
| ERC1155InvalidReceiver (receiver : address)
| ERC1155InvalidSender (sender : address)
| ERC1155MissingApprovalForAll (operator owner : address)
| ERC1155InsufficientBalance (sender : address) (balance needed tokenId : Z)
| ERC1155InvalidArrayLength (idsLength valuesLength : Z)
| ERC1155InvalidOperator (operator : address).

Record Certificate : Type := mkCertificate {
  tokenId : Z;
  platformName : string;
  recipientName : string;
  recipientAddress : address;
  lifetimeFlag : bool;
  isValid : bool;
  ipfsCID : string;
  baseRoute : string;
  issuedAt : Z;
  lastUpdated : Z;
  totalCoursesCompleted : Z;
  paymentReceiptHash : Z;
  completedCourses : list Z
}.

(** The value of an unwritten slot of [mapping(uint256 => Certificate)]. *)
Definition zeroCertificate : Certificate :=
  mkCertificate 0 EmptyString EmptyString 0 false false EmptyString EmptyString
    0 0 0 0 [].

Definition set_isValid (b : bool) (c : Certificate) : Certificate :=
  mkCertificate (tokenId c) (platformName c) (recipientName c) (recipientAddress c)
    (lifetimeFlag c) b (ipfsCID c) (baseRoute c) (issuedAt c) (lastUpdated c)
    (totalCoursesCompleted c) (paymentReceiptHash c) (completedCourses c).

Definition set_ipfsCID (x : string) (c : Certificate) : Certificate :=
  mkCertificate (tokenId c) (platformName c) (recipientName c) (recipientAddress c)
    (lifetimeFlag c) (isValid c) x (baseRoute c) (issuedAt c) (lastUpdated c)
    (totalCoursesCompleted c) (paymentReceiptHash c) (completedCourses c).

Definition set_baseRoute (x : string) (c : Certificate) : Certificate :=
  mkCertificate (tokenId c) (platformName c) (recipientName c) (recipientAddress c)
    (lifetimeFlag c) (isValid c) (ipfsCID c) x (issuedAt c) (lastUpdated c)
    (totalCoursesCompleted c) (paymentReceiptHash c) (completedCourses c).

Definition set_lastUpdated (x : Z) (c : Certificate) : Certificate :=
  mkCertificate (tokenId c) (platformName c) (recipientName c) (recipientAddress c)
    (lifetimeFlag c) (isValid c) (ipfsCID c) (baseRoute c) (issuedAt c) x
    (totalCoursesCompleted c) (paymentReceiptHash c) (completedCourses c).

Definition set_totalCoursesCompleted (x : Z) (c : Certificate) : Certificate :=
  mkCertificate (tokenId c) (platformName c) (recipientName c) (recipientAddress c)
    (lifetimeFlag c) (isValid c) (ipfsCID c) (baseRoute c) (issuedAt c) (lastUpdated c)
    x (paymentReceiptHash c) (completedCourses c).

Definition set_paymentReceiptHash (x : Z) (c : Certificate) : Certificate :=
  mkCertificate (tokenId c) (platformName c) (recipientName c) (recipientAddress c)
    (lifetimeFlag c) (isValid c) (ipfsCID c) (baseRoute c) (issuedAt c) (lastUpdated c)
    (totalCoursesCompleted c) x (completedCourses c).

Definition set_completedCourses (x : list Z) (c : Certificate) : Certificate :=
  mkCertificate (tokenId c) (platformName c) (recipientName c) (recipientAddress c)
    (lifetimeFlag c) (isValid c) (ipfsCID c) (baseRoute c) (issuedAt c) (lastUpdated c)
    (totalCoursesCompleted c) (paymentReceiptHash c) x.

(** The storage of the contract: its own state variables, then the state of
    the inherited contracts (Ownable, Pausable, ReentrancyGuard, ERC1155). *)
Record State : Type := mkState {
  courseFactory : address;
  progressTracker : address;
  courseLicense : address;
  _nextTokenId : Z;
  defaultCertificateFee : Z;
  defaultCourseAdditionFee : Z;
  platformWallet : address;
  defaultPlatformName : string;
  defaultBaseRoute : string;
  defaultMetadataBaseURI : string;
  certificates : gmap Z Certificate;
  userCertificates : gmap address Z;
  usedPaymentHashes : gmap Z bool;
  _tokenURIs : gmap Z string;
  certificateCourseExists : gmap (Z * Z) bool;
  courseCertificatePrices : gmap Z Z;
  certificateCourseCompletionDate : gmap (Z * Z) Z;
  _owner : address;
  _paused : bool;
  _entered : bool;
  _balances : gmap (Z * address) Z;
  _operatorApprovals : gmap (address * address) bool
}.

Definition set_nextTokenId (x : Z) (s : State) : State :=
  mkState (courseFactory s) (progressTracker s) (courseLicense s) x
    (defaultCertificateFee s) (defaultCourseAdditionFee s) (platformWallet s)
    (defaultPlatformName s) (defaultBaseRoute s) (defaultMetadataBaseURI s)
    (certificates s) (userCertificates s) (usedPaymentHashes s) (_tokenURIs s)
    (certificateCourseExists s) (courseCertificatePrices s)
    (certificateCourseCompletionDate s) (_owner s) (_paused s) (_entered s)
    (_balances s) (_operatorApprovals s).

Definition set_defaultCertificateFee (x : Z) (s : State) : State :=
  mkState (courseFactory s) (progressTracker s) (courseLicense s) (_nextTokenId s)
    x (defaultCourseAdditionFee s) (platformWallet s)
    (defaultPlatformName s) (defaultBaseRoute s) (defaultMetadataBaseURI s)
    (certificates s) (userCertificates s) (usedPaymentHashes s) (_tokenURIs s)
    (certificateCourseExists s) (courseCertificatePrices s)
    (certificateCourseCompletionDate s) (_owner s) (_paused s) (_entered s)
    (_balances s) (_operatorApprovals s).

Definition set_defaultCourseAdditionFee (x : Z) (s : State) : State :=
  mkState (courseFactory s) (progressTracker s) (courseLicense s) (_nextTokenId s)
    (defaultCertificateFee s) x (platformWallet s)
    (defaultPlatformName s) (defaultBaseRoute s) (defaultMetadataBaseURI s)
    (certificates s) (userCertificates s) (usedPaymentHashes s) (_tokenURIs s)
    (certificateCourseExists s) (courseCertificatePrices s)
    (certificateCourseCompletionDate s) (_owner s) (_paused s) (_entered s)
    (_balances s) (_operatorApprovals s).

Definition set_platformWallet (x : address) (s : State) : State :=
  mkState (courseFactory s) (progressTracker s) (courseLicense s) (_nextTokenId s)
    (defaultCertificateFee s) (defaultCourseAdditionFee s) x
    (defaultPlatformName s) (defaultBaseRoute s) (defaultMetadataBaseURI s)
    (certificates s) (userCertificates s) (usedPaymentHashes s) (_tokenURIs s)
    (certificateCourseExists s) (courseCertificatePrices s)
    (certificateCourseCompletionDate s) (_owner s) (_paused s) (_entered s)
    (_balances s) (_operatorApprovals s).

Definition set_defaultPlatformName (x : string) (s : State) : State :=
  mkState (courseFactory s) (progressTracker s) (courseLicense s) (_nextTokenId s)
    (defaultCertificateFee s) (defaultCourseAdditionFee s) (platformWallet s)
    x (defaultBaseRoute s) (defaultMetadataBaseURI s)
    (certificates s) (userCertificates s) (usedPaymentHashes s) (_tokenURIs s)
    (certificateCourseExists s) (courseCertificatePrices s)
    (certificateCourseCompletionDate s) (_owner s) (_paused s) (_entered s)
    (_balances s) (_operatorApprovals s).

Definition set_defaultBaseRoute (x : string) (s : State) : State :=
  mkState (courseFactory s) (progressTracker s) (courseLicense s) (_nextTokenId s)
    (defaultCertificateFee s) (defaultCourseAdditionFee s) (platformWallet s)
    (defaultPlatformName s) x (defaultMetadataBaseURI s)
    (certificates s) (userCertificates s) (usedPaymentHashes s) (_tokenURIs s)
    (certificateCourseExists s) (courseCertificatePrices s)
    (certificateCourseCompletionDate s) (_owner s) (_paused s) (_entered s)
    (_balances s) (_operatorApprovals s).

Definition set_defaultMetadataBaseURI (x : string) (s : State) : State :=
  mkState (courseFactory s) (progressTracker s) (courseLicense s) (_nextTokenId s)
    (defaultCertificateFee s) (defaultCourseAdditionFee s) (platformWallet s)
    (defaultPlatformName s) (defaultBaseRoute s) x
    (certificates s) (userCertificates s) (usedPaymentHashes s) (_tokenURIs s)
    (certificateCourseExists s) (courseCertificatePrices s)
    (certificateCourseCompletionDate s) (_owner s) (_paused s) (_entered s)
    (_balances s) (_operatorApprovals s).

Definition set_certificates (x : gmap Z Certificate) (s : State) : State :=
  mkState (courseFactory s) (progressTracker s) (courseLicense s) (_nextTokenId s)
    (defaultCertificateFee s) (defaultCourseAdditionFee s) (platformWallet s)
    (defaultPlatformName s) (defaultBaseRoute s) (defaultMetadataBaseURI s)
    x (userCertificates s) (usedPaymentHashes s) (_tokenURIs s)
    (certificateCourseExists s) (courseCertificatePrices s)
    (certificateCourseCompletionDate s) (_owner s) (_paused s) (_entered s)
    (_balances s) (_operatorApprovals s).

Definition set_userCertificates (x : gmap address Z) (s : State) : State :=
  mkState (courseFactory s) (progressTracker s) (courseLicense s) (_nextTokenId s)
    (defaultCertificateFee s) (defaultCourseAdditionFee s) (platformWallet s)
    (defaultPlatformName s) (defaultBaseRoute s) (defaultMetadataBaseURI s)
    (certificates s) x (usedPaymentHashes s) (_tokenURIs s)
    (certificateCourseExists s) (courseCertificatePrices s)
    (certificateCourseCompletionDate s) (_owner s) (_paused s) (_entered s)
    (_balances s) (_operatorApprovals s).

Definition set_usedPaymentHashes (x : gmap Z bool) (s : State) : State :=
  mkState (courseFactory s) (progressTracker s) (courseLicense s) (_nextTokenId s)
    (defaultCertificateFee s) (defaultCourseAdditionFee s) (platformWallet s)
    (defaultPlatformName s) (defaultBaseRoute s) (defaultMetadataBaseURI s)
    (certificates s) (userCertificates s) x (_tokenURIs s)
    (certificateCourseExists s) (courseCertificatePrices s)
    (certificateCourseCompletionDate s) (_owner s) (_paused s) (_entered s)
    (_balances s) (_operatorApprovals s).

Definition set_tokenURIs (x : gmap Z string) (s : State) : State :=
  mkState (courseFactory s) (progressTracker s) (courseLicense s) (_nextTokenId s)
    (defaultCertificateFee s) (defaultCourseAdditionFee s) (platformWallet s)
    (defaultPlatformName s) (defaultBaseRoute s) (defaultMetadataBaseURI s)
    (certificates s) (userCertificates s) (usedPaymentHashes s) x
    (certificateCourseExists s) (courseCertificatePrices s)
    (certificateCourseCompletionDate s) (_owner s) (_paused s) (_entered s)
    (_balances s) (_operatorApprovals s).

Definition set_certificateCourseExists (x : gmap (Z * Z) bool) (s : State) : State :=
  mkState (courseFactory s) (progressTracker s) (courseLicense s) (_nextTokenId s)
    (defaultCertificateFee s) (defaultCourseAdditionFee s) (platformWallet s)
    (defaultPlatformName s) (defaultBaseRoute s) (defaultMetadataBaseURI s)
    (certificates s) (userCertificates s) (usedPaymentHashes s) (_tokenURIs s)
    x (courseCertificatePrices s)
    (certificateCourseCompletionDate s) (_owner s) (_paused s) (_entered s)
    (_balances s) (_operatorApprovals s).

Definition set_courseCertificatePrices (x : gmap Z Z) (s : State) : State :=
  mkState (courseFactory s) (progressTracker s) (courseLicense s) (_nextTokenId s)
    (defaultCertificateFee s) (defaultCourseAdditionFee s) (platformWallet s)
    (defaultPlatformName s) (defaultBaseRoute s) (defaultMetadataBaseURI s)
    (certificates s) (userCertificates s) (usedPaymentHashes s) (_tokenURIs s)
    (certificateCourseExists s) x
    (certificateCourseCompletionDate s) (_owner s) (_paused s) (_entered s)
    (_balances s) (_operatorApprovals s).

Definition set_certificateCourseCompletionDate (x : gmap (Z * Z) Z) (s : State) : State :=
  mkState (courseFactory s) (progressTracker s) (courseLicense s) (_nextTokenId s)
    (defaultCertificateFee s) (defaultCourseAdditionFee s) (platformWallet s)
    (defaultPlatformName s) (defaultBaseRoute s) (defaultMetadataBaseURI s)
    (certificates s) (userCertificates s) (usedPaymentHashes s) (_tokenURIs s)
    (certificateCourseExists s) (courseCertificatePrices s)
    x (_owner s) (_paused s) (_entered s)
    (_balances s) (_operatorApprovals s).

Definition set_owner (x : address) (s : State) : State :=
  mkState (courseFactory s) (progressTracker s) (courseLicense s) (_nextTokenId s)
    (defaultCertificateFee s) (defaultCourseAdditionFee s) (platformWallet s)
    (defaultPlatformName s) (defaultBaseRoute s) (defaultMetadataBaseURI s)
    (certificates s) (userCertificates s) (usedPaymentHashes s) (_tokenURIs s)
    (certificateCourseExists s) (courseCertificatePrices s)
    (certificateCourseCompletionDate s) x (_paused s) (_entered s)
    (_balances s) (_operatorApprovals s).

Definition set_paused (x : bool) (s : State) : State :=
  mkState (courseFactory s) (progressTracker s) (courseLicense s) (_nextTokenId s)
    (defaultCertificateFee s) (defaultCourseAdditionFee s) (platformWallet s)
    (defaultPlatformName s) (defaultBaseRoute s) (defaultMetadataBaseURI s)
    (certificates s) (userCertificates s) (usedPaymentHashes s) (_tokenURIs s)
    (certificateCourseExists s) (courseCertificatePrices s)
    (certificateCourseCompletionDate s) (_owner s) x (_entered s)
    (_balances s) (_operatorApprovals s).

Definition set_entered (x : bool) (s : State) : State :=
  mkState (courseFactory s) (progressTracker s) (courseLicense s) (_nextTokenId s)
    (defaultCertificateFee s) (defaultCourseAdditionFee s) (platformWallet s)
    (defaultPlatformName s) (defaultBaseRoute s) (defaultMetadataBaseURI s)
    (certificates s) (userCertificates s) (usedPaymentHashes s) (_tokenURIs s)
    (certificateCourseExists s) (courseCertificatePrices s)
    (certificateCourseCompletionDate s) (_owner s) (_paused s) x
    (_balances s) (_operatorApprovals s).

Definition set_balances (x : gmap (Z * address) Z) (s : State) : State :=
  mkState (courseFactory s) (progressTracker s) (courseLicense s) (_nextTokenId s)
    (defaultCertificateFee s) (defaultCourseAdditionFee s) (platformWallet s)
    (defaultPlatformName s) (defaultBaseRoute s) (defaultMetadataBaseURI s)
    (certificates s) (userCertificates s) (usedPaymentHashes s) (_tokenURIs s)
    (certificateCourseExists s) (courseCertificatePrices s)
    (certificateCourseCompletionDate s) (_owner s) (_paused s) (_entered s)
    x (_operatorApprovals s).

Definition set_operatorApprovals (x : gmap (address * address) bool) (s : State) : State :=
  mkState (courseFactory s) (progressTracker s) (courseLicense s) (_nextTokenId s)
    (defaultCertificateFee s) (defaultCourseAdditionFee s) (platformWallet s)
    (defaultPlatformName s) (defaultBaseRoute s) (defaultMetadataBaseURI s)
    (certificates s) (userCertificates s) (usedPaymentHashes s) (_tokenURIs s)
    (certificateCourseExists s) (courseCertificatePrices s)
    (certificateCourseCompletionDate s) (_owner s) (_paused s) (_entered s)
    (_balances s) x.

(** Reads of the mappings, with Solidity's zero default. *)
Definition certificates_at (s : State) (t : Z) : Certificate :=
  default zeroCertificate (certificates s !! t).

Definition userCertificates_at (s : State) (u : address) : Z :=
  default 0 (userCertificates s !! u).

Definition usedPaymentHashes_at (s : State) (h : Z) : bool :=
  default false (usedPaymentHashes s !! h).

Definition certificateCourseExists_at (s : State) (t c : Z) : bool :=
  default false (certificateCourseExists s !! (t, c)).

Definition courseCertificatePrices_at (s : State) (c : Z) : Z :=
  default 0 (courseCertificatePrices s !! c).

Definition certificateCourseCompletionDate_at (s : State) (t c : Z) : Z :=
  default 0 (certificateCourseCompletionDate s !! (t, c)).

Definition balanceOf (s : State) (account : address) (id : Z) : Z :=
  default 0 (_balances s !! (id, account)).

Definition isApprovedForAll (s : State) (account operator : address) : bool :=
  default false (_operatorApprovals s !! (account, operator)).

(** Events of the contract and of the contracts it inherits. *)
Inductive Event : Type :=
| CertificateMinted (owner : address) (tokenId : Z) (recipientName ipfsCID : string)
    (paymentReceiptHash pricePaid : Z)
| CourseAddedToCertificate (owner : address) (tokenId courseId : Z) (newIpfsCID : string)
    (paymentReceiptHash pricePaid : Z)
| CertificateUpdated (owner : address) (tokenId : Z) (newIpfsCID : string)
    (paymentReceiptHash : Z)
| CertificatePaymentRecorded (payer owner : address) (tokenId paymentReceiptHash : Z)
| CertificateRevoked (tokenId : Z) (reason : string)
| TokenURIUpdated (tokenId : Z) (newURI : string)
| BaseRouteUpdated (tokenId : Z) (newBaseRoute : string)
| DefaultBaseRouteUpdated (newBaseRoute : string)
| DefaultMetadataBaseURIUpdated (newBaseURI : string)
| PlatformNameUpdated (newPlatformName : string)
| CourseAdditionFeeUpdated (newFee : Z)
| DefaultCertificateFeeUpdated (newFee : Z)
| PlatformWalletUpdated (oldWallet newWallet : address)
| CourseCertificatePriceSet (courseId price : Z) (creator : address)
| TransferSingle (operator from to : address) (id value : Z)
| TransferBatch (operator from to : address) (ids values : list Z)
| ApprovalForAll (account operator : address) (approved : bool)
| Paused (account : address)
| Unpaused (account : address)
| OwnershipTransferred (previousOwner newOwner : address).

(** What a call leaves outside the storage: a value transfer
    [to.call{value: amount}(empty)], recorded with the storage the callee would
    observe at that moment, or an emitted event. *)
Inductive Effect : Type :=
| Transfer (to : address) (amount : Z) (observed : State)
| Emit (e : Event).

(** The call context. *)
Record Msg : Type := mkMsg {
  sender : address;
  value : Z;
  timestamp : Z
}.

(** The answers of the other contracts and of the recipients of calls. *)
Record Env : Type := mkEnv {
  (* progressTracker.isCourseCompleted(user, courseId) *)
  isCourseCompleted : address -> Z -> bool;
  (* courseLicense.getLicense(user, courseId).courseId *)
  getLicense_courseId : address -> Z -> Z;
  (* courseFactory.getCourse(courseId).creator *)
  getCourse_creator : Z -> address;
  (* courseFactory.getCourseSections(courseId).length *)
  getCourseSections_length : Z -> Z;
  (* progressTracker.getSectionProgress(user, courseId, sectionId).completedAt *)
  getSectionProgress_completedAt : address -> Z -> Z -> Z;
  (* whether to.call{value: amount}(empty) returns success *)
  callSucceeds : address -> Z -> bool;
  (* whether the ERC-1155 acceptance check of a receiver passes *)
  acceptsERC1155 : address -> bool
}.

(** ** The contract monad *)

Definition M (A : Type) : Type :=
  State -> list Effect -> Error + (A * State * list Effect).

Definition ret {A} (a : A) : M A := fun s l => inr (a, s, l).

Definition bind {A B} (c : M A) (k : A -> M B) : M B :=
  fun s l =>
    match c s l with
    | inl e => inl e
    | inr (a, s', l') => k a s' l'
    end.

Notation "x <- c ;; k" := (bind c (fun x => k))
  (at level 100, c at next level, right associativity).
Notation "c ;; k" := (bind c (fun _ => k))
  (at level 100, right associativity).

Definition revert {A} (e : Error) : M A := fun _ _ => inl e.

Definition get : M State := fun s l => inr (s, s, l).

Definition modify (f : State -> State) : M unit := fun s l => inr (tt, f s, l).

Definition emit (e : Event) : M unit := fun s l => inr (tt, s, l ++ [Emit e]).

Definition require (b : bool) (reason : string) : M unit :=
  if b then ret tt else revert (RevertMsg reason).

(** [if (b) revert e;] *)
Definition revertIf (b : bool) (e : Error) : M unit :=
  if b then revert e else ret tt.

(** Checked [uint256] arithmetic (Solidity 0.8). *)
Definition checked (x : Z) : M Z :=
  if (0 <=? x) && (x <=? MAX_UINT256) then ret x else revert (Panic 17).

(** Arithmetic inside [unchecked { ... }]. *)
Definition wrap (x : Z) : Z := x mod (MAX_UINT256 + 1).

(** Run [f] on every element of an array, in order. *)
Fixpoint forEach {A} (f : A -> M unit) (l : list A) : M unit :=
  match l with
  | [] => ret tt
  | x :: l' => f x ;; forEach f l'
  end.

(** ** The contract *)

(** [_exists]: a token identifier has been allocated. *)
Definition _exists (s : State) (tokenId : Z) : bool :=
  (0 <? tokenId) && (tokenId <? _nextTokenId s).

(** [_getCertificatePrice]: the creator-set price, or the default. *)
Definition _getCertificatePrice (s : State) (courseId : Z) : Z :=
  let creatorPrice := courseCertificatePrices_at s courseId in
  if 0 <? creatorPrice then creatorPrice else defaultCertificateFee s.

(** [certificates[tokenId].field = ...] through a storage pointer. *)
Definition update_certificate (tokenId : Z) (f : Certificate -> Certificate)
    (s : State) : State :=
  set_certificates (<[tokenId := f (certificates_at s tokenId)]> (certificates s)) s.

Section Contract.

Variable env : Env.
Variable msg : Msg.

(** *** Modifiers *)

Definition nonReentrant {A} (body : M A) : M A :=
  s <- get ;;
  revertIf (_entered s) ReentrancyGuardReentrantCall ;;
  modify (set_entered true) ;;
  r <- body ;;
  modify (set_entered false) ;;
  ret r.

Definition whenNotPaused : M unit :=
  s <- get ;; revertIf (_paused s) EnforcedPause.

Definition whenPaused : M unit :=
  s <- get ;; revertIf (negb (_paused s)) ExpectedPause.

Definition onlyOwner : M unit :=
  s <- get ;;
  revertIf (negb (_owner s =? sender msg)) (OwnableUnauthorizedAccount (sender msg)).

Definition validStringLength (str : string) (maxLength : Z) (paramName : string)
    : M unit :=
  revertIf ((Z.of_nat (String.length str) =? 0)
            || (maxLength <? Z.of_nat (String.length str)))
           (InvalidStringLength paramName maxLength).

(** *** Value transfers *)

(** [(bool success, ) = to.call{value: amount}(empty)] *)
Definition call_value (to : address) (amount : Z) : M bool :=
  fun s l => inr (callSucceeds env to amount, s, l ++ [Transfer to amount s]).

(** [_processCertificatePayment]: 10% to the platform, the rest to
    [recipient], the excess of [msg.value] back to the sender. *)
Definition _processCertificatePayment (recipient : address) (totalAmount : Z)
    : M unit :=
  x <- checked (totalAmount * 1000) ;;
  let platformFee := x / 10000 in
  creatorFee <- checked (totalAmount - platformFee) ;;
  (if 0 <? platformFee then
     s <- get ;;
     success <- call_value (platformWallet s) platformFee ;;
     require success "Platform fee transfer failed"
   else ret tt) ;;
  (if 0 <? creatorFee then
     success <- call_value recipient creatorFee ;;
     require success "Creator payment failed"
   else ret tt) ;;
  (if totalAmount <? value msg then
     refund <- checked (value msg - totalAmount) ;;
     success <- call_value (sender msg) refund ;;
     require success "Refund failed"
   else ret tt).

(** [_processPayment]: 2% to the platform, the rest to [recipient], the
    excess of [msg.value] back to the sender. *)
Definition _processPayment (recipient : address) (totalAmount : Z) : M unit :=
  x <- checked (totalAmount * 200) ;;
  let platformFee := x / 10000 in
  recipientFee <- checked (totalAmount - platformFee) ;;
  (if 0 <? platformFee then
     s <- get ;;
     success <- call_value (platformWallet s) platformFee ;;
     require success "Platform fee transfer failed"
   else ret tt) ;;
  (if 0 <? recipientFee then
     success <- call_value recipient recipientFee ;;
     require success "Recipient payment failed"
   else ret tt) ;;
  (if totalAmount <? value msg then
     refund <- checked (value msg - totalAmount) ;;
     success <- call_value (sender msg) refund ;;
     require success "Refund failed"
   else ret tt).

(** *** ERC-1155 (OpenZeppelin Contracts 5), as far as the contract uses it *)

(** One iteration of the loop of [ERC1155._update]. *)
Definition ERC1155_update_one (from to : address) (iv : Z * Z) : M unit :=
  let '(id, v) := iv in
  (if negb (from =? 0) then
     s <- get ;;
     let fromBalance := balanceOf s from id in
     revertIf (fromBalance <? v) (ERC1155InsufficientBalance from fromBalance v id) ;;
     modify (fun s => set_balances (<[(id, from) := fromBalance - v]> (_balances s)) s)
   else ret tt) ;;
  (if negb (to =? 0) then
     s <- get ;;
     b <- checked (balanceOf s to id + v) ;;
     modify (fun s => set_balances (<[(id, to) := b]> (_balances s)) s)
   else ret tt).

(** [ERC1155._update], the function the contract overrides. *)
Definition ERC1155_update (from to : address) (ids values : list Z) : M unit :=
  revertIf (negb (Z.of_nat (length ids) =? Z.of_nat (length values)))
    (ERC1155InvalidArrayLength (Z.of_nat (length ids)) (Z.of_nat (length values))) ;;
  forEach (ERC1155_update_one from to) (zip ids values) ;;
  match ids, values with
  | [id], [v] => emit (TransferSingle (sender msg) from to id v)
  | _, _ => emit (TransferBatch (sender msg) from to ids values)
  end.

(** [_update]: the soulbound override. Minting ([from] zero) and burning
    ([to] zero) pass, a transfer between two users reverts. *)
Definition _update (from to : address) (ids values : list Z) : M unit :=
  revertIf (negb (from =? 0) && negb (to =? 0))
    (RevertMsg "Certificates are soulbound") ;;
  ERC1155_update from to ids values.

(** [ERC1155._updateWithAcceptanceCheck] *)
Definition _updateWithAcceptanceCheck (from to : address) (ids values : list Z)
    : M unit :=
  _update from to ids values ;;
  if negb (to =? 0)
  then revertIf (negb (acceptsERC1155 env to)) (ERC1155InvalidReceiver to)
  else ret tt.

(** [ERC1155._mint] *)
Definition _mint (to : address) (id v : Z) : M unit :=
  revertIf (to =? 0) (ERC1155InvalidReceiver 0) ;;
  _updateWithAcceptanceCheck 0 to [id] [v].

(** [ERC1155.safeTransferFrom] *)
Definition safeTransferFrom (from to : address) (id v : Z) : M unit :=
  s <- get ;;
  revertIf (negb (from =? sender msg) && negb (isApprovedForAll s from (sender msg)))
    (ERC1155MissingApprovalForAll (sender msg) from) ;;
  revertIf (to =? 0) (ERC1155InvalidReceiver 0) ;;
  revertIf (from =? 0) (ERC1155InvalidSender 0) ;;
  _updateWithAcceptanceCheck from to [id] [v].

(** [ERC1155.safeBatchTransferFrom] *)
Definition safeBatchTransferFrom (from to : address) (ids values : list Z)
    : M unit :=
  s <- get ;;
  revertIf (negb (from =? sender msg) && negb (isApprovedForAll s from (sender msg)))
    (ERC1155MissingApprovalForAll (sender msg) from) ;;
  revertIf (to =? 0) (ERC1155InvalidReceiver 0) ;;
  revertIf (from =? 0) (ERC1155InvalidSender 0) ;;
  _updateWithAcceptanceCheck from to ids values.

(** [ERC1155.setApprovalForAll] *)
Definition setApprovalForAll (operator : address) (approved : bool) : M unit :=
  revertIf (operator =? 0) (ERC1155InvalidOperator 0) ;;
  modify (fun s =>
    set_operatorApprovals (<[(sender msg, operator) := approved]> (_operatorApprovals s)) s) ;;
  emit (ApprovalForAll (sender msg) operator approved).

(** *** Main functions *)

(** [_mintFirstCertificate] *)
Definition _mintFirstCertificate (courseId : Z) (recipientName ipfsCID : string)
    (paymentReceiptHash : Z) (baseRoute : string) : M unit :=
  validStringLength recipientName 100 "recipientName" ;;
  s <- get ;;
  revertIf (negb (userCertificates_at s (sender msg) =? 0)) CertificateAlreadyExists ;;
  let certificatePrice := _getCertificatePrice s courseId in
  revertIf (value msg <? certificatePrice) InsufficientPayment ;;
  let tokenId := _nextTokenId s in
  next <- checked (tokenId + 1) ;;
  modify (set_nextTokenId next) ;;
  modify (fun s => set_usedPaymentHashes (<[paymentReceiptHash := true]> (usedPaymentHashes s)) s) ;;
  let initialCourses := [courseId] in
  modify (fun s => set_certificates
    (<[tokenId := mkCertificate tokenId (defaultPlatformName s) recipientName
                    (sender msg) true true ipfsCID baseRoute (timestamp msg)
                    (timestamp msg) 1 paymentReceiptHash initialCourses]>
       (certificates s)) s) ;;
  modify (fun s => set_userCertificates (<[sender msg := tokenId]> (userCertificates s)) s) ;;
  modify (fun s => set_certificateCourseExists
    (<[(tokenId, courseId) := true]> (certificateCourseExists s)) s) ;;
  _mint (sender msg) tokenId 1 ;;
  _processCertificatePayment (getCourse_creator env courseId) certificatePrice ;;
  emit (CertificateMinted (sender msg) tokenId recipientName ipfsCID
          paymentReceiptHash certificatePrice) ;;
  emit (CertificatePaymentRecorded (sender msg) (sender msg) tokenId paymentReceiptHash).

(** [_addCourseToExistingCertificate] *)
Definition _addCourseToExistingCertificate (tokenId courseId : Z) (ipfsCID : string)
    (paymentReceiptHash : Z) : M unit :=
  s <- get ;;
  let additionPrice := _getCertificatePrice s courseId in
  revertIf (value msg <? additionPrice) InsufficientPayment ;;
  let cert := certificates_at s tokenId in
  revertIf (negb (recipientAddress cert =? sender msg)) (CertificateNotFound tokenId) ;;
  revertIf (negb (isValid cert)) (CertificateNotFound tokenId) ;;
  revertIf (certificateCourseExists_at s tokenId courseId) CourseAlreadyInCertificate ;;
  modify (fun s => set_usedPaymentHashes (<[paymentReceiptHash := true]> (usedPaymentHashes s)) s) ;;
  modify (update_certificate tokenId
            (fun c => set_completedCourses (completedCourses c ++ [courseId]) c)) ;;
  modify (update_certificate tokenId
            (fun c => set_totalCoursesCompleted (wrap (totalCoursesCompleted c + 1)) c)) ;;
  modify (update_certificate tokenId (set_lastUpdated (timestamp msg))) ;;
  modify (update_certificate tokenId (set_ipfsCID ipfsCID)) ;;
  modify (update_certificate tokenId (set_paymentReceiptHash paymentReceiptHash)) ;;
  modify (fun s => set_certificateCourseExists
    (<[(tokenId, courseId) := true]> (certificateCourseExists s)) s) ;;
  (let sections_length := getCourseSections_length env courseId in
   if 0 <? sections_length then
     lastSectionId <- checked (sections_length - 1) ;;
     let completedAt :=
       getSectionProgress_completedAt env (sender msg) courseId lastSectionId in
     modify (fun s => set_certificateCourseCompletionDate
       (<[(tokenId, courseId) := completedAt]> (certificateCourseCompletionDate s)) s)
   else ret tt) ;;
  _processPayment (getCourse_creator env courseId) additionPrice ;;
  emit (CourseAddedToCertificate (sender msg) tokenId courseId ipfsCID
          paymentReceiptHash additionPrice) ;;
  emit (CertificatePaymentRecorded (sender msg) (sender msg) tokenId paymentReceiptHash).

(** [mintOrUpdateCertificate] *)
Definition mintOrUpdateCertificate (courseId : Z) (recipientName ipfsCID : string)
    (paymentReceiptHash : Z) (baseRoute : string) : M unit :=
  nonReentrant (
    whenNotPaused ;;
    validStringLength ipfsCID 2000 "ipfsCID" ;;
    revertIf (paymentReceiptHash =? 0) InvalidPaymentReceiptHash ;;
    s <- get ;;
    revertIf (usedPaymentHashes_at s paymentReceiptHash) PaymentHashAlreadyUsed ;;
    revertIf (negb (isCourseCompleted env (sender msg) courseId)) CourseNotCompleted ;;
    revertIf (getLicense_courseId env (sender msg) courseId =? 0) NoLicenseOwnership ;;
    let existingTokenId := userCertificates_at s (sender msg) in
    if existingTokenId =? 0 then
      _mintFirstCertificate courseId recipientName ipfsCID paymentReceiptHash baseRoute
    else
      _addCourseToExistingCertificate existingTokenId courseId ipfsCID paymentReceiptHash).

(** [updateCertificate] *)
Definition updateCertificate (tokenId : Z) (newIpfsCID : string)
    (paymentReceiptHash : Z) : M unit :=
  nonReentrant (
    whenNotPaused ;;
    validStringLength newIpfsCID 2000 "newIpfsCID" ;;
    revertIf (paymentReceiptHash =? 0) InvalidPaymentReceiptHash ;;
    s <- get ;;
    revertIf (usedPaymentHashes_at s paymentReceiptHash) PaymentHashAlreadyUsed ;;
    revertIf (negb (_exists s tokenId)) (CertificateNotFound tokenId) ;;
    revertIf (value msg <? defaultCourseAdditionFee s) InsufficientPayment ;;
    let cert := certificates_at s tokenId in
    revertIf (negb (isValid cert)) (CertificateNotFound tokenId) ;;
    revertIf (negb (recipientAddress cert =? sender msg))
      (RevertMsg "Only certificate owner can update") ;;
    modify (fun s => set_usedPaymentHashes (<[paymentReceiptHash := true]> (usedPaymentHashes s)) s) ;;
    modify (update_certificate tokenId (set_ipfsCID newIpfsCID)) ;;
    modify (update_certificate tokenId (set_paymentReceiptHash paymentReceiptHash)) ;;
    modify (update_certificate tokenId (set_lastUpdated (timestamp msg))) ;;
    s <- get ;;
    _processCertificatePayment (platformWallet s) (defaultCourseAdditionFee s) ;;
    s <- get ;;
    let cert := certificates_at s tokenId in
    emit (CertificateUpdated (recipientAddress cert) tokenId newIpfsCID paymentReceiptHash) ;;
    emit (CertificatePaymentRecorded (sender msg) (recipientAddress cert) tokenId
            paymentReceiptHash)).

(** The validation loop of [addMultipleCoursesToCertificate]. *)
Definition validateCourse (tokenId courseId : Z) : M unit :=
  revertIf (negb (isCourseCompleted env (sender msg) courseId)) CourseNotCompleted ;;
  s <- get ;;
  revertIf (certificateCourseExists_at s tokenId courseId) CourseAlreadyInCertificate.

(** The appending loop of [addMultipleCoursesToCertificate]. *)
Definition addCourse (tokenId : Z) (ipfsCID : string) (paymentReceiptHash perCourseFee : Z)
    (courseId : Z) : M unit :=
  modify (update_certificate tokenId
            (fun c => set_completedCourses (completedCourses c ++ [courseId]) c)) ;;
  modify (fun s => set_certificateCourseExists
    (<[(tokenId, courseId) := true]> (certificateCourseExists s)) s) ;;
  emit (CourseAddedToCertificate (sender msg) tokenId courseId ipfsCID
          paymentReceiptHash perCourseFee).

(** [addMultipleCoursesToCertificate] *)
Definition addMultipleCoursesToCertificate (courseIds : list Z) (ipfsCID : string)
    (paymentReceiptHash : Z) : M unit :=
  nonReentrant (
    whenNotPaused ;;
    validStringLength ipfsCID 2000 "ipfsCID" ;;
    revertIf (Z.of_nat (length courseIds) =? 0) EmptyCoursesArray ;;
    revertIf (paymentReceiptHash =? 0) InvalidPaymentReceiptHash ;;
    s <- get ;;
    revertIf (usedPaymentHashes_at s paymentReceiptHash) PaymentHashAlreadyUsed ;;
    let tokenId := userCertificates_at s (sender msg) in
    revertIf (tokenId =? 0) NoCertificateExists ;;
    let cert := certificates_at s tokenId in
    revertIf (negb (isValid cert)) (CertificateNotFound tokenId) ;;
    let perCourseFee := defaultCourseAdditionFee s in
    totalFee <- checked (perCourseFee * Z.of_nat (length courseIds)) ;;
    revertIf (value msg <? totalFee) InsufficientPayment ;;
    forEach (validateCourse tokenId) courseIds ;;
    modify (fun s => set_usedPaymentHashes (<[paymentReceiptHash := true]> (usedPaymentHashes s)) s) ;;
    forEach (addCourse tokenId ipfsCID paymentReceiptHash perCourseFee) courseIds ;;
    modify (update_certificate tokenId
      (fun c => set_totalCoursesCompleted
                  (wrap (totalCoursesCompleted c + Z.of_nat (length courseIds))) c)) ;;
    modify (update_certificate tokenId (set_lastUpdated (timestamp msg))) ;;
    modify (update_certificate tokenId (set_ipfsCID ipfsCID)) ;;
    modify (update_certificate tokenId (set_paymentReceiptHash paymentReceiptHash)) ;;
    s <- get ;;
    _processCertificatePayment (platformWallet s) totalFee ;;
    emit (CertificatePaymentRecorded (sender msg) (sender msg) tokenId paymentReceiptHash)).

(** *** Admin functions *)

Definition setDefaultCertificateFee (newFee : Z) : M unit :=
  onlyOwner ;;
  revertIf (newFee =? 0) ZeroAmount ;;
  revertIf (MAX_CERTIFICATE_PRICE <? newFee) ExceedsMaxPrice ;;
  modify (set_defaultCertificateFee newFee) ;;
  emit (DefaultCertificateFeeUpdated newFee).

Definition setDefaultCourseAdditionFee (newFee : Z) : M unit :=
  onlyOwner ;;
  revertIf (newFee =? 0) ZeroAmount ;;
  revertIf (MAX_CERTIFICATE_PRICE <? newFee) ExceedsMaxPrice ;;
  modify (set_defaultCourseAdditionFee newFee) ;;
  emit (CourseAdditionFeeUpdated newFee).

Definition setPlatformWallet (newWallet : address) : M unit :=
  onlyOwner ;;
  revertIf (newWallet =? 0) (InvalidAddress newWallet) ;;
  s <- get ;;
  let oldWallet := platformWallet s in
  modify (set_platformWallet newWallet) ;;
  emit (PlatformWalletUpdated oldWallet newWallet).

Definition setDefaultPlatformName (newPlatformName : string) : M unit :=
  onlyOwner ;;
  revertIf ((Z.of_nat (String.length newPlatformName) =? 0)
            || (100 <? Z.of_nat (String.length newPlatformName)))
           (InvalidStringLength "platformName" 100) ;;
  modify (set_defaultPlatformName newPlatformName) ;;
  emit (PlatformNameUpdated newPlatformName).

Definition setCourseCertificatePrice (courseId price : Z) : M unit :=
  revertIf (price =? 0) ZeroAmount ;;
  revertIf (MAX_CERTIFICATE_PRICE <? price) ExceedsMaxPrice ;;
  require (getCourse_creator env courseId =? sender msg)
    "Only course creator can set price" ;;
  modify (fun s => set_courseCertificatePrices
    (<[courseId := price]> (courseCertificatePrices s)) s) ;;
  emit (CourseCertificatePriceSet courseId price (sender msg)).

Definition setTokenURI (tokenId : Z) (tokenURI : string) : M unit :=
  onlyOwner ;;
  s <- get ;;
  revertIf (negb (_exists s tokenId)) (CertificateNotFound tokenId) ;;
  modify (fun s => set_tokenURIs (<[tokenId := tokenURI]> (_tokenURIs s)) s) ;;
  emit (TokenURIUpdated tokenId tokenURI).

Definition updateBaseRoute (tokenId : Z) (newBaseRoute : string) : M unit :=
  onlyOwner ;;
  validStringLength newBaseRoute 200 "baseRoute" ;;
  s <- get ;;
  revertIf (negb (_exists s tokenId)) (CertificateNotFound tokenId) ;;
  modify (update_certificate tokenId (set_baseRoute newBaseRoute)) ;;
  modify (update_certificate tokenId (set_lastUpdated (timestamp msg))) ;;
  emit (BaseRouteUpdated tokenId newBaseRoute).

Definition updateDefaultBaseRoute (newBaseRoute : string) : M unit :=
  onlyOwner ;;
  validStringLength newBaseRoute 200 "baseRoute" ;;
  modify (set_defaultBaseRoute newBaseRoute) ;;
  emit (DefaultBaseRouteUpdated newBaseRoute).

Definition updateDefaultMetadataBaseURI (newBaseURI : string) : M unit :=
  onlyOwner ;;
  modify (set_defaultMetadataBaseURI newBaseURI) ;;
  emit (DefaultMetadataBaseURIUpdated newBaseURI).

(** The loop body of [batchUpdateBaseRoute]. *)
Definition updateBaseRouteIfExists (newBaseRoute : string) (tokenId : Z) : M unit :=
  s <- get ;;
  if _exists s tokenId then
    modify (update_certificate tokenId (set_baseRoute newBaseRoute)) ;;
    modify (update_certificate tokenId (set_lastUpdated (timestamp msg))) ;;
    emit (BaseRouteUpdated tokenId newBaseRoute)
  else ret tt.

Definition batchUpdateBaseRoute (tokenIds : list Z) (newBaseRoute : string) : M unit :=
  onlyOwner ;;
  validStringLength newBaseRoute 200 "baseRoute" ;;
  revertIf (Z.of_nat (length tokenIds) =? 0) EmptyCoursesArray ;;
  forEach (updateBaseRouteIfExists newBaseRoute) tokenIds.

Definition revokeCertificate (tokenId : Z) (reason : string) : M unit :=
  onlyOwner ;;
  s <- get ;;
  revertIf (negb (_exists s tokenId)) (CertificateNotFound tokenId) ;;
  modify (update_certificate tokenId (set_isValid false)) ;;
  emit (CertificateRevoked tokenId reason).

Definition pause : M unit :=
  onlyOwner ;;
  whenNotPaused ;;
  modify (set_paused true) ;;
  emit (Paused (sender msg)).

Definition unpause : M unit :=
  onlyOwner ;;
  whenPaused ;;
  modify (set_paused false) ;;
  emit (Unpaused (sender msg)).

(** [Ownable.transferOwnership] and [Ownable.renounceOwnership] *)
Definition transferOwnership (newOwner : address) : M unit :=
  onlyOwner ;;
  revertIf (newOwner =? 0) (OwnableInvalidOwner 0) ;;
  s <- get ;;
  modify (set_owner newOwner) ;;
  emit (OwnershipTransferred (_owner s) newOwner).

Definition renounceOwnership : M unit :=
  onlyOwner ;;
  s <- get ;;
  modify (set_owner 0) ;;
  emit (OwnershipTransferred (_owner s) 0).

(** *** Transactions *)

(** The state-changing external functions of the contract. *)
Inductive Call : Type :=
| MintOrUpdateCertificate (courseId : Z) (recipientName ipfsCID : string)
    (paymentReceiptHash : Z) (baseRoute : string)
| UpdateCertificate (tokenId : Z) (newIpfsCID : string) (paymentReceiptHash : Z)
| AddMultipleCoursesToCertificate (courseIds : list Z) (ipfsCID : string)
    (paymentReceiptHash : Z)
| SetDefaultCertificateFee (newFee : Z)
| SetDefaultCourseAdditionFee (newFee : Z)
| SetPlatformWallet (newWallet : address)
| SetDefaultPlatformName (newPlatformName : string)
| SetCourseCertificatePrice (courseId price : Z)
| SetTokenURI (tokenId : Z) (tokenURI : string)
| UpdateBaseRoute (tokenId : Z) (newBaseRoute : string)
| UpdateDefaultBaseRoute (newBaseRoute : string)
| UpdateDefaultMetadataBaseURI (newBaseURI : string)
| BatchUpdateBaseRoute (tokenIds : list Z) (newBaseRoute : string)
| RevokeCertificate (tokenId : Z) (reason : string)
| Pause
| Unpause
| TransferOwnership (newOwner : address)
| RenounceOwnership
| SetApprovalForAll (operator : address) (approved : bool)
| SafeTransferFrom (from to : address) (id v : Z)
| SafeBatchTransferFrom (from to : address) (ids values : list Z).

Definition dispatch (c : Call) : M unit :=
  match c with
  | MintOrUpdateCertificate courseId recipientName ipfsCID paymentReceiptHash baseRoute =>
      mintOrUpdateCertificate courseId recipientName ipfsCID paymentReceiptHash baseRoute
  | UpdateCertificate tokenId newIpfsCID paymentReceiptHash =>
      updateCertificate tokenId newIpfsCID paymentReceiptHash
  | AddMultipleCoursesToCertificate courseIds ipfsCID paymentReceiptHash =>
      addMultipleCoursesToCertificate courseIds ipfsCID paymentReceiptHash
  | SetDefaultCertificateFee newFee => setDefaultCertificateFee newFee
  | SetDefaultCourseAdditionFee newFee => setDefaultCourseAdditionFee newFee
  | SetPlatformWallet newWallet => setPlatformWallet newWallet
  | SetDefaultPlatformName newPlatformName => setDefaultPlatformName newPlatformName
  | SetCourseCertificatePrice courseId price => setCourseCertificatePrice courseId price
  | SetTokenURI tokenId tokenURI => setTokenURI tokenId tokenURI
  | UpdateBaseRoute tokenId newBaseRoute => updateBaseRoute tokenId newBaseRoute
  | UpdateDefaultBaseRoute newBaseRoute => updateDefaultBaseRoute newBaseRoute
  | UpdateDefaultMetadataBaseURI newBaseURI => updateDefaultMetadataBaseURI newBaseURI
  | BatchUpdateBaseRoute tokenIds newBaseRoute => batchUpdateBaseRoute tokenIds newBaseRoute
  | RevokeCertificate tokenId reason => revokeCertificate tokenId reason
  | Pause => pause
  | Unpause => unpause
  | TransferOwnership newOwner => transferOwnership newOwner
  | RenounceOwnership => renounceOwnership
  | SetApprovalForAll operator approved => setApprovalForAll operator approved
  | SafeTransferFrom from to id v => safeTransferFrom from to id v
  | SafeBatchTransferFrom from to ids values => safeBatchTransferFrom from to ids values
  end.

(** One transaction: the new storage and the effects, or the revert. *)
Definition run (c : Call) (s : State) : Error + (State * list Effect) :=
  match dispatch c s [] with
  | inl e => inl e
  | inr (_, s', l) => inr (s', l)
  end.

(** The storage after the transaction: a revert leaves it as it was. *)
Definition apply_tx (c : Call) (s : State) : State :=
  match run c s with
  | inl _ => s
  | inr (s', _) => s'
  end.

End Contract.

(** The constructor; [deployer] is its [msg.sender]. *)
Definition constructor (deployer _courseFactory _progressTracker _courseLicense
    _platformWallet : address) (_initialBaseRoute _platformName : string)
    : Error + State :=
  if deployer =? 0 then inl (OwnableInvalidOwner 0)
  else if _courseFactory =? 0 then inl (InvalidAddress _courseFactory)
  else if _progressTracker =? 0 then inl (InvalidAddress _progressTracker)
  else if _courseLicense =? 0 then inl (InvalidAddress _courseLicense)
  else if _platformWallet =? 0 then inl (InvalidAddress _platformWallet)
  else inr (mkState _courseFactory _progressTracker _courseLicense
              1 (10 ^ 15) (10 ^ 14) _platformWallet _platformName _initialBaseRoute
              EmptyString
              ∅ ∅ ∅ ∅ ∅ ∅ ∅ deployer false false ∅ ∅).

(** *** View functions *)

Definition getUserCertificate (s : State) (user : address) : Z :=
  userCertificates_at s user.

Definition getCertificate (s : State) (tokenId : Z) : Error + Certificate :=
  if negb (_exists s tokenId) then inl (CertificateNotFound tokenId)
  else inr (certificates_at s tokenId).

Definition getCertificateCompletedCourses (s : State) (tokenId : Z)
    : Error + list Z :=
  if negb (_exists s tokenId) then inl (CertificateNotFound tokenId)
  else inr (completedCourses (certificates_at s tokenId)).

Definition isCourseInCertificate (s : State) (tokenId courseId : Z) : bool :=
  if negb (_exists s tokenId) then false
  else certificateCourseExists_at s tokenId courseId.

Definition verifyCertificate (s : State) (tokenId : Z) : bool :=
  _exists s tokenId && isValid (certificates_at s tokenId).

Definition getCourseCertificatePrice (s : State) (courseId : Z) : Z :=
  let creatorPrice := courseCertificatePrices_at s courseId in
  if 0 <? creatorPrice then creatorPrice else defaultCertificateFee s.

(** ** Executions *)

(** The states the contract can be in: the one the constructor leaves, and
    any state a successful transaction leads to. Reverted transactions leave
    the state as it is. *)
Inductive reachable : State -> Prop :=
| reachable_init deployer cf pt cl pw route name s :
    constructor deployer cf pt cl pw route name = inr s ->
    reachable s
| reachable_step env msg c s s' log :
    reachable s ->
    run env msg c s = inr (s', log) ->
    reachable s'.

(** [s'] is reached from [s] by zero or more successful transactions. *)
Inductive steps : State -> State -> Prop :=
| steps_refl s : steps s s
| steps_step env msg c s s' s'' log :
    steps s s' ->
    run env msg c s' = inr (s'', log) ->
    steps s s''.

(** ** Vocabulary of the statements *)

(** *** Effects of a transaction *)

(** The value transfers of a log, without the observed storage. *)
Definition transfers_of (l : list Effect) : list (address * Z) :=
  omap (fun e => match e with Transfer to a _ => Some (to, a) | Emit _ => None end) l.

(** The storage observed by the transfers of a log. *)
Definition observed_by (l : list Effect) : list State :=
  omap (fun e => match e with Transfer _ _ s => Some s | Emit _ => None end) l.

Definition total_transferred (l : list Effect) : Z :=
  foldr (fun p acc => snd p + acc) 0 (transfers_of l).

(** One transfer leg of a settlement: skipped when the amount is zero. *)
Definition leg (to : address) (amount : Z) (s : State) : list Effect :=
  if 0 <? amount then [Transfer to amount s] else [].

(** The legs of a settlement of [R] with platform share [fee], paid by
    [payer] who attached [v]: platform, payee, refund of the excess. *)
Definition settlement_legs (platform payee payer : address) (v R fee : Z) (s : State)
    : list Effect :=
  leg platform fee s ++ leg payee (R - fee) s ++
  (if R <? v then [Transfer payer (v - R) s] else []).

(** *** The ledger view of the storage *)

Definition owner_of (s : State) (t : Z) : address :=
  recipientAddress (certificates_at s t).

Definition courses_of (s : State) (t : Z) : list Z :=
  completedCourses (certificates_at s t).

(** The ledger fields are left as they are. *)
Definition ledger_eq (s s' : State) : Prop :=
  _nextTokenId s' = _nextTokenId s /\
  (forall u, userCertificates_at s' u = userCertificates_at s u) /\
  (forall h, usedPaymentHashes_at s' h = usedPaymentHashes_at s h) /\
  (forall t c, certificateCourseExists_at s' t c = certificateCourseExists_at s t c) /\
  (forall t, owner_of s' t = owner_of s t) /\
  (forall t, courses_of s' t = courses_of s t).

(** A certificate is minted for [u] with [course], consuming [X]. *)
Definition ledger_mint (u : address) (course X : Z) (s s' : State) : Prop :=
  userCertificates_at s u = 0 /\
  usedPaymentHashes_at s X = false /\
  _nextTokenId s' = _nextTokenId s + 1 /\
  (forall u', userCertificates_at s' u' =
     if decide (u' = u) then _nextTokenId s else userCertificates_at s u') /\
  (forall h, usedPaymentHashes_at s' h =
     if decide (h = X) then true else usedPaymentHashes_at s h) /\
  (forall t c, certificateCourseExists_at s' t c =
     if decide (t = _nextTokenId s /\ c = course) then true
     else certificateCourseExists_at s t c) /\
  (forall t, owner_of s' t = if decide (t = _nextTokenId s) then u else owner_of s t) /\
  (forall t, courses_of s' t =
     if decide (t = _nextTokenId s) then [course] else courses_of s t).

(** The courses [cs] are appended to the certificate [t], consuming [X];
    a content refresh is the case of no course. *)
Definition ledger_append (t : Z) (cs : list Z) (X : Z) (s s' : State) : Prop :=
  usedPaymentHashes_at s X = false /\
  Forall (fun c => certificateCourseExists_at s t c = false) cs /\
  _nextTokenId s' = _nextTokenId s /\
  (forall u, userCertificates_at s' u = userCertificates_at s u) /\
  (forall h, usedPaymentHashes_at s' h =
     if decide (h = X) then true else usedPaymentHashes_at s h) /\
  (forall t' c, certificateCourseExists_at s' t' c =
     if decide (t' = t /\ c ∈ cs) then true else certificateCourseExists_at s t' c) /\
  (forall t', owner_of s' t' = owner_of s t') /\
  (forall t', courses_of s' t' =
     if decide (t' = t) then courses_of s t ++ cs else courses_of s t').

(** The payment identifier a call presents, if it presents one. *)
Definition paymentHash_of (c : Call) : option Z :=
  match c with
  | MintOrUpdateCertificate _ _ _ X _ => Some X
  | UpdateCertificate _ _ X => Some X
  | AddMultipleCoursesToCertificate _ _ X => Some X
  | _ => None
  end.

(** The courses a call asks to append to an existing certificate. *)
Definition appended_courses (c : Call) : list Z :=
  match c with
  | MintOrUpdateCertificate courseId _ _ _ _ => [courseId]
  | AddMultipleCoursesToCertificate courseIds _ _ => courseIds
  | _ => []
  end.

(** What a successful transaction does to the ledger: nothing, a mint, or
    an append (with no course for a content refresh). *)
Inductive ledger_step (msg : Msg) (c : Call) (s s' : State) : Prop :=
| ledger_step_eq :
    paymentHash_of c = None ->
    ledger_eq s s' ->
    ledger_step msg c s s'
| ledger_step_mint course X :
    paymentHash_of c = Some X -> X <> 0 ->
    ledger_mint (sender msg) course X s s' ->
    ledger_step msg c s s'
| ledger_step_append t X :
    paymentHash_of c = Some X -> X <> 0 ->
    (t = userCertificates_at s (sender msg) /\ t <> 0) \/ _exists s t = true ->
    ledger_append t (appended_courses c) X s s' ->
    ledger_step msg c s s'.

(** *** The ledger invariant *)

Record Inv (s : State) : Prop := mkInv {
  inv_next : 1 <= _nextTokenId s;
  inv_entered : _entered s = false;
  inv_user : forall u,
    userCertificates_at s u <> 0 ->
    _exists s (userCertificates_at s u) = true /\
    owner_of s (userCertificates_at s u) = u;
  inv_owner : forall t,
    _exists s t = true -> userCertificates_at s (owner_of s t) = t;
  inv_courses : forall t c,
    certificateCourseExists_at s t c = true <->
    _exists s t = true /\ c ∈ courses_of s t
}.

(** *** Entry guards and splits *)


(** The transfers of a settlement of [R] at [F] percent in which the
    platform wallet [pw] is also the payee. *)
Definition platform_split (pw payer : address) (v R F : Z) : list (address * Z) :=
  (if 0 <? R * F / 100 then [(pw, R * F / 100)] else []) ++
  (if 0 <? R - R * F / 100 then [(pw, R - R * F / 100)] else []) ++
  (if R <? v then [(payer, v - R)] else []).

(** ** A concrete execution

    A deployment with platform wallet [99]; the student [50] completed the
    courses 5, 7 and 9 (not 10) and held a license for each; course [c] was
    created by [1000 + c]; no creator set a price. *)
Module Scenario.

Definition env0 : Env :=
  mkEnv (fun _ c => negb (c =? 10)) (fun _ c => c) (fun c => 1000 + c)
        (fun _ => 0) (fun _ _ _ => 0) (fun _ _ => true) (fun _ => true).

Definition student : address := 50.

Definition deployed : Error + State := constructor 1 2 3 4 99 "https://verify" "EduVerse".

Definition s0 : State :=
  mkState 2 3 4 1 (10 ^ 15) (10 ^ 14) 99 "EduVerse" "https://verify" EmptyString
    ∅ ∅ ∅ ∅ ∅ ∅ ∅ 1 false false ∅ ∅.

(** Scenario A: the student mints with course 5, attaching 0.001 ether. *)
Definition msgA : Msg := mkMsg student (10 ^ 15) 1000.
Definition callA : Call := MintOrUpdateCertificate 5 "Ann" "cidA" 77 EmptyString.
Definition s1 : State := apply_tx env0 msgA callA s0.

(** Scenario B as the code settles it: course 7, attaching 0.001 ether. *)
Definition msgB : Msg := mkMsg student (10 ^ 15) 2000.
Definition callB : Call := MintOrUpdateCertificate 7 "Ann" "cidB" 78 EmptyString.
Definition s2 : State := apply_tx env0 msgB callB s1.

(** Scenario B as the documentation prices it: attaching 0.0001 ether. *)
Definition msgB' : Msg := mkMsg student (10 ^ 14) 2000.

(** A batch that names course 9 twice, attaching 0.0002 ether. *)
Definition msgC : Msg := mkMsg student (2 * 10 ^ 14) 3000.
Definition callC : Call := AddMultipleCoursesToCertificate [9; 9] "cidC" 79.
Definition s3 : State := apply_tx env0 msgC callC s1.

(** A content refresh of certificate 1, attaching 0.0001 ether. *)
Definition msgD : Msg := mkMsg student (10 ^ 14) 4000.
Definition callD : Call := UpdateCertificate 1 "cidD" 80.


(** Scenario E: a batch with the course 10, which was never completed. *)
Definition callF : Call := AddMultipleCoursesToCertificate [9; 10] "cidF" 81.

Definition log_of (r : Error + (State * list Effect)) : list Effect :=
  match r with
  | inl _ => []
  | inr (_, l) => l
  end.

End Scenario.


(** ** Further view functions and the service layer *)

(** [getUserCertificateStats] *)
Definition getUserCertificateStats (s : State) (user : address) : Z * Z * Z * Z :=
  let tokenId := userCertificates_at s user in
  if tokenId =? 0 then (0, 0, 0, 0)
  else
    let cert := certificates_at s tokenId in
    (tokenId, totalCoursesCompleted cert, issuedAt cert, lastUpdated cert).

(** [getCourseCompletionDate] *)
Definition getCourseCompletionDate (s : State) (tokenId courseId : Z) : Z :=
  certificateCourseCompletionDate_at s tokenId courseId.

(** The certificate service of the web application (TypeScript). Its reads
    of the contract are the view functions above, evaluated on the current
    storage; numbers are [bigint], whose division truncates. *)
Module Service.

Record CertificateEligibility : Type := mkEligibility {
  eligible : bool;
  isFirstCertificate : bool;
  reason : option string
}.

Record CertificatePrice : Type := mkPrice {
  basePrice : Z;
  platformFeePercentage : Z;
  platformFee : Z;
  creatorFee : Z;
  totalRequired : Z
}.

(** [getUserCertificateId] *)
Definition getUserCertificateId (s : State) (userAddress : address) : Z :=
  getUserCertificate s userAddress.

(** [hasCertificate] *)
Definition hasCertificate (s : State) (userAddress : address) : bool :=
  0 <? getUserCertificateId s userAddress.

(** [getCertificatePrice]: the flag is only logged. *)
Definition getCertificatePrice (s : State) (courseId : Z) (isFirstCertificate : bool) : Z :=
  getCourseCertificatePrice s courseId.

(** The loop of [calculateBatchPrice]; [i] is the index of the first
    element of [courseIds]. *)
Fixpoint sumPrices (s : State) (hasExistingCertificate : bool) (i : nat)
    (courseIds : list Z) (total : Z) : Z :=
  match courseIds with
  | [] => total
  | courseId :: rest =>
      let isFirst := Nat.eqb i 0 && negb hasExistingCertificate in
      let price := getCertificatePrice s courseId isFirst in
      sumPrices s hasExistingCertificate (S i) rest (total + price)
  end.

(** [calculateBatchPrice] *)
Definition calculateBatchPrice (s : State) (courseIds : list Z)
    (hasExistingCertificate : bool) : Z :=
  let total := sumPrices s hasExistingCertificate 0 courseIds 0 in
  let buffer := Z.quot (total * 5) 100 in
  total + buffer.

(** [calculateCertificatePrice], without the formatted [priceInEth]. *)
Definition calculateCertificatePrice (s : State) (courseId : Z)
    (isFirstCertificate : bool) : CertificatePrice :=
  let basePrice := getCertificatePrice s courseId isFirstCertificate in
  let platformFeePercentage := if isFirstCertificate then 10 else 2 in
  let platformFee := Z.quot (basePrice * (platformFeePercentage * 100)) 10000 in
  let creatorFee := basePrice - platformFee in
  mkPrice basePrice platformFeePercentage platformFee creatorFee basePrice.

(** [checkEligibilityForCertificate], when no read of the chain throws. *)
Definition checkEligibilityForCertificate (env : Env) (s : State)
    (userAddress : address) (courseId : Z) : CertificateEligibility :=
  if negb (isCourseCompleted env userAddress courseId) then
    mkEligibility false false (Some "Course not completed")
  else if getLicense_courseId env userAddress courseId =? 0 then
    mkEligibility false false (Some "No license found for this course")
  else
    let tokenId := getUserCertificateId s userAddress in
    let isFirstCertificate := tokenId =? 0 in
    if (0 <? tokenId) && isCourseInCertificate s tokenId courseId then
      mkEligibility false false (Some "Course already in certificate")
    else mkEligibility true isFirstCertificate None.

End Service.

(** *** Further invariants of the reachable states *)

(** The configuration stays within the bounds its setters enforce. *)
Record ConfigInv (s : State) : Prop := mkConfigInv {
  cfg_certificateFee :
    defaultCertificateFee s <> 0 /\ defaultCertificateFee s <= MAX_CERTIFICATE_PRICE;
  cfg_additionFee :
    defaultCourseAdditionFee s <> 0 /\ defaultCourseAdditionFee s <= MAX_CERTIFICATE_PRICE;
  cfg_wallet : platformWallet s <> 0;
  cfg_prices : forall course,
    courseCertificatePrices_at s course <= MAX_CERTIFICATE_PRICE
}.

(** Every existing record is well formed, every other slot is untouched,
    and the token balances mirror the records. *)
Record RecordInv (s : State) : Prop := mkRecordInv {
  rec_tokenId : forall t, _exists s t = true -> tokenId (certificates_at s t) = t;
  rec_lifetime : forall t, _exists s t = true -> lifetimeFlag (certificates_at s t) = true;
  rec_owner : forall t, _exists s t = true -> recipientAddress (certificates_at s t) <> 0;
  rec_courses : forall t, _exists s t = true -> completedCourses (certificates_at s t) <> [];
  rec_total : forall t,
    _exists s t = true ->
    totalCoursesCompleted (certificates_at s t)
    = wrap (Z.of_nat (length (completedCourses (certificates_at s t))));
  rec_payment : forall t,
    _exists s t = true ->
    paymentReceiptHash (certificates_at s t) <> 0 /\
    usedPaymentHashes_at s (paymentReceiptHash (certificates_at s t)) = true;
  rec_zero_hash : usedPaymentHashes_at s 0 = false;
  rec_unallocated : forall t,
    _exists s t = false -> certificates_at s t = zeroCertificate;
  rec_balance : forall u id,
    balanceOf s u id =
    if decide (_exists s id = true /\ recipientAddress (certificates_at s id) = u)
    then 1 else 0
}.

(** *** Further vocabulary *)

(** The calls of the functions that carry the modifier [onlyOwner]. *)
Definition guarded_by_onlyOwner (c : Call) : bool :=
  match c with
  | SetDefaultCertificateFee _ | SetDefaultCourseAdditionFee _ | SetPlatformWallet _
  | SetDefaultPlatformName _ | SetTokenURI _ _ | UpdateBaseRoute _ _
  | UpdateDefaultBaseRoute _ | UpdateDefaultMetadataBaseURI _
  | BatchUpdateBaseRoute _ _ | RevokeCertificate _ _ | Pause | Unpause
  | TransferOwnership _ | RenounceOwnership => true
  | _ => false
  end.

(** The recipients of the transfers of a log accepted them. *)
Definition accepted (env : Env) (l : list Effect) : Prop :=
  Forall (fun p => callSucceeds env (fst p) (snd p) = true) (transfers_of l).

(** What a call has to settle: the payee of the residual, the required
    amount and the platform share in basis points. Only the three payable
    functions settle anything. *)
Definition settlement_of (env : Env) (msg : Msg) (s : State) (c : Call)
    : option (address * Z * Z) :=
  match c with
  | MintOrUpdateCertificate courseId _ _ _ _ =>
      Some (getCourse_creator env courseId, _getCertificatePrice s courseId,
            if userCertificates_at s (sender msg) =? 0 then 1000 else 200)
  | UpdateCertificate _ _ _ =>
      Some (platformWallet s, defaultCourseAdditionFee s, 1000)
  | AddMultipleCoursesToCertificate courseIds _ _ =>
      Some (platformWallet s,
            defaultCourseAdditionFee s * Z.of_nat (length courseIds), 1000)
  | _ => None
  end.

(** Completion dates are recorded for appended courses only: the course a
    certificate was minted with heads its list and does not occur again,
    and a date is recorded only for a course behind the head. *)
Record DateInv (s : State) : Prop := mkDateInv {
  date_head : forall t,
    _exists s t = true ->
    exists c0 rest, courses_of s t = c0 :: rest /\ c0 ∉ rest;
  date_recorded : forall t c,
    certificateCourseCompletionDate_at s t c <> 0 ->
    _exists s t = true /\
    exists c0 rest, courses_of s t = c0 :: rest /\ c ∈ rest
}.

(** Executions in which no call names a course twice. *)
Inductive steps_distinct : State -> State -> Prop :=
| steps_distinct_refl s : steps_distinct s s
| steps_distinct_step env msg c s s' s'' log :
    steps_distinct s s' ->
    NoDup (appended_courses c) ->
    run env msg c s' = inr (s'', log) ->
    steps_distinct s s''.

(** ** A concrete administration

    The owner [1] revokes certificate 1 after scenario A, then pauses the
    contract. *)
Module Administration.

Import Scenario.

Definition msgR : Msg := mkMsg 1 0 5000.
Definition callR : Call := RevokeCertificate 1 "fraud".
Definition sR : State := apply_tx env0 msgR callR s1.
Definition sP : State := apply_tx env0 msgR Pause sR.

End Administration.

(** ** Reasoning about computations in [M] *)

Section MonadLemmas.

Context {A B : Type}.

Lemma bind_inr (c : M A) (k : A -> M B) s l r :
  bind c k s l = inr r ->
  exists a s1 l1, c s l = inr (a, s1, l1) /\ k a s1 l1 = inr r.
Proof.
  unfold bind. destruct (c s l) as [e | [[a s1] l1]]; [discriminate |].
  intros H. exists a, s1, l1. split; [reflexivity | exact H].
Qed.

Lemma bind_inl_inv (c : M A) (k : A -> M B) s l e :
  bind c k s l = inl e ->
  c s l = inl e \/ exists a s1 l1, c s l = inr (a, s1, l1) /\ k a s1 l1 = inl e.
Proof.
  unfold bind. destruct (c s l) as [e' | [[a s1] l1]]; [intros H; left; congruence |].
  intros H. right. exists a, s1, l1. auto.
Qed.

Lemma ret_inr (a a' : A) s l s' l' :
  ret a s l = inr (a', s', l') -> a' = a /\ s' = s /\ l' = l.
Proof. unfold ret. intros H. injection H as <- <- <-. auto. Qed.

End MonadLemmas.

Lemma revertIf_inr b e s l u s' l' :
  revertIf b e s l = inr (u, s', l') -> b = false /\ s' = s /\ l' = l.
Proof.
  unfold revertIf. destruct b; [discriminate |].
  intros H. apply ret_inr in H. tauto.
Qed.

Lemma require_inr b reason s l u s' l' :
  require b reason s l = inr (u, s', l') -> b = true /\ s' = s /\ l' = l.
Proof.
  unfold require. destruct b; [| discriminate].
  intros H. apply ret_inr in H. tauto.
Qed.

Lemma get_inr s l a s' l' :
  get s l = inr (a, s', l') -> a = s /\ s' = s /\ l' = l.
Proof. unfold get. intros H. injection H as <- <- <-. auto. Qed.

Lemma modify_inr f s l u s' l' :
  modify f s l = inr (u, s', l') -> s' = f s /\ l' = l.
Proof. unfold modify. intros H. injection H as <- <-. auto. Qed.

Lemma emit_inr ev s l u s' l' :
  emit ev s l = inr (u, s', l') -> s' = s /\ l' = l ++ [Emit ev].
Proof. unfold emit. intros H. injection H as <- <-. auto. Qed.

Lemma checked_inr x s l a s' l' :
  checked x s l = inr (a, s', l') ->
  (0 <= x <= MAX_UINT256) /\ a = x /\ s' = s /\ l' = l.
Proof.
  unfold checked. destruct ((0 <=? x) && (x <=? MAX_UINT256)) eqn:E; [| discriminate].
  intros H. apply ret_inr in H. apply andb_prop in E. destruct E as [E1 E2].
  apply Z.leb_le in E1. apply Z.leb_le in E2. tauto.
Qed.

Lemma call_value_inr env to amount s l ok s' l' :
  call_value env to amount s l = inr (ok, s', l') ->
  ok = callSucceeds env to amount /\ s' = s /\ l' = l ++ [Transfer to amount s].
Proof. unfold call_value. intros H. injection H as <- <- <-. auto. Qed.

(** Inversion of a successful run, one primitive at a time. Loops
    ([forEach]) are left for the lemma of the loop at hand. *)
Ltac inv_m_step :=
  match goal with
  | H : inl _ = inr _ |- _ => discriminate H
  | H : @bind _ _ _ _ _ _ = inr _ |- _ =>
      apply bind_inr in H; destruct H as (? & ? & ? & ? & H); cbv beta zeta in H
  | H : @ret _ _ _ _ = inr (_, _, _) |- _ =>
      apply ret_inr in H; destruct H as (? & ? & ?)
  | H : @revert _ _ _ _ = inr _ |- _ => discriminate H
  | H : revertIf _ _ _ _ = inr (_, _, _) |- _ =>
      apply revertIf_inr in H; destruct H as (H & ? & ?)
  | H : require _ _ _ _ = inr (_, _, _) |- _ =>
      apply require_inr in H; destruct H as (H & ? & ?)
  | H : get _ _ = inr (_, _, _) |- _ =>
      apply get_inr in H; destruct H as (? & ? & ?)
  | H : modify _ _ _ = inr (_, _, _) |- _ =>
      apply modify_inr in H; destruct H as (? & ?)
  | H : emit _ _ _ = inr (_, _, _) |- _ =>
      apply emit_inr in H; destruct H as (? & ?)
  | H : checked _ _ _ = inr (_, _, _) |- _ =>
      apply checked_inr in H; destruct H as (H & ? & ? & ?)
  | H : call_value _ _ _ _ _ = inr (_, _, _) |- _ =>
      apply call_value_inr in H; destruct H as (? & ? & ?)
  | H : (if ?b then _ else _) _ _ = inr _ |- _ => destruct b eqn:?
  | u : unit |- _ => destruct u
  end.

Ltac inv_m :=
  unfold validStringLength, whenNotPaused, whenPaused, onlyOwner in *;
  repeat (inv_m_step; subst).

Lemma revertIf_inl b e0 s l e :
  revertIf b e0 s l = inl e -> b = true /\ e = e0.
Proof.
  unfold revertIf. destruct b; [| discriminate].
  intros H. injection H as <-. auto.
Qed.

Lemma require_inl b reason s l e :
  require b reason s l = inl e -> b = false /\ e = RevertMsg reason.
Proof.
  unfold require. destruct b; [discriminate |].
  intros H. injection H as <-. auto.
Qed.

Lemma checked_inl x s l e : checked x s l = inl e -> e = Panic 17.
Proof.
  unfold checked. destruct ((0 <=? x) && (x <=? MAX_UINT256)); [discriminate |].
  intros H. injection H as <-. reflexivity.
Qed.

(** Inversion of a reverted run: the first primitive that reverts. *)
Ltac inv_e_step :=
  match goal with
  | H : inr _ = inl _ |- _ => discriminate H
  | H : @bind _ _ _ _ _ _ = inl _ |- _ =>
      apply bind_inl_inv in H;
      destruct H as [H | (? & ? & ? & ? & H)]; cbv beta zeta in H
  | H : @ret _ _ _ _ = inl _ |- _ => discriminate H
  | H : @revert _ _ _ _ = inl _ |- _ => injection H as H
  | H : revertIf _ _ _ _ = inl _ |- _ =>
      apply revertIf_inl in H; destruct H as (H & ?)
  | H : require _ _ _ _ = inl _ |- _ =>
      apply require_inl in H; destruct H as (H & ?)
  | H : get _ _ = inl _ |- _ => discriminate H
  | H : modify _ _ _ = inl _ |- _ => discriminate H
  | H : emit _ _ _ = inl _ |- _ => discriminate H
  | H : checked _ _ _ = inl _ |- _ => apply checked_inl in H
  | H : call_value _ _ _ _ _ = inl _ |- _ => discriminate H
  | H : (if ?b then _ else _) _ _ = inl _ |- _ => destruct b eqn:?
  end.

Ltac inv_e :=
  unfold validStringLength, whenNotPaused, whenPaused, onlyOwner in *;
  repeat (first [inv_e_step | inv_m_step]; subst).

(** ** Inversion of the contract functions *)

Lemma _processCertificatePayment_inr env msg recipient R s l u s' l' :
  _processCertificatePayment env msg recipient R s l = inr (u, s', l') ->
  s' = s /\ 0 <= R /\ R * 1000 <= MAX_UINT256 /\
  l' = l ++ settlement_legs (platformWallet s) recipient (sender msg) (value msg) R
              (R * 1000 / 10000) s.
Proof.
  unfold _processCertificatePayment, settlement_legs, leg. intros H.
  inv_m; (split; [reflexivity |]); (split; [lia |]); (split; [lia |]);
    rewrite <- ?app_assoc; simpl; rewrite ?app_nil_r; reflexivity.
Qed.

Lemma _processPayment_inr env msg recipient R s l u s' l' :
  _processPayment env msg recipient R s l = inr (u, s', l') ->
  s' = s /\ 0 <= R /\ R * 200 <= MAX_UINT256 /\
  l' = l ++ settlement_legs (platformWallet s) recipient (sender msg) (value msg) R
              (R * 200 / 10000) s.
Proof.
  unfold _processPayment, settlement_legs, leg. intros H.
  inv_m; (split; [reflexivity |]); (split; [lia |]); (split; [lia |]);
    rewrite <- ?app_assoc; simpl; rewrite ?app_nil_r; reflexivity.
Qed.

(** *** Reading the mappings after a write *)

Lemma default_lookup_insert `{Countable K} {V} (d : V) (m : gmap K V) k v k' :
  default d (<[k := v]> m !! k') = if decide (k = k') then v else default d (m !! k').
Proof. rewrite lookup_insert. destruct (decide (k = k')); reflexivity. Qed.

Ltac state_simpl :=
  unfold update_certificate in *;
  unfold owner_of, courses_of, certificates_at, userCertificates_at,
    usedPaymentHashes_at, certificateCourseExists_at, courseCertificatePrices_at,
    _exists in *;
  cbn [courseFactory progressTracker courseLicense _nextTokenId defaultCertificateFee
       defaultCourseAdditionFee platformWallet defaultPlatformName defaultBaseRoute
       defaultMetadataBaseURI certificates userCertificates usedPaymentHashes
       _tokenURIs certificateCourseExists courseCertificatePrices
       certificateCourseCompletionDate _owner _paused _entered _balances
       _operatorApprovals
       set_nextTokenId set_defaultCertificateFee set_defaultCourseAdditionFee
       set_platformWallet set_defaultPlatformName set_defaultBaseRoute
       set_defaultMetadataBaseURI set_certificates set_userCertificates
       set_usedPaymentHashes set_tokenURIs set_certificateCourseExists
       set_courseCertificatePrices set_certificateCourseCompletionDate set_owner
       set_paused set_entered set_balances set_operatorApprovals
       tokenId platformName recipientName recipientAddress lifetimeFlag isValid
       ipfsCID baseRoute issuedAt lastUpdated totalCoursesCompleted
       paymentReceiptHash completedCourses
       set_isValid set_ipfsCID set_baseRoute set_lastUpdated
       set_totalCoursesCompleted set_paymentReceiptHash set_completedCourses] in *.

Ltac map_pre := state_simpl; rewrite ?default_lookup_insert.

Ltac map_post :=
  repeat match goal with
         | |- context [decide ?P] => destruct (decide P)
         end;
  rewrite ?list_elem_of_singleton, ?elem_of_cons, ?elem_of_nil in *;
  try subst;
  cbn [tokenId platformName recipientName recipientAddress lifetimeFlag isValid
       ipfsCID baseRoute issuedAt lastUpdated totalCoursesCompleted
       paymentReceiptHash completedCourses
       set_isValid set_ipfsCID set_baseRoute set_lastUpdated
       set_totalCoursesCompleted set_paymentReceiptHash set_completedCourses];
  try reflexivity;
  try (exfalso; intuition (simplify_eq; congruence || lia));
  try (intuition (simplify_eq; congruence || lia)).

Ltac map_simpl := map_pre; map_post.

Lemma _mint_inr env msg to id v s l u s' l' :
  _mint env msg to id v s l = inr (u, s', l') ->
  to <> 0 /\ exists b ev, s' = set_balances b s /\ l' = l ++ [Emit ev].
Proof.
  unfold _mint, _updateWithAcceptanceCheck, _update, ERC1155_update. intros H.
  cbn [forEach zip zip_with ERC1155_update_one length] in H.
  inv_m; rewrite ?negb_false_iff, ?negb_true_iff, ?Z.eqb_eq, ?Z.eqb_neq in *;
    try lia; (split; [assumption |]); eexists _, _; split; reflexivity.
Qed.

Lemma _mintFirstCertificate_inr env msg course name cid X route s l u s' l' :
  _mintFirstCertificate env msg course name cid X route s l = inr (u, s', l') ->
  usedPaymentHashes_at s X = false ->
  ledger_mint (sender msg) course X s s' /\
  _entered s' = _entered s /\
  _getCertificatePrice s course <= value msg /\
  exists ev1 ev2 ev3,
    l' = l ++ [Emit ev1] ++
         settlement_legs (platformWallet s) (getCourse_creator env course)
           (sender msg) (value msg) (_getCertificatePrice s course)
           (_getCertificatePrice s course * 1000 / 10000) s' ++
         [Emit ev2; Emit ev3].
Proof.
  unfold _mintFirstCertificate. intros H Hused.
  inv_m.
  match goal with
  | E : _mint _ _ _ _ _ _ _ = inr _ |- _ =>
      apply _mint_inr in E; destruct E as (_ & b & ev & -> & ->)
  end.
  match goal with
  | E : _processCertificatePayment _ _ _ _ _ _ = inr _ |- _ =>
      apply _processCertificatePayment_inr in E; destruct E as (-> & _ & _ & ->)
  end.
  rewrite negb_false_iff, Z.eqb_eq in *. rewrite Z.ltb_ge in *.
  split; [| split; [reflexivity | split; [assumption |]]].
  - unfold ledger_mint. repeat split; try assumption; try reflexivity; intros; map_simpl.
  - eexists _, _, _. rewrite <- !app_assoc. reflexivity.
Qed.

Lemma _addCourseToExistingCertificate_inr env msg t course cid X s l u s' l' :
  _addCourseToExistingCertificate env msg t course cid X s l = inr (u, s', l') ->
  usedPaymentHashes_at s X = false ->
  ledger_append t [course] X s s' /\
  _entered s' = _entered s /\
  owner_of s t = sender msg /\
  isValid (certificates_at s t) = true /\
  _getCertificatePrice s course <= value msg /\
  exists ev2 ev3,
    l' = l ++
         settlement_legs (platformWallet s) (getCourse_creator env course)
           (sender msg) (value msg) (_getCertificatePrice s course)
           (_getCertificatePrice s course * 200 / 10000) s' ++
         [Emit ev2; Emit ev3].
Proof.
  unfold _addCourseToExistingCertificate. intros H Hused.
  inv_m;
    match goal with
    | E : _processPayment _ _ _ _ _ _ = inr _ |- _ =>
        apply _processPayment_inr in E; destruct E as (-> & _ & _ & ->)
    end;
    rewrite ?negb_false_iff, ?Z.eqb_eq, ?Z.ltb_ge in *;
    (split; [| split; [reflexivity | split; [assumption | split; [assumption |
       split; [assumption |]]]]]).
  all: try (eexists _, _; rewrite <- !app_assoc; reflexivity).
  all: unfold ledger_append; repeat split; try assumption; try reflexivity;
    try (apply Forall_singleton; assumption);
    intros; map_simpl.
Qed.

Lemma set_entered_true_id s :
  _entered s = true -> set_entered true (set_entered false s) = s.
Proof. destruct s. cbn. intros ->. reflexivity. Qed.

Lemma mintOrUpdateCertificate_inr env msg course name cid X route s l u s' l' :
  mintOrUpdateCertificate env msg course name cid X route s l = inr (u, s', l') ->
  _entered s = false /\ _entered s' = false /\ _paused s = false /\ X <> 0 /\
  usedPaymentHashes_at s X = false /\
  isCourseCompleted env (sender msg) course = true /\
  getLicense_courseId env (sender msg) course <> 0 /\
  _getCertificatePrice s course <= value msg /\
  ((userCertificates_at s (sender msg) = 0 /\
    ledger_mint (sender msg) course X s s' /\
    exists ev1 ev2 ev3,
      l' = l ++ [Emit ev1] ++
           settlement_legs (platformWallet s) (getCourse_creator env course)
             (sender msg) (value msg) (_getCertificatePrice s course)
             (_getCertificatePrice s course * 1000 / 10000) (set_entered true s') ++
           [Emit ev2; Emit ev3])
   \/
   (userCertificates_at s (sender msg) <> 0 /\
    ledger_append (userCertificates_at s (sender msg)) [course] X s s' /\
    owner_of s (userCertificates_at s (sender msg)) = sender msg /\
    isValid (certificates_at s (userCertificates_at s (sender msg))) = true /\
    exists ev2 ev3,
      l' = l ++
           settlement_legs (platformWallet s) (getCourse_creator env course)
             (sender msg) (value msg) (_getCertificatePrice s course)
             (_getCertificatePrice s course * 200 / 10000) (set_entered true s') ++
           [Emit ev2; Emit ev3])).
Proof.
  unfold mintOrUpdateCertificate, nonReentrant. intros H.
  inv_m; rewrite ?negb_false_iff, ?Z.eqb_eq, ?Z.eqb_neq in *.
  - match goal with
    | E : _mintFirstCertificate _ _ _ _ _ _ _ _ _ = inr _ |- _ =>
        apply _mintFirstCertificate_inr in E; [| assumption];
        destruct E as (Hl & He & Hp & ev1 & ev2 & ev3 & ->)
    end.
    repeat (split; [first [assumption | reflexivity] |]).
    left. split; [assumption |]. split; [exact Hl |].
    exists ev1, ev2, ev3. rewrite (set_entered_true_id _ He). reflexivity.
  - match goal with
    | E : _addCourseToExistingCertificate _ _ _ _ _ _ _ _ = inr _ |- _ =>
        apply _addCourseToExistingCertificate_inr in E; [| assumption];
        destruct E as (Hl & He & Ho & Hv & Hp & ev2 & ev3 & ->)
    end.
    repeat (split; [first [assumption | reflexivity] |]).
    right. split; [assumption |]. split; [exact Hl |].
    split; [exact Ho |]. split; [exact Hv |].
    exists ev2, ev3. rewrite (set_entered_true_id _ He). reflexivity.
Qed.

Lemma updateCertificate_inr env msg t cid X s l u s' l' :
  updateCertificate env msg t cid X s l = inr (u, s', l') ->
  _entered s = false /\ _entered s' = false /\ _paused s = false /\ X <> 0 /\
  usedPaymentHashes_at s X = false /\
  _exists s t = true /\
  defaultCourseAdditionFee s <= value msg /\
  isValid (certificates_at s t) = true /\
  owner_of s t = sender msg /\
  ledger_append t [] X s s' /\
  (forall t', totalCoursesCompleted (certificates_at s' t') =
              totalCoursesCompleted (certificates_at s t')) /\
  exists ev2 ev3,
    l' = l ++
         settlement_legs (platformWallet s) (platformWallet s)
           (sender msg) (value msg) (defaultCourseAdditionFee s)
           (defaultCourseAdditionFee s * 1000 / 10000) (set_entered true s') ++
         [Emit ev2; Emit ev3].
Proof.
  unfold updateCertificate, nonReentrant. intros H.
  inv_m.
  match goal with
  | E : _processCertificatePayment _ _ _ _ _ _ = inr _ |- _ =>
      apply _processCertificatePayment_inr in E; destruct E as (-> & _ & _ & ->)
  end.
  rewrite ?negb_false_iff, ?Z.eqb_eq, ?Z.eqb_neq, ?Z.ltb_ge in *.
  repeat (split; [first [assumption | reflexivity] |]).
  split; [| split].
  - unfold ledger_append. repeat split; try assumption; try reflexivity;
      try (apply Forall_nil; exact I); intros; rewrite ?app_nil_r; map_simpl.
  - intros. map_simpl.
  - eexists _, _. rewrite <- !app_assoc. reflexivity.
Qed.

(** The validation loop changes nothing and checks every course. *)
Lemma forEach_validateCourse_inr env msg t cs s l u s' l' :
  forEach (validateCourse env msg t) cs s l = inr (u, s', l') ->
  s' = s /\ l' = l /\
  Forall (fun c => isCourseCompleted env (sender msg) c = true /\
                   certificateCourseExists_at s t c = false) cs.
Proof.
  revert s l u s' l'. induction cs as [| c cs IH]; intros s l u s' l' H.
  - cbn [forEach] in H. inv_m. auto.
  - cbn [forEach] in H. unfold validateCourse in H. inv_m.
    apply IH in H. destruct H as (-> & -> & HF).
    rewrite negb_false_iff in *. auto.
Qed.

(** The appending loop pushes every course and marks it, in order. *)
Lemma forEach_addCourse_inr msg t cid X fee cs s l u s' l' :
  forEach (addCourse msg t cid X fee) cs s l = inr (u, s', l') ->
  (exists m1 m2,
     s' = set_certificateCourseExists m2 (set_certificates m1 s) /\
     (forall t', default zeroCertificate (m1 !! t') =
        if decide (t' = t)
        then set_completedCourses (courses_of s t ++ cs) (certificates_at s t)
        else certificates_at s t') /\
     (forall t' c, default false (m2 !! (t', c)) =
        if decide (t' = t /\ c ∈ cs) then true
        else certificateCourseExists_at s t' c)) /\
  l' = l ++ map (fun c => Emit (CourseAddedToCertificate (sender msg) t c cid X fee)) cs.
Proof.
  revert s l u s' l'. induction cs as [| c cs IH]; intros s l u s' l' H.
  - cbn [forEach] in H. inv_m. split; [| cbn; rewrite app_nil_r; reflexivity].
    exists (certificates s), (certificateCourseExists s).
    split; [destruct s; reflexivity |].
    split; intros.
    + destruct (decide (t' = t)) as [-> |]; [| reflexivity].
      unfold courses_of. rewrite app_nil_r.
      unfold certificates_at. destruct (default zeroCertificate _); reflexivity.
    + destruct (decide _) as [[_ Hin] |]; [| reflexivity].
      apply elem_of_nil in Hin. contradiction.
  - cbn [forEach] in H. unfold addCourse in H. inv_m.
    apply IH in H. destruct H as ((m1 & m2 & -> & Hm1 & Hm2) & ->).
    split.
    + exists m1, m2. split; [reflexivity |]. split; intros.
      * rewrite Hm1. map_simpl. rewrite <- app_assoc. reflexivity.
      * rewrite Hm2. map_simpl.
    + rewrite <- app_assoc. reflexivity.
Qed.

Lemma addMultipleCoursesToCertificate_inr env msg cs cid X s l u s' l' :
  addMultipleCoursesToCertificate env msg cs cid X s l = inr (u, s', l') ->
  let t := userCertificates_at s (sender msg) in
  let totalFee := defaultCourseAdditionFee s * Z.of_nat (length cs) in
  _entered s = false /\ _entered s' = false /\ _paused s = false /\
  cs <> [] /\ X <> 0 /\
  usedPaymentHashes_at s X = false /\
  t <> 0 /\
  isValid (certificates_at s t) = true /\
  totalFee <= value msg /\
  Forall (fun c => isCourseCompleted env (sender msg) c = true /\
                   certificateCourseExists_at s t c = false) cs /\
  ledger_append t cs X s s' /\
  exists evs ev,
    l' = l ++ map Emit evs ++
         settlement_legs (platformWallet s) (platformWallet s)
           (sender msg) (value msg) totalFee (totalFee * 1000 / 10000)
           (set_entered true s') ++
         [Emit ev].
Proof.
  unfold addMultipleCoursesToCertificate, nonReentrant. intros H.
  inv_m.
  match goal with
  | E : forEach (validateCourse _ _ _) _ _ _ = inr _ |- _ =>
      apply forEach_validateCourse_inr in E; destruct E as (-> & -> & HF)
  end.
  match goal with
  | E : forEach (addCourse _ _ _ _ _) _ _ _ = inr _ |- _ =>
      apply forEach_addCourse_inr in E;
      destruct E as ((m1 & m2 & -> & Hm1 & Hm2) & ->)
  end.
  match goal with
  | E : _processCertificatePayment _ _ _ _ _ _ = inr _ |- _ =>
      apply _processCertificatePayment_inr in E; destruct E as (-> & _ & _ & ->)
  end.
  rewrite ?negb_false_iff, ?Z.eqb_eq, ?Z.eqb_neq, ?Z.ltb_ge in *.
  cbv zeta.
  split; [assumption |]. split; [reflexivity |]. split; [assumption |].
  split; [intros Hcs; subst cs; cbn [length] in *; lia |].
  repeat (split; [first [assumption | reflexivity] |]).
  split.
  - unfold ledger_append. repeat split; try assumption; try reflexivity;
      try (eapply Forall_impl; [exact HF |]; cbn; tauto);
      intros; map_pre; rewrite ?Hm1, ?Hm2; map_post.
  - eexists _, _. rewrite <- !app_assoc.
    rewrite <- (map_map _ Emit). reflexivity.
Qed.

(** ** Transactions and the ledger *)

Lemma ledger_eq_refl s : ledger_eq s s.
Proof. unfold ledger_eq. auto 10. Qed.

Lemma ledger_eq_trans s1 s2 s3 : ledger_eq s1 s2 -> ledger_eq s2 s3 -> ledger_eq s1 s3.
Proof.
  unfold ledger_eq. intros (A1 & A2 & A3 & A4 & A5 & A6) (B1 & B2 & B3 & B4 & B5 & B6).
  repeat split; intros; congruence.
Qed.

Lemma observed_by_app l1 l2 : observed_by (l1 ++ l2) = observed_by l1 ++ observed_by l2.
Proof. apply omap_app. Qed.

Lemma observed_by_emits evs : observed_by (map Emit evs) = [].
Proof. induction evs; [reflexivity | assumption]. Qed.

Lemma observed_by_settlement_legs pw p payer v R fee s :
  Forall (fun o => o = s) (observed_by (settlement_legs pw p payer v R fee s)).
Proof.
  unfold settlement_legs, leg.
  destruct (0 <? fee), (0 <? R - fee), (R <? v); cbn; repeat constructor.
Qed.

Lemma transfers_of_app l1 l2 : transfers_of (l1 ++ l2) = transfers_of l1 ++ transfers_of l2.
Proof. apply omap_app. Qed.

Lemma transfers_of_emits evs : transfers_of (map Emit evs) = [].
Proof. induction evs; [reflexivity | assumption]. Qed.

(** The loop of [batchUpdateBaseRoute] only touches routes and timestamps. *)
Lemma forEach_updateBaseRouteIfExists_inr msg route ts s l u s' l' :
  forEach (updateBaseRouteIfExists msg route) ts s l = inr (u, s', l') ->
  ledger_eq s s' /\ _entered s' = _entered s /\ exists evs, l' = l ++ map Emit evs.
Proof.
  revert s l u s' l'. induction ts as [| t ts IH]; intros s l u s' l' H.
  - cbn [forEach] in H. inv_m. split; [apply ledger_eq_refl |].
    split; [reflexivity |]. exists []. cbn. rewrite app_nil_r. reflexivity.
  - cbn [forEach] in H. unfold updateBaseRouteIfExists in H. inv_m.
    + apply IH in H. destruct H as (Hl & He & evs & ->).
      split; [| split].
      * eapply ledger_eq_trans; [| exact Hl].
        unfold ledger_eq. repeat split; intros; map_simpl.
      * rewrite He. reflexivity.
      * eexists (_ :: evs). rewrite <- app_assoc. reflexivity.
    + apply IH in H. exact H.
Qed.

(** The soulbound override makes every transfer between users revert. *)
Lemma _update_soulbound msg from to ids values s l :
  from <> 0 -> to <> 0 ->
  _update msg from to ids values s l = inl (RevertMsg "Certificates are soulbound").
Proof.
  intros Hf Ht. unfold _update.
  apply Z.eqb_neq in Hf. apply Z.eqb_neq in Ht. rewrite Hf, Ht. reflexivity.
Qed.

Lemma safeTransferFrom_reverts env msg from to id v s l :
  exists e, safeTransferFrom env msg from to id v s l = inl e.
Proof.
  destruct (safeTransferFrom env msg from to id v s l) as [e | [[u s'] l']] eqn:H;
    [eauto |].
  exfalso. unfold safeTransferFrom, _updateWithAcceptanceCheck in H. inv_m.
  - match goal with
    | E : _update _ _ _ _ _ _ _ = inr _ |- _ =>
        rewrite _update_soulbound in E by (apply Z.eqb_neq; assumption); discriminate E
    end.
  - match goal with
    | E : _update _ _ _ _ _ _ _ = inr _ |- _ =>
        rewrite _update_soulbound in E by (apply Z.eqb_neq; assumption); discriminate E
    end.
Qed.

Lemma safeBatchTransferFrom_reverts env msg from to ids values s l :
  exists e, safeBatchTransferFrom env msg from to ids values s l = inl e.
Proof.
  destruct (safeBatchTransferFrom env msg from to ids values s l)
    as [e | [[u s'] l']] eqn:H; [eauto |].
  exfalso. unfold safeBatchTransferFrom, _updateWithAcceptanceCheck in H. inv_m.
  - match goal with
    | E : _update _ _ _ _ _ _ _ = inr _ |- _ =>
        rewrite _update_soulbound in E by (apply Z.eqb_neq; assumption); discriminate E
    end.
  - match goal with
    | E : _update _ _ _ _ _ _ _ = inr _ |- _ =>
        rewrite _update_soulbound in E by (apply Z.eqb_neq; assumption); discriminate E
    end.
Qed.

Lemma observed_by_shape evs1 legs evs2 s :
  Forall (fun o => o = s) (observed_by legs) ->
  Forall (fun o => o = s) (observed_by ([] ++ map Emit evs1 ++ legs ++ map Emit evs2)).
Proof.
  intros H. cbn [app]. rewrite !observed_by_app, !observed_by_emits.
  cbn [app]. rewrite app_nil_r. exact H.
Qed.

Ltac admin_case H :=
  inv_m;
  (split; [apply ledger_step_eq; [reflexivity |];
           unfold ledger_eq; repeat split; intros; map_simpl |]);
  (split; [reflexivity |]);
  rewrite ?observed_by_app; cbn; constructor.

Lemma run_ledger_step env msg c s s' log :
  run env msg c s = inr (s', log) ->
  ledger_step msg c s s' /\
  _entered s' = _entered s /\
  Forall (fun o => o = set_entered true s') (observed_by log).
Proof.
  unfold run. intros H.
  destruct (dispatch env msg c s []) as [e | [[u s1] l1]] eqn:E; [discriminate |].
  injection H as -> ->.
  destruct c; cbn [dispatch] in E.
  - apply mintOrUpdateCertificate_inr in E.
    destruct E as (He & He' & _ & HX & _ & _ & _ & _ & [(_ & Hl & ev1 & ev2 & ev3 & ->)
                                                | (Hu & Hl & _ & _ & ev2 & ev3 & ->)]).
    + split; [eapply ledger_step_mint; [reflexivity | exact HX | exact Hl] |].
      split; [congruence |].
      apply (observed_by_shape [ev1] _ [ev2; ev3]), observed_by_settlement_legs.
    + split; [eapply ledger_step_append; [reflexivity | exact HX | | exact Hl]; auto |].
      split; [congruence |].
      apply (observed_by_shape [] _ [ev2; ev3]), observed_by_settlement_legs.
  - apply updateCertificate_inr in E.
    destruct E as (He & He' & _ & HX & _ & Hex & _ & _ & _ & Hl & _ & ev2 & ev3 & ->).
    split; [eapply ledger_step_append; [reflexivity | exact HX | | exact Hl]; auto |].
    split; [congruence |].
    apply (observed_by_shape [] _ [ev2; ev3]), observed_by_settlement_legs.
  - apply addMultipleCoursesToCertificate_inr in E. cbv zeta in E.
    destruct E as (He & He' & _ & _ & HX & _ & Ht & _ & _ & _ & Hl & evs & ev & ->).
    split; [eapply ledger_step_append; [reflexivity | exact HX | | exact Hl]; auto |].
    split; [congruence |].
    apply (observed_by_shape evs _ [ev]), observed_by_settlement_legs.
  - unfold setDefaultCertificateFee in E. admin_case E.
  - unfold setDefaultCourseAdditionFee in E. admin_case E.
  - unfold setPlatformWallet in E. admin_case E.
  - unfold setDefaultPlatformName in E. admin_case E.
  - unfold setCourseCertificatePrice in E. admin_case E.
  - unfold setTokenURI in E. admin_case E.
  - unfold updateBaseRoute in E. admin_case E.
  - unfold updateDefaultBaseRoute in E. admin_case E.
  - unfold updateDefaultMetadataBaseURI in E. admin_case E.
  - unfold batchUpdateBaseRoute in E. inv_m.
    apply forEach_updateBaseRouteIfExists_inr in E. destruct E as (Hl & He & evs & ->).
    split; [apply ledger_step_eq; [reflexivity | exact Hl] |].
    split; [exact He |].
    cbn [app]. rewrite observed_by_emits. constructor.
  - unfold revokeCertificate in E. admin_case E.
  - unfold pause in E. admin_case E.
  - unfold unpause in E. admin_case E.
  - unfold transferOwnership in E. admin_case E.
  - unfold renounceOwnership in E. admin_case E.
  - unfold setApprovalForAll in E. admin_case E.
  - destruct (safeTransferFrom_reverts env msg from to id v s []) as [e He].
    rewrite He in E. discriminate E.
  - destruct (safeBatchTransferFrom_reverts env msg from to ids values s []) as [e He].
    rewrite He in E. discriminate E.
Qed.

(** ** Preservation of the ledger invariant *)

Lemma _exists_iff s t : _exists s t = true <-> 1 <= t < _nextTokenId s.
Proof. unfold _exists. rewrite andb_true_iff, !Z.ltb_lt. lia. Qed.

Lemma Inv_constructor deployer cf pt cl pw route name s :
  constructor deployer cf pt cl pw route name = inr s -> Inv s.
Proof.
  unfold constructor. intros H.
  repeat match type of H with
         | (if ?b then _ else _) = _ => destruct b; [discriminate H |]
         end.
  injection H as <-. split; cbn; try lia; try reflexivity.
  - intros u Hu. exfalso. apply Hu. reflexivity.
  - intros t Ht. apply _exists_iff in Ht. cbn in Ht. lia.
  - intros t c. split; [discriminate |].
    intros [Ht _]. apply _exists_iff in Ht. cbn in Ht. lia.
Qed.

Lemma Inv_ledger_eq s s' :
  ledger_eq s s' -> _entered s' = _entered s -> Inv s -> Inv s'.
Proof.
  intros (E1 & E2 & E3 & E4 & E5 & E6) He [I1 I2 I3 I4 I5].
  assert (Hex : forall t, _exists s' t = _exists s t)
    by (intros; unfold _exists; rewrite E1; reflexivity).
  split.
  - lia.
  - congruence.
  - intros u. rewrite E2, Hex, E5. apply I3.
  - intros t. rewrite Hex, E5, E2. apply I4.
  - intros t c. rewrite E4, Hex, E6. apply I5.
Qed.

Lemma Inv_ledger_mint u course X s s' :
  ledger_mint u course X s s' -> _entered s' = _entered s -> Inv s -> Inv s'.
Proof.
  intros (Hu & _ & E1 & E2 & E3 & E4 & E5 & E6) He [I1 I2 I3 I4 I5].
  assert (Hex : forall t, _exists s' t = true <->
                          (t = _nextTokenId s \/ _exists s t = true))
    by (intros; rewrite !_exists_iff; lia).
  split.
  - lia.
  - congruence.
  - intros u'. rewrite E2. destruct (decide (u' = u)) as [-> | Hne].
    + intros _. rewrite Hex, E5. rewrite decide_True by reflexivity. auto.
    + intros Hu'. destruct (I3 u' Hu') as [Ha Hb].
      rewrite Hex, E5. split; [auto |].
      destruct (decide _) as [Heq |]; [| assumption].
      apply _exists_iff in Ha. lia.
  - intros t. rewrite Hex, E5, E2. intros [-> | Ht].
    + destruct (decide (_nextTokenId s = _nextTokenId s)); [| congruence].
      rewrite decide_True by reflexivity. reflexivity.
    + destruct (decide (t = _nextTokenId s)) as [Heq |].
      { apply _exists_iff in Ht. lia. }
      destruct (decide (owner_of s t = u)) as [Ho |]; [| auto].
      specialize (I4 t Ht). rewrite Ho, Hu in I4.
      apply _exists_iff in Ht. lia.
  - intros t c. rewrite E4, Hex, E6.
    destruct (decide (t = _nextTokenId s /\ c = course)) as [[-> ->] | Hne].
    + rewrite decide_True by reflexivity. rewrite list_elem_of_singleton. tauto.
    + destruct (decide (t = _nextTokenId s)) as [-> | Ht].
      * rewrite list_elem_of_singleton. rewrite I5, _exists_iff. split; [lia |].
        intros [_ ->]. tauto.
      * rewrite I5. tauto.
Qed.

Lemma Inv_ledger_append t cs X s s' :
  ledger_append t cs X s s' -> _entered s' = _entered s ->
  _exists s t = true -> Inv s -> Inv s'.
Proof.
  intros (_ & _ & E1 & E2 & E3 & E4 & E5 & E6) He Ht [I1 I2 I3 I4 I5].
  assert (Hex : forall t, _exists s' t = _exists s t)
    by (intros; unfold _exists; rewrite E1; reflexivity).
  split.
  - lia.
  - congruence.
  - intros u. rewrite E2, Hex, E5. apply I3.
  - intros t'. rewrite Hex, E5, E2. apply I4.
  - intros t' c. rewrite E4, Hex, E6.
    destruct (decide (t' = t /\ c ∈ cs)) as [[-> Hin] | Hne].
    + rewrite decide_True by reflexivity. rewrite elem_of_app. tauto.
    + destruct (decide (t' = t)) as [-> |]; [| apply I5].
      rewrite elem_of_app, I5. tauto.
Qed.

Lemma Inv_run env msg c s s' log :
  run env msg c s = inr (s', log) -> Inv s -> Inv s'.
Proof.
  intros H HI. apply run_ledger_step in H. destruct H as (Hs & He & _).
  destruct Hs as [_ Hl | course X _ _ Hl | t X _ _ Ht Hl].
  - eapply Inv_ledger_eq; eassumption.
  - eapply Inv_ledger_mint; eassumption.
  - eapply Inv_ledger_append; try eassumption.
    destruct Ht as [[-> Hne] | Ht]; [| assumption].
    apply (inv_user s HI). assumption.
Qed.

Lemma reachable_Inv s : reachable s -> Inv s.
Proof.
  induction 1 as [? ? ? ? ? ? ? ? Hc | ? ? ? ? ? ? _ IH Hr].
  - eapply Inv_constructor. exact Hc.
  - eapply Inv_run; eassumption.
Qed.

Lemma steps_Inv s s' : steps s s' -> Inv s -> Inv s'.
Proof.
  induction 1 as [| ? ? ? ? ? ? ? _ IH Hr]; [auto |].
  intros HI. eapply Inv_run; [exact Hr | auto].
Qed.

Lemma reachable_steps s s' : reachable s -> steps s s' -> reachable s'.
Proof.
  intros Hs. induction 1 as [| ? ? ? ? ? ? ? _ IH Hr]; [assumption |].
  eapply reachable_step; [apply IH; assumption | exact Hr].
Qed.

(** ** The concrete execution *)

Import Scenario.

Lemma deployed_s0 : deployed = inr s0.
Proof. reflexivity. Qed.

Lemma reachable_s0 : reachable s0.
Proof. exact (reachable_init _ _ _ _ _ _ _ _ deployed_s0). Qed.

Lemma run_callA : run env0 msgA callA s0 = inr (s1, log_of (run env0 msgA callA s0)).
Proof. vm_compute. reflexivity. Qed.

Lemma reachable_s1 : reachable s1.
Proof. exact (reachable_step _ _ _ _ _ _ reachable_s0 run_callA). Qed.

Lemma run_callB : run env0 msgB callB s1 = inr (s2, log_of (run env0 msgB callB s1)).
Proof. vm_compute. reflexivity. Qed.

Lemma reachable_s2 : reachable s2.
Proof. exact (reachable_step _ _ _ _ _ _ reachable_s1 run_callB). Qed.

Lemma run_callC : run env0 msgC callC s1 = inr (s3, log_of (run env0 msgC callC s1)).
Proof. vm_compute. reflexivity. Qed.

Lemma reachable_s3 : reachable s3.
Proof. exact (reachable_step _ _ _ _ _ _ reachable_s1 run_callC). Qed.

(** ** Settlement arithmetic *)

Lemma fee_10_percent R : R * 1000 / 10000 = R * 10 / 100.
Proof.
  replace (R * 1000) with (R * 10 * 100) by lia.
  replace 10000 with (100 * 100) by lia.
  apply Z.div_mul_cancel_r; lia.
Qed.

Lemma fee_2_percent R : R * 200 / 10000 = R * 2 / 100.
Proof.
  replace (R * 200) with (R * 2 * 100) by lia.
  replace 10000 with (100 * 100) by lia.
  apply Z.div_mul_cancel_r; lia.
Qed.

Lemma transfers_of_settlement_legs pw p payer v R fee s :
  transfers_of (settlement_legs pw p payer v R fee s) =
  (if 0 <? fee then [(pw, fee)] else []) ++
  (if 0 <? R - fee then [(p, R - fee)] else []) ++
  (if R <? v then [(payer, v - R)] else []).
Proof.
  unfold settlement_legs, leg.
  destruct (0 <? fee), (0 <? R - fee), (R <? v); reflexivity.
Qed.

Lemma total_transferred_app l1 l2 :
  total_transferred (l1 ++ l2) = total_transferred l1 + total_transferred l2.
Proof.
  unfold total_transferred. rewrite transfers_of_app.
  induction (transfers_of l1) as [| p l IH]; cbn; [reflexivity | rewrite IH; lia].
Qed.

Lemma total_transferred_settlement_legs pw p payer v R fee s :
  0 <= fee <= R -> R <= v ->
  total_transferred (settlement_legs pw p payer v R fee s) = v.
Proof.
  intros Hf Hv. unfold total_transferred. rewrite transfers_of_settlement_legs.
  destruct (0 <? fee) eqn:E1, (0 <? R - fee) eqn:E2, (R <? v) eqn:E3; cbn;
    rewrite ?Z.ltb_lt, ?Z.ltb_ge in *; lia.
Qed.

(** C5. Settlement conservation: when [_processCertificatePayment] (fee
    percent 10) or [_processPayment] (fee percent 2) succeeds for the
    required amount [R], the platform share is the floor of [R * F / 100],
    the payee share is the rest, the two add up to [R] exactly, the storage
    is untouched, the transfers are exactly the platform leg, the payee leg
    and, when [msg.value] exceeds [R], the refund of [msg.value - R] to the
    sender; and when [msg.value] is at least [R], the transfers add up to
    [msg.value], so that nothing is created or retained. *)
Theorem settlement_conservation env msg recipient R F s l s' l' :
  (F = 10 /\ _processCertificatePayment env msg recipient R s l = inr (tt, s', l')) \/
  (F = 2 /\ _processPayment env msg recipient R s l = inr (tt, s', l')) ->
  let platformShare := R * F / 100 in
  let payeeShare := R - platformShare in
  0 <= platformShare <= R /\
  platformShare + payeeShare = R /\
  s' = s /\
  transfers_of l' =
    transfers_of l ++
    (if 0 <? platformShare then [(platformWallet s, platformShare)] else []) ++
    (if 0 <? payeeShare then [(recipient, payeeShare)] else []) ++
    (if R <? value msg then [(sender msg, value msg - R)] else []) /\
  (R <= value msg -> total_transferred l' = total_transferred l + value msg).
Proof.
  intros [[-> H] | [-> H]]; cbv zeta.
  - apply _processCertificatePayment_inr in H. destruct H as (-> & HR & _ & ->).
    rewrite fee_10_percent.
    assert (Hb : 0 <= R * 10 / 100 <= R).
    { split; [apply Z.div_pos; lia |].
      apply Z.div_le_upper_bound; lia. }
    split; [exact Hb |]. split; [lia |]. split; [reflexivity |].
    split.
    + rewrite transfers_of_app, transfers_of_settlement_legs. reflexivity.
    + intros Hv. rewrite total_transferred_app.
      rewrite total_transferred_settlement_legs by assumption. reflexivity.
  - apply _processPayment_inr in H. destruct H as (-> & HR & _ & ->).
    rewrite fee_2_percent.
    assert (Hb : 0 <= R * 2 / 100 <= R).
    { split; [apply Z.div_pos; lia |].
      apply Z.div_le_upper_bound; lia. }
    split; [exact Hb |]. split; [lia |]. split; [reflexivity |].
    split.
    + rewrite transfers_of_app, transfers_of_settlement_legs. reflexivity.
    + intros Hv. rewrite total_transferred_app.
      rewrite total_transferred_settlement_legs by assumption. reflexivity.
Qed.

(** A settlement of 0.001 ether at 10% with 0.0015 ether attached: 0.0001 to
    the platform, 0.0009 to the creator, 0.0005 back to the sender. *)
Lemma settlement_conservation_witness :
  transfers_of
    (log_of (match _processCertificatePayment env0 (mkMsg student (15 * 10 ^ 14) 0)
                     1005 (10 ^ 15) s0 [] with
             | inl e => inl e
             | inr (_, s, l) => inr (s, l)
             end)) =
  [(99, 10 ^ 14); (1005, 9 * 10 ^ 14); (student, 5 * 10 ^ 14)].
Proof.
  pose proof (settlement_conservation env0 (mkMsg student (15 * 10 ^ 14) 0)
                1005 (10 ^ 15) 10 s0 [] s0
                (log_of (match _processCertificatePayment env0
                                 (mkMsg student (15 * 10 ^ 14) 0) 1005 (10 ^ 15) s0 [] with
                         | inl e => inl e
                         | inr (_, s, l) => inr (s, l)
                         end))
                (or_introl (conj eq_refl eq_refl))) as H.
  cbv zeta in H. destruct H as (_ & _ & _ & H & _).
  rewrite H. reflexivity.
Defined.

(** ** Ordering of effects and interactions *)

Lemma ledger_step_used msg c s s' h :
  ledger_step msg c s s' ->
  usedPaymentHashes_at s h = true -> usedPaymentHashes_at s' h = true.
Proof.
  intros [_ (_ & _ & E & _) | course X _ _ (_ & _ & _ & _ & E & _)
         | t X _ _ _ (_ & _ & _ & _ & E & _)] Hh;
    rewrite E; [assumption | |]; destruct (decide _); auto.
Qed.

Lemma ledger_step_consumes msg c s s' X :
  ledger_step msg c s s' -> paymentHash_of c = Some X ->
  X <> 0 /\ usedPaymentHashes_at s X = false /\ usedPaymentHashes_at s' X = true.
Proof.
  intros [Hn _ | course X' HX' Hne (_ & Hf & _ & _ & E & _)
         | t X' HX' Hne _ (Hf & _ & _ & _ & E & _)] HX.
  - congruence.
  - assert (X' = X) as -> by congruence.
    rewrite E, decide_True by reflexivity. auto.
  - assert (X' = X) as -> by congruence.
    rewrite E, decide_True by reflexivity. auto.
Qed.

(** C4. Checks-effects-interactions: in every successful transaction, and so
    in a mint, a single append, a batch append and a content refresh, each
    value transfer is made when the storage already is the storage the
    transaction ends with (only the reentrancy guard is still entered): no
    write to [usedPaymentHashes], to [certificates] or to any other state
    variable follows a transfer leg, and the callee of every leg finds the
    presented payment identifier already marked as used. *)
Theorem effects_before_interactions env msg c s s' log :
  run env msg c s = inr (s', log) ->
  Forall (fun observed => observed = set_entered true s') (observed_by log) /\
  (forall X, paymentHash_of c = Some X ->
     usedPaymentHashes_at s X = false /\
     usedPaymentHashes_at s' X = true /\
     Forall (fun observed => usedPaymentHashes_at observed X = true) (observed_by log)).
Proof.
  intros H. apply run_ledger_step in H. destruct H as (Hs & _ & Ho).
  split; [exact Ho |].
  intros X HX. destruct (ledger_step_consumes _ _ _ _ _ Hs HX) as (_ & Hf & Ht).
  split; [exact Hf |]. split; [exact Ht |].
  eapply Forall_impl; [exact Ho |]. cbn. intros o ->. exact Ht.
Qed.

(** The mint of scenario A pays the platform and the creator of course 5;
    both callees observe the certificate and the consumed identifier. *)
Lemma effects_before_interactions_witness :
  transfers_of (log_of (run env0 msgA callA s0)) = [(99, 10 ^ 14); (1005, 9 * 10 ^ 14)] /\
  observed_by (log_of (run env0 msgA callA s0)) = [set_entered true s1; set_entered true s1] /\
  Forall (fun observed => usedPaymentHashes_at observed 77 = true)
    (observed_by (log_of (run env0 msgA callA s0))).
Proof.
  split; [vm_compute; reflexivity |]. split; [vm_compute; reflexivity |].
  exact (proj2 (proj2 (proj2 (effects_before_interactions _ _ _ _ _ _ run_callA)
                         77 eq_refl))).
Defined.

(** ** Soulbound ownership *)

Lemma ledger_step_owner msg c s s' t :
  ledger_step msg c s s' -> _exists s t = true ->
  _exists s' t = true /\ owner_of s' t = owner_of s t.
Proof.
  intros Hs Ht. apply _exists_iff in Ht. rewrite _exists_iff.
  destruct Hs as [_ (E1 & _ & _ & _ & E5 & _)
                 | course X _ _ (_ & _ & E1 & _ & _ & _ & E5 & _)
                 | t0 X _ _ _ (_ & _ & E1 & _ & _ & _ & E5 & _)];
    rewrite E1, E5; [split; [lia | reflexivity] | | split; [lia | reflexivity]].
  split; [lia |]. destruct (decide _); [lia | reflexivity].
Qed.

Lemma steps_owner s s' t :
  steps s s' -> _exists s t = true ->
  _exists s' t = true /\ owner_of s' t = owner_of s t.
Proof.
  induction 1 as [| ? ? ? ? ? ? ? _ IH Hr]; [auto |].
  intros Ht. destruct (IH Ht) as [Ht' Ho].
  apply run_ledger_step in Hr. destruct Hr as (Hs & _ & _).
  destruct (ledger_step_owner _ _ _ _ _ Hs Ht') as [Ht'' Ho'].
  split; [assumption | congruence].
Qed.

(** C9. Soulbound ownership: once a certificate exists, no sequence of
    successful transactions changes its [recipientAddress] (and it keeps
    existing); a certificate that starts to exist in a transaction is owned
    by the sender of that transaction; the overridden ERC-1155 transfer hook
    reverts for every transfer between two nonzero addresses, and so do
    [safeTransferFrom] and [safeBatchTransferFrom] for all arguments. *)
Theorem owner_fixed_at_creation s s' t :
  steps s s' ->
  _exists s t = true ->
  (_exists s' t = true /\
   recipientAddress (certificates_at s' t) = recipientAddress (certificates_at s t)) /\
  (forall env msg c s'' log t',
     run env msg c s' = inr (s'', log) ->
     _exists s' t' = false -> _exists s'' t' = true ->
     recipientAddress (certificates_at s'' t') = sender msg) /\
  (forall msg from to ids values l,
     from <> 0 -> to <> 0 ->
     _update msg from to ids values s' l = inl (RevertMsg "Certificates are soulbound")) /\
  (forall env msg from to id v,
     exists e, run env msg (SafeTransferFrom from to id v) s' = inl e) /\
  (forall env msg from to ids values,
     exists e, run env msg (SafeBatchTransferFrom from to ids values) s' = inl e).
Proof.
  intros Hsteps Ht. split; [exact (steps_owner _ _ _ Hsteps Ht) |].
  split; [| split; [| split]].
  - intros env msg c s'' log t' Hr Hn He.
    apply run_ledger_step in Hr. destruct Hr as (Hs & _ & _).
    apply _exists_iff in He.
    assert (Hn' : ~ (1 <= t' < _nextTokenId s'))
      by (rewrite <- _exists_iff; congruence).
    destruct Hs as [_ (E1 & _) | course X _ _ (_ & _ & E1 & _ & _ & _ & E5 & _)
                   | t0 X _ _ _ (_ & _ & E1 & _)]; try lia.
    fold (owner_of s'' t'). rewrite E5. destruct (decide _); [reflexivity | lia].
  - intros. apply _update_soulbound; assumption.
  - intros env msg from to id v. unfold run. cbn [dispatch].
    destruct (safeTransferFrom_reverts env msg from to id v s' []) as [e ->]. eauto.
  - intros env msg from to ids values. unfold run. cbn [dispatch].
    destruct (safeBatchTransferFrom_reverts env msg from to ids values s' []) as [e ->].
    eauto.
Qed.

Lemma steps_s1_s2 : steps s1 s2.
Proof. exact (steps_step _ _ _ _ _ _ _ (steps_refl s1) run_callB). Qed.

(** Certificate 1 of scenario A still belongs to the student after the
    append of scenario B. *)
Lemma owner_fixed_at_creation_witness :
  _exists s1 1 = true /\
  recipientAddress (certificates_at s2 1) = student.
Proof.
  split; [reflexivity |].
  rewrite (proj2 (proj1 (owner_fixed_at_creation s1 s2 1 steps_s1_s2 eq_refl))).
  reflexivity.
Defined.

(** ** Token identifiers *)

Lemma constructor_nextTokenId deployer cf pt cl pw route name s :
  constructor deployer cf pt cl pw route name = inr s -> _nextTokenId s = 1.
Proof.
  unfold constructor. intros H.
  repeat match type of H with
         | (if ?b then _ else _) = _ => destruct b; [discriminate H |]
         end.
  injection H as <-. reflexivity.
Qed.

(** C10. Token identifiers: the constructor leaves [_nextTokenId] at 1; in
    every reachable state [_nextTokenId] is at least 1, so 0 is not a
    certificate; [getUserCertificate user] is 0 exactly when no existing
    certificate has [user] as its recipient; [_exists t] holds exactly when
    [1 <= t < _nextTokenId]; and a successful transaction either leaves
    [_nextTokenId] as it is, or is a mint for a sender without certificate,
    which allocates the identifier [_nextTokenId] to the sender and
    increments [_nextTokenId] by one. *)
Theorem token_ids_from_one s :
  reachable s ->
  (forall deployer cf pt cl pw route name s0,
     constructor deployer cf pt cl pw route name = inr s0 -> _nextTokenId s0 = 1) /\
  1 <= _nextTokenId s /\
  _exists s 0 = false /\
  (forall user,
     getUserCertificate s user = 0 <->
     ~ exists t, _exists s t = true /\ recipientAddress (certificates_at s t) = user) /\
  (forall t, _exists s t = true <-> 1 <= t < _nextTokenId s) /\
  (forall env msg c s' log,
     run env msg c s = inr (s', log) ->
     _nextTokenId s' = _nextTokenId s \/
     (_nextTokenId s' = _nextTokenId s + 1 /\
      getUserCertificate s (sender msg) = 0 /\
      getUserCertificate s' (sender msg) = _nextTokenId s /\
      _exists s (_nextTokenId s) = false /\
      _exists s' (_nextTokenId s) = true)).
Proof.
  intros Hr. pose proof (reachable_Inv s Hr) as [I1 I2 I3 I4 I5].
  split; [exact constructor_nextTokenId |].
  split; [exact I1 |]. split; [reflexivity |].
  split; [| split; [exact (_exists_iff s) |]].
  - intros user. unfold getUserCertificate. split.
    + intros H0 (t & Ht & Ho). specialize (I4 t Ht).
      fold (owner_of s t) in Ho. rewrite Ho, H0 in I4.
      apply _exists_iff in Ht. lia.
    + intros Hn. destruct (decide (userCertificates_at s user = 0)) as [| Hne];
        [assumption |].
      exfalso. apply Hn. exists (userCertificates_at s user). apply I3. exact Hne.
  - intros env msg c s' log H. apply run_ledger_step in H. destruct H as (Hs & _ & _).
    destruct Hs as [_ (E1 & _) | course X _ _ (Hu & _ & E1 & E2 & _)
                   | t0 X _ _ _ (_ & _ & E1 & _)]; [left; exact E1 | | left; exact E1].
    right. unfold getUserCertificate. rewrite E2, decide_True by reflexivity.
    split; [exact E1 |]. split; [exact Hu |]. split; [reflexivity |].
    split.
    + destruct (_exists s (_nextTokenId s)) eqn:E; [| reflexivity].
      apply _exists_iff in E. lia.
    + apply _exists_iff. lia.
Qed.

(** After scenario A the next identifier is 2, the student holds
    certificate 1 and the creator of course 5 holds none. *)
Lemma token_ids_from_one_witness :
  _nextTokenId s1 = 2 /\ getUserCertificate s1 student = 1 /\
  ~ exists t, _exists s1 t = true /\ recipientAddress (certificates_at s1 t) = 1005.
Proof.
  split; [reflexivity |]. split; [reflexivity |].
  apply (proj1 (proj2 (proj2 (proj2 (token_ids_from_one s1 reachable_s1)))) 1005).
  reflexivity.
Defined.

(** ** Batch appends *)

(** C7. Atomic batch: in a reachable state, a call of
    [addMultipleCoursesToCertificate] in which some course of [courseIds]
    is not completed by the sender, or already is in the sender's
    certificate, reverts; the storage after the transaction is the storage
    before it, so no course is appended, [totalCoursesCompleted] is
    unchanged and the payment identifier is not consumed. *)
Theorem batch_atomic env msg courseIds ipfsCID X s :
  reachable s ->
  (exists c, In c courseIds /\
     (isCourseCompleted env (sender msg) c = false \/
      In c (completedCourses (certificates_at s (userCertificates_at s (sender msg)))))) ->
  (exists e, run env msg (AddMultipleCoursesToCertificate courseIds ipfsCID X) s = inl e) /\
  apply_tx env msg (AddMultipleCoursesToCertificate courseIds ipfsCID X) s = s.
Proof.
  intros Hr (c & Hin & Hc).
  assert (Hfail : exists e,
            run env msg (AddMultipleCoursesToCertificate courseIds ipfsCID X) s = inl e).
  { destruct (run env msg (AddMultipleCoursesToCertificate courseIds ipfsCID X) s)
      as [e | [s' log]] eqn:E; [eauto |].
    exfalso. unfold run in E. cbn [dispatch] in E.
    destruct (addMultipleCoursesToCertificate env msg courseIds ipfsCID X s [])
      as [e | [[u s1] l1]] eqn:E'; [discriminate |].
    apply addMultipleCoursesToCertificate_inr in E'. cbv zeta in E'.
    destruct E' as (_ & _ & _ & _ & _ & _ & Ht & _ & _ & HF & _).
    rewrite Forall_forall in HF. apply list_elem_of_In in Hin.
    destruct (HF c Hin) as [Hdone Hnew].
    destruct Hc as [Hc | Hc]; [congruence |].
    pose proof (reachable_Inv s Hr) as [_ _ I3 _ I5].
    assert (certificateCourseExists_at s (userCertificates_at s (sender msg)) c = true).
    { apply I5. split; [apply I3; exact Ht |].
      apply list_elem_of_In. exact Hc. }
    congruence. }
  split; [exact Hfail |].
  destruct Hfail as [e He]. unfold apply_tx. rewrite He. reflexivity.
Qed.

(** Scenario E: the batch [9; 10], where course 10 was never completed,
    reverts and leaves the certificate of scenario A as it is. *)
Lemma batch_atomic_witness :
  apply_tx env0 msgC callF s1 = s1 /\
  completedCourses (certificates_at (apply_tx env0 msgC callF s1) 1) = [5].
Proof.
  assert (H : apply_tx env0 msgC callF s1 = s1).
  { apply (batch_atomic env0 msgC [9; 10] "cidF" 81 s1 reachable_s1).
    exists 10. split; [right; left; reflexivity | left; reflexivity]. }
  split; [exact H |]. rewrite H. reflexivity.
Defined.

(** ** Payment replay *)

Lemma string_length_ok str maxLength :
  1 <= Z.of_nat (String.length str) <= maxLength ->
  (Z.of_nat (String.length str) =? 0) || (maxLength <? Z.of_nat (String.length str)) = false.
Proof.
  intros H. apply orb_false_iff. rewrite Z.eqb_neq, Z.ltb_ge. lia.
Qed.








(** ** One certificate per user *)

Lemma _mintFirstCertificate_owner env msg course name cid X route s l :
  userCertificates_at s (sender msg) <> 0 ->
  (exists e, _mintFirstCertificate env msg course name cid X route s l = inl e) /\
  (1 <= Z.of_nat (String.length name) <= 100 ->
   _mintFirstCertificate env msg course name cid X route s l
   = inl CertificateAlreadyExists).
Proof.
  intros Hu.
  assert (Hb : negb (userCertificates_at s (sender msg) =? 0) = true)
    by (apply negb_true_iff, Z.eqb_neq; exact Hu).
  unfold _mintFirstCertificate.
  cbv beta iota delta [bind get modify validStringLength revertIf ret revert].
  destruct ((Z.of_nat (String.length name) =? 0) || (100 <? Z.of_nat (String.length name)))
    eqn:E.
  - split; [eauto |]. intros Hlen. rewrite (string_length_ok _ 100 Hlen) in E.
    discriminate E.
  - rewrite Hb. split; [eauto | reflexivity].
Qed.

(** The guard of the mint routine is never the reason why the entry point
    reverts: the entry point enters the routine only for a sender without
    certificate. *)
Lemma mintOrUpdateCertificate_not_AlreadyExists env msg course name cid X route s :
  run env msg (MintOrUpdateCertificate course name cid X route) s
  <> inl CertificateAlreadyExists.
Proof.
  unfold run. cbn [dispatch].
  destruct (mintOrUpdateCertificate env msg course name cid X route s [])
    as [e | [[u s1] l1]] eqn:E; [| discriminate].
  intros H. injection H as ->.
  unfold mintOrUpdateCertificate, nonReentrant, _mintFirstCertificate,
    _addCourseToExistingCertificate, _mint, _updateWithAcceptanceCheck, _update,
    ERC1155_update, _processCertificatePayment, _processPayment in E.
  inv_e; cbn [forEach zip zip_with ERC1155_update_one length] in *; inv_e;
    try discriminate.
  match goal with
  | H1 : negb (?x =? 0) = true, H2 : (?x =? 0) = true |- _ =>
      rewrite H2 in H1; discriminate H1
  end.
Qed.

(** C2, as the claim states it, fails twice over. A principal that owns a
    certificate and calls [mintOrUpdateCertificate] is not rejected with
    [CertificateAlreadyExists]: the call is an append, and scenario B
    succeeds. And the mint routine itself, entered by such a principal with
    an empty [recipientName], reverts with [InvalidStringLength]. *)
Lemma mint_by_owner_counterexample :
  ~ (forall env msg course name cid X route s,
       reachable s -> userCertificates_at s (sender msg) <> 0 ->
       run env msg (MintOrUpdateCertificate course name cid X route) s
       = inl CertificateAlreadyExists) /\
  ~ (forall env msg course name cid X route s l,
       reachable s -> userCertificates_at s (sender msg) <> 0 ->
       _mintFirstCertificate env msg course name cid X route s l
       = inl CertificateAlreadyExists).
Proof.
  split; intros H.
  - specialize (H env0 msgB 7 "Ann" "cidB" 78 EmptyString s1 reachable_s1).
    assert (Hu : userCertificates_at s1 (sender msgB) <> 0)
      by (vm_compute; discriminate).
    specialize (H Hu). pose proof run_callB as R. unfold callB in R.
    rewrite R in H. discriminate H.
  - specialize (H env0 msgB 7 EmptyString "cidB" 78 EmptyString s1 [] reachable_s1).
    assert (Hu : userCertificates_at s1 (sender msgB) <> 0)
      by (vm_compute; discriminate).
    specialize (H Hu). vm_compute in H. discriminate H.
Qed.

(** C2, amended. In every reachable state at most one existing certificate
    has a given principal as its recipient. The mint routine
    [_mintFirstCertificate], entered for a sender that already has a
    certificate, reverts, so it creates nothing; the error is
    [CertificateAlreadyExists] whenever [recipientName] has 1 to 100 bytes.
    A successful [mintOrUpdateCertificate] of such a sender allocates no
    token identifier: it is an append to the sender's certificate; and no
    call of [mintOrUpdateCertificate] reverts with
    [CertificateAlreadyExists]. *)
Theorem one_certificate_per_user s :
  reachable s ->
  (forall P t1 t2,
     _exists s t1 = true -> _exists s t2 = true ->
     recipientAddress (certificates_at s t1) = P ->
     recipientAddress (certificates_at s t2) = P ->
     t1 = t2) /\
  (forall env msg course name cid X route l,
     userCertificates_at s (sender msg) <> 0 ->
     (exists e, _mintFirstCertificate env msg course name cid X route s l = inl e) /\
     (1 <= Z.of_nat (String.length name) <= 100 ->
      _mintFirstCertificate env msg course name cid X route s l
      = inl CertificateAlreadyExists)) /\
  (forall env msg course name cid X route s' log,
     userCertificates_at s (sender msg) <> 0 ->
     run env msg (MintOrUpdateCertificate course name cid X route) s = inr (s', log) ->
     _nextTokenId s' = _nextTokenId s /\
     (forall t, _exists s' t = _exists s t) /\
     getUserCertificate s' (sender msg) = getUserCertificate s (sender msg)) /\
  (forall env msg course name cid X route,
     run env msg (MintOrUpdateCertificate course name cid X route) s
     <> inl CertificateAlreadyExists).
Proof.
  intros Hr. pose proof (reachable_Inv s Hr) as [I1 I2 I3 I4 I5].
  split; [| split; [| split; [| intros; apply mintOrUpdateCertificate_not_AlreadyExists]]].
  - intros P t1 t2 H1 H2 Ho1 Ho2.
    pose proof (I4 t1 H1) as E1. pose proof (I4 t2 H2) as E2.
    unfold owner_of in E1, E2. rewrite Ho1 in E1. rewrite Ho2 in E2. congruence.
  - intros. apply _mintFirstCertificate_owner. assumption.
  - intros env msg course name cid X route s' log Hu H.
    unfold run in H. cbn [dispatch] in H.
    destruct (mintOrUpdateCertificate env msg course name cid X route s [])
      as [e | [[u s1] l1]] eqn:E; [discriminate |].
    injection H as -> ->.
    apply mintOrUpdateCertificate_inr in E.
    destruct E as (_ & _ & _ & _ & _ & _ & _ & _ &
                   [(H0 & _) | (_ & (_ & _ & E1 & E2 & _) & _)]); [contradiction |].
    split; [exact E1 |]. split; [| apply E2].
    intros t. unfold _exists. rewrite E1. reflexivity.
Qed.

(** After scenarios A and B only certificate 1 exists, and a mint entered
    for the student is rejected. *)
Lemma one_certificate_per_user_witness :
  (forall t, _exists s2 t = true ->
             recipientAddress (certificates_at s2 t) = student -> t = 1) /\
  _mintFirstCertificate env0 msgC 9 "Ann" "cidG" 82 EmptyString s2 []
  = inl CertificateAlreadyExists.
Proof.
  pose proof (one_certificate_per_user s2 reachable_s2) as (H1 & H2 & _).
  split.
  - intros t Ht Ho. apply (H1 student t 1 Ht eq_refl Ho eq_refl).
  - apply (H2 env0 msgC 9 "Ann" "cidG" 82 EmptyString []).
    + vm_compute. discriminate.
    + cbn. lia.
Defined.

(** ** Content refresh *)

(** What [updateCertificate] does in general: a successful call is sent by
    the recipient of an existing, valid certificate with at least
    [defaultCourseAdditionFee] attached; it leaves [completedCourses] and
    [totalCoursesCompleted] of every certificate as they are; and it settles
    [defaultCourseAdditionFee] through [_processCertificatePayment], at a
    10% split in which the platform wallet receives both the fee and the
    rest, the excess of [msg.value] going back to the sender. *)
Lemma updateCertificate_settles env msg t cid X s s' log :
  run env msg (UpdateCertificate t cid X) s = inr (s', log) ->
  recipientAddress (certificates_at s t) = sender msg /\
  _exists s t = true /\
  isValid (certificates_at s t) = true /\
  defaultCourseAdditionFee s <= value msg /\
  (forall t',
     completedCourses (certificates_at s' t') = completedCourses (certificates_at s t') /\
     totalCoursesCompleted (certificates_at s' t')
     = totalCoursesCompleted (certificates_at s t')) /\
  transfers_of log =
    platform_split (platformWallet s) (sender msg) (value msg)
      (defaultCourseAdditionFee s) 10.
Proof.
  intros H. unfold run in H. cbn [dispatch] in H.
  destruct (updateCertificate env msg t cid X s []) as [e | [[u s1] l1]] eqn:E;
    [discriminate |].
  injection H as -> ->.
  apply updateCertificate_inr in E.
  destruct E as (_ & _ & _ & _ & _ & Hex & Hv & Hvalid & Ho &
                 (_ & _ & _ & _ & _ & _ & _ & E6) & Htot & ev2 & ev3 & ->).
  split; [exact Ho |]. split; [exact Hex |]. split; [exact Hvalid |].
  split; [exact Hv |]. split.
  - intros t'. split; [| apply Htot].
    fold (courses_of s' t') (courses_of s t'). rewrite E6.
    destruct (decide _) as [-> |]; [apply app_nil_r | reflexivity].
  - cbn [app]. rewrite !transfers_of_app, transfers_of_settlement_legs.
    cbn [transfers_of omap]. rewrite fee_10_percent, app_nil_r.
    reflexivity.
Qed.

(** C8. The code breaks the claim: [updateCertificate] settles through
    [_processCertificatePayment], whose split is 10%, and not through
    [_processPayment], the 2% settlement that the claim, the documentation
    of the service and the documentation of [_processPayment] (recipient
    creator or platform) describe. The owner of certificate 1 refreshes its
    content after scenario A with [defaultCourseAdditionFee] (0.0001 ether)
    attached: the call succeeds, the caller is the recipient of the
    certificate, the courses [5] and the counter 1 are unchanged, and both
    legs go to the platform wallet; but the legs are 0.00001 ether and
    0.00009 ether, where the 2% split of the claim pays 0.000002 ether and
    0.000098 ether. *)
Theorem refresh_settles_at_ten_percent :
  reachable s1 /\
  recipientAddress (certificates_at s1 1) = sender msgD /\
  defaultCourseAdditionFee s1 = 10 ^ 14 /\
  value msgD = 10 ^ 14 /\
  run env0 msgD (UpdateCertificate 1 "cidD" 80) s1
  = inr (apply_tx env0 msgD callD s1, log_of (run env0 msgD callD s1)) /\
  completedCourses (certificates_at (apply_tx env0 msgD callD s1) 1)
  = completedCourses (certificates_at s1 1) /\
  totalCoursesCompleted (certificates_at (apply_tx env0 msgD callD s1) 1)
  = totalCoursesCompleted (certificates_at s1 1) /\
  platformWallet s1 = 99 /\
  transfers_of (log_of (run env0 msgD callD s1)) = [(99, 10 ^ 13); (99, 9 * 10 ^ 13)] /\
  platform_split (platformWallet s1) (sender msgD) (value msgD)
    (defaultCourseAdditionFee s1) 2
  = [(99, 2 * 10 ^ 12); (99, 98 * 10 ^ 12)] /\
  transfers_of (log_of (run env0 msgD callD s1))
  <> platform_split (platformWallet s1) (sender msgD) (value msgD)
       (defaultCourseAdditionFee s1) 2.
Proof.
  split; [exact reachable_s1 |].
  repeat (split; [vm_compute; reflexivity |]).
  vm_compute. discriminate.
Qed.

(** ** Course lists *)

(** What does hold: a transaction that appends courses without naming one
    twice keeps the course lists free of duplicates. *)
Lemma courses_NoDup_step env msg c s s' log :
  reachable s ->
  run env msg c s = inr (s', log) ->
  NoDup (appended_courses c) ->
  (forall t, NoDup (courses_of s t)) ->
  forall t, NoDup (courses_of s' t).
Proof.
  intros Hr H Hnd Hs t. pose proof (reachable_Inv s Hr) as [_ _ I3 _ I5].
  apply run_ledger_step in H. destruct H as (Hstep & _ & _).
  destruct Hstep as [_ (_ & _ & _ & _ & _ & E6)
                    | course X _ _ (_ & _ & _ & _ & _ & _ & _ & E6)
                    | t0 X _ _ Ht0 (_ & HF & _ & _ & _ & _ & _ & E6)]; rewrite E6.
  - apply Hs.
  - destruct (decide _); [apply NoDup_singleton | apply Hs].
  - destruct (decide _) as [-> |]; [| apply Hs].
    apply NoDup_app. split; [apply Hs |]. split; [| exact Hnd].
    intros x Hx Hx'. rewrite Forall_forall in HF. specialize (HF x Hx').
    assert (Hex : _exists s t0 = true).
    { destruct Ht0 as [[-> Hne] | Hex]; [apply I3; exact Hne | exact Hex]. }
    assert (certificateCourseExists_at s t0 x = true) by (apply I5; auto).
    congruence.
Qed.

(** C3. The code breaks the claim: the validation loop of
    [addMultipleCoursesToCertificate] checks every course against the
    storage before any course is pushed, so a batch that names course 9
    twice passes it, and course 9 is pushed twice: the certificate of the
    student, [5] after scenario A, lists [5; 9; 9] in a reachable state. *)
Theorem batch_duplicate_courses :
  reachable s1 /\
  completedCourses (certificates_at s1 1) = [5] /\
  run env0 msgC (AddMultipleCoursesToCertificate [9; 9] "cidC" 79) s1
  = inr (s3, log_of (run env0 msgC callC s1)) /\
  reachable s3 /\
  completedCourses (certificates_at s3 1) = [5; 9; 9] /\
  totalCoursesCompleted (certificates_at s3 1) = 3 /\
  ~ NoDup (completedCourses (certificates_at s3 1)).
Proof.
  split; [exact reachable_s1 |]. split; [reflexivity |].
  split; [exact run_callC |]. split; [exact reachable_s3 |].
  split; [reflexivity |]. split; [reflexivity |].
  assert (E : completedCourses (certificates_at s3 1) = [5; 9; 9]) by reflexivity.
  rewrite E. intros Hnd. apply NoDup_cons in Hnd. destruct Hnd as [_ Hnd].
  apply NoDup_cons in Hnd. destruct Hnd as [Hnd _].
  apply Hnd. apply list_elem_of_singleton. reflexivity.
Qed.

(** ** Price of an append *)

Lemma _getCertificatePrice_default s courseId :
  courseCertificatePrices_at s courseId = 0 ->
  _getCertificatePrice s courseId = defaultCertificateFee s.
Proof. unfold _getCertificatePrice. intros ->. reflexivity. Qed.

(** C6. The code breaks the claim: [_addCourseToExistingCertificate] prices
    the append with [_getCertificatePrice], whose default is
    [defaultCertificateFee] (0.001 ether), not [defaultCourseAdditionFee]
    (0.0001 ether). The append of course 7, which has no price override, to
    the certificate of scenario A reverts with [InsufficientPayment] when
    0.0001 ether is attached; it succeeds with 0.001 ether attached, and
    then settles 2% (0.00002 ether) to the platform and 98% (0.00098 ether)
    to the creator of course 7. *)
Theorem append_priced_at_certificate_fee :
  courseCertificatePrices_at s1 7 = 0 /\
  defaultCourseAdditionFee s1 = 10 ^ 14 /\
  _getCertificatePrice s1 7 = 10 ^ 15 /\
  value msgB' = 10 ^ 14 /\
  run env0 msgB' (MintOrUpdateCertificate 7 "Ann" "cidB" 78 EmptyString) s1
  = inl InsufficientPayment /\
  run env0 msgB (MintOrUpdateCertificate 7 "Ann" "cidB" 78 EmptyString) s1
  = inr (s2, log_of (run env0 msgB callB s1)) /\
  completedCourses (certificates_at s2 1) = [5; 7] /\
  transfers_of (log_of (run env0 msgB callB s1)) = [(99, 2 * 10 ^ 13); (1007, 98 * 10 ^ 13)].
Proof.
  split; [reflexivity |]. split; [reflexivity |]. split; [reflexivity |].
  split; [reflexivity |]. split; [vm_compute; reflexivity |].
  split; [exact run_callB |]. split; [reflexivity |]. vm_compute. reflexivity.
Qed.

(** * Further properties of the contract and of its service *)

Import Administration.

(** ** Exact inversion of every transaction *)

Lemma _mint_inr_exact env msg to id v s l u s' l' :
  _mint env msg to id v s l = inr (u, s', l') ->
  to <> 0 /\ acceptsERC1155 env to = true /\
  s' = set_balances (<[(id, to) := balanceOf s to id + v]> (_balances s)) s /\
  l' = l ++ [Emit (TransferSingle (sender msg) 0 to id v)].
Proof.
  unfold _mint, _updateWithAcceptanceCheck, _update, ERC1155_update. intros H.
  cbn [forEach zip zip_with ERC1155_update_one length] in H.
  inv_m; rewrite ?negb_false_iff, ?negb_true_iff, ?Z.eqb_eq, ?Z.eqb_neq in *;
    try lia; (split; [assumption |]); (split; [assumption |]); split; reflexivity.
Qed.

Lemma _processCertificatePayment_accepted env msg recipient R s l u s' l' :
  _processCertificatePayment env msg recipient R s l = inr (u, s', l') ->
  accepted env (settlement_legs (platformWallet s) recipient (sender msg) (value msg) R
                  (R * 1000 / 10000) s) /\
  (R < value msg -> value msg - R <= MAX_UINT256).
Proof.
  unfold _processCertificatePayment, accepted, settlement_legs, leg. intros H.
  inv_m; rewrite ?Z.ltb_lt, ?Z.ltb_ge in *; (split; [| lia]);
    cbn [transfers_of omap app]; repeat constructor; cbn [fst snd]; congruence.
Qed.

Lemma _processPayment_accepted env msg recipient R s l u s' l' :
  _processPayment env msg recipient R s l = inr (u, s', l') ->
  accepted env (settlement_legs (platformWallet s) recipient (sender msg) (value msg) R
                  (R * 200 / 10000) s) /\
  (R < value msg -> value msg - R <= MAX_UINT256).
Proof.
  unfold _processPayment, accepted, settlement_legs, leg. intros H.
  inv_m; rewrite ?Z.ltb_lt, ?Z.ltb_ge in *; (split; [| lia]);
    cbn [transfers_of omap app]; repeat constructor; cbn [fst snd]; congruence.
Qed.

Lemma _processCertificatePayment_settled env msg recipient R s l u s' l' :
  _processCertificatePayment env msg recipient R s l = inr (u, s', l') ->
  s' = s /\ 0 <= R /\
  exists observed,
    l' = l ++ settlement_legs (platformWallet s) recipient (sender msg) (value msg) R
                (R * 1000 / 10000) observed /\
    accepted env (settlement_legs (platformWallet s) recipient (sender msg) (value msg) R
                    (R * 1000 / 10000) observed).
Proof.
  intros H. pose proof (_processCertificatePayment_accepted _ _ _ _ _ _ _ _ _ H) as [Ha _].
  apply _processCertificatePayment_inr in H. destruct H as (-> & HR & _ & ->).
  split; [reflexivity |]. split; [exact HR |]. exists s. split; [reflexivity | exact Ha].
Qed.

Lemma _processPayment_settled env msg recipient R s l u s' l' :
  _processPayment env msg recipient R s l = inr (u, s', l') ->
  s' = s /\ 0 <= R /\
  exists observed,
    l' = l ++ settlement_legs (platformWallet s) recipient (sender msg) (value msg) R
                (R * 200 / 10000) observed /\
    accepted env (settlement_legs (platformWallet s) recipient (sender msg) (value msg) R
                    (R * 200 / 10000) observed).
Proof.
  intros H. pose proof (_processPayment_accepted _ _ _ _ _ _ _ _ _ H) as [Ha _].
  apply _processPayment_inr in H. destruct H as (-> & HR & _ & ->).
  split; [reflexivity |]. split; [exact HR |]. exists s. split; [reflexivity | exact Ha].
Qed.

Lemma forEach_updateBaseRouteIfExists_exact msg route ts s l u s' l' :
  forEach (updateBaseRouteIfExists msg route) ts s l = inr (u, s', l') ->
  exists m1 evs,
    s' = set_certificates m1 s /\ l' = l ++ map Emit evs /\
    forall t, default zeroCertificate (m1 !! t) =
      if decide (t ∈ ts /\ _exists s t = true)
      then set_lastUpdated (timestamp msg) (set_baseRoute route (certificates_at s t))
      else certificates_at s t.
Proof.
  revert s l u s' l'. induction ts as [| t0 ts IH]; intros s l u s' l' H.
  - cbn [forEach] in H. inv_m. exists (certificates s), [].
    split; [destruct s; reflexivity |]. split; [cbn; rewrite app_nil_r; reflexivity |].
    intros t. destruct (decide _) as [[Hin _] |]; [| reflexivity].
    apply elem_of_nil in Hin. contradiction.
  - cbn [forEach] in H. unfold updateBaseRouteIfExists in H. inv_m.
    + apply IH in H. destruct H as (m1 & evs & -> & -> & Hm1).
      exists m1, (BaseRouteUpdated t0 route :: evs).
      split; [reflexivity |]. split; [rewrite <- app_assoc; reflexivity |].
      intros t. rewrite Hm1. map_simpl.
    + apply IH in H. destruct H as (m1 & evs & -> & -> & Hm1).
      exists m1, evs. split; [reflexivity |]. split; [reflexivity |].
      intros t. rewrite Hm1. map_simpl.
Qed.

Ltac resolve_calls :=
  repeat match goal with
  | H : _mint _ _ _ _ _ _ _ = inr _ |- _ =>
      apply _mint_inr_exact in H; destruct H as (? & ? & ? & ?); subst
  | H : _processCertificatePayment _ _ _ _ _ _ = inr _ |- _ =>
      apply _processCertificatePayment_inr in H; destruct H as (? & ? & ? & ?); subst
  | H : _processPayment _ _ _ _ _ _ = inr _ |- _ =>
      apply _processPayment_inr in H; destruct H as (? & ? & ? & ?); subst
  | H : forEach (validateCourse _ _ _) _ _ _ = inr _ |- _ =>
      apply forEach_validateCourse_inr in H; destruct H as (? & ? & ?); subst
  | H : forEach (addCourse _ _ _ _ _) _ _ _ = inr _ |- _ =>
      let m1 := fresh "m1" in let m2 := fresh "m2" in
      let Hm1 := fresh "Hm1" in let Hm2 := fresh "Hm2" in
      apply forEach_addCourse_inr in H;
      destruct H as ((m1 & m2 & ? & Hm1 & Hm2) & ?); subst
  | H : forEach (updateBaseRouteIfExists _ _) _ _ _ = inr _ |- _ =>
      let m1 := fresh "m1" in let Hm1 := fresh "Hm1" in
      apply forEach_updateBaseRouteIfExists_exact in H;
      destruct H as (m1 & ? & ? & ? & Hm1); subst
  end.

(** From [E : run env msg c s = inr (s', log)] to one goal per function,
    with [s'] and [log] written out. *)
Ltac run_inv_with resolve E :=
  unfold run in E;
  match type of E with
  | context [dispatch ?env ?msg ?c ?s []] =>
      let D := fresh "D" in
      destruct (dispatch env msg c s []) as [? | [[[] ?] ?]] eqn:D;
      [discriminate E |]; injection E as <- <-;
      destruct c; cbn [dispatch] in D;
      unfold mintOrUpdateCertificate, updateCertificate, addMultipleCoursesToCertificate,
        nonReentrant, _mintFirstCertificate, _addCourseToExistingCertificate,
        setDefaultCertificateFee, setDefaultCourseAdditionFee, setPlatformWallet,
        setDefaultPlatformName, setCourseCertificatePrice, setTokenURI, updateBaseRoute,
        updateDefaultBaseRoute, updateDefaultMetadataBaseURI, batchUpdateBaseRoute,
        revokeCertificate, pause, unpause, transferOwnership, renounceOwnership,
        setApprovalForAll in D;
      [ .. |
        exfalso; match type of D with
        | safeTransferFrom ?e ?m ?f ?t ?i ?v ?s ?l = _ =>
            let Hx := fresh in
            destruct (safeTransferFrom_reverts e m f t i v s l) as [? Hx];
            rewrite Hx in D; discriminate D
        end |
        exfalso; match type of D with
        | safeBatchTransferFrom ?e ?m ?f ?t ?i ?v ?s ?l = _ =>
            let Hx := fresh in
            destruct (safeBatchTransferFrom_reverts e m f t i v s l) as [? Hx];
            rewrite Hx in D; discriminate D
        end ];
      inv_m; resolve;
      rewrite ?negb_false_iff, ?negb_true_iff, ?Z.eqb_eq, ?Z.eqb_neq, ?Z.ltb_ge,
        ?Z.ltb_lt in *
  end.

Ltac run_inv E := run_inv_with ltac:(resolve_calls) E.

(** The same, keeping that the recipients accepted the transfers and
    leaving the storage they observed abstract. *)
Ltac resolve_payments :=
  repeat match goal with
  | H : _processCertificatePayment _ _ _ _ _ _ = inr _ |- _ =>
      apply _processCertificatePayment_settled in H;
      destruct H as (? & ? & ? & ? & ?); subst
  | H : _processPayment _ _ _ _ _ _ = inr _ |- _ =>
      apply _processPayment_settled in H;
      destruct H as (? & ? & ? & ? & ?); subst
  end;
  resolve_calls.

Ltac use_loops :=
  repeat match goal with
         | H : forall _, default _ (_ !! _) = _ |- _ => rewrite !H
         | H : forall _ _, default _ (_ !! _) = _ |- _ => rewrite !H
         end.

Ltac exists_lia :=
  repeat match goal with
         | H : _exists _ _ = true |- _ => apply _exists_iff in H
         | H : _exists _ _ = false |- _ =>
             apply not_true_iff_false in H; rewrite _exists_iff in H
         end.

Ltac fin_with tac :=
  map_pre; use_loops;
  repeat match goal with
         | |- context [decide ?P] => destruct (decide P)
         end;
  rewrite ?list_elem_of_singleton, ?elem_of_cons, ?elem_of_nil, ?andb_true_iff,
    ?Z.ltb_lt in *;
  tac;
  cbn [tokenId platformName recipientName recipientAddress lifetimeFlag isValid
       ipfsCID baseRoute issuedAt lastUpdated totalCoursesCompleted
       paymentReceiptHash completedCourses
       set_isValid set_ipfsCID set_baseRoute set_lastUpdated
       set_totalCoursesCompleted set_paymentReceiptHash set_completedCourses];
  rewrite ?app_nil_r;
  solve [intuition (auto; try congruence; try lia)].

Ltac fin2 := first [ fin_with ltac:(try subst) | fin_with ltac:(simplify_eq) ].

(** What a successful transaction leaves of the configuration. *)
Lemma run_config env msg c s s' log :
  run env msg c s = inr (s', log) ->
  (sender msg <> _owner s ->
     defaultCertificateFee s' = defaultCertificateFee s /\
     defaultCourseAdditionFee s' = defaultCourseAdditionFee s /\
     platformWallet s' = platformWallet s /\
     defaultPlatformName s' = defaultPlatformName s /\
     defaultBaseRoute s' = defaultBaseRoute s /\
     defaultMetadataBaseURI s' = defaultMetadataBaseURI s /\
     _tokenURIs s' = _tokenURIs s /\
     _paused s' = _paused s /\
     _owner s' = _owner s) /\
  (defaultCertificateFee s' = defaultCertificateFee s \/
   (defaultCertificateFee s' <> 0 /\ defaultCertificateFee s' <= MAX_CERTIFICATE_PRICE)) /\
  (defaultCourseAdditionFee s' = defaultCourseAdditionFee s \/
   (defaultCourseAdditionFee s' <> 0 /\
    defaultCourseAdditionFee s' <= MAX_CERTIFICATE_PRICE)) /\
  (platformWallet s' = platformWallet s \/ platformWallet s' <> 0) /\
  (forall course,
     courseCertificatePrices_at s' course = courseCertificatePrices_at s course \/
     (courseCertificatePrices_at s' course <> 0 /\
      courseCertificatePrices_at s' course <= MAX_CERTIFICATE_PRICE /\
      getCourse_creator env course = sender msg)) /\
  courseFactory s' = courseFactory s /\
  progressTracker s' = progressTracker s /\
  courseLicense s' = courseLicense s.
Proof.
  intros E. run_inv E.
  all: repeat match goal with |- _ /\ _ => split end; intros;
    try reflexivity; try congruence; try fin2.
Qed.

(** What a successful transaction leaves of an existing record. *)
Lemma run_record env msg c s s' log t :
  run env msg c s = inr (s', log) ->
  _exists s t = true ->
  tokenId (certificates_at s' t) = tokenId (certificates_at s t) /\
  platformName (certificates_at s' t) = platformName (certificates_at s t) /\
  recipientName (certificates_at s' t) = recipientName (certificates_at s t) /\
  lifetimeFlag (certificates_at s' t) = lifetimeFlag (certificates_at s t) /\
  issuedAt (certificates_at s' t) = issuedAt (certificates_at s t) /\
  (isValid (certificates_at s' t) = isValid (certificates_at s t) \/
   (isValid (certificates_at s' t) = false /\ sender msg = _owner s)) /\
  (baseRoute (certificates_at s' t) = baseRoute (certificates_at s t) \/
   sender msg = _owner s) /\
  (lastUpdated (certificates_at s' t) = lastUpdated (certificates_at s t) \/
   lastUpdated (certificates_at s' t) = timestamp msg) /\
  ((ipfsCID (certificates_at s' t) = ipfsCID (certificates_at s t) /\
    paymentReceiptHash (certificates_at s' t) = paymentReceiptHash (certificates_at s t) /\
    completedCourses (certificates_at s' t) = completedCourses (certificates_at s t) /\
    totalCoursesCompleted (certificates_at s' t)
    = totalCoursesCompleted (certificates_at s t)) \/
   (isValid (certificates_at s t) = true /\
    (recipientAddress (certificates_at s t) = sender msg \/
     userCertificates_at s (sender msg) = t) /\
    paymentHash_of c = Some (paymentReceiptHash (certificates_at s' t)) /\
    completedCourses (certificates_at s' t)
    = completedCourses (certificates_at s t) ++ appended_courses c /\
    ((appended_courses c = [] /\
      totalCoursesCompleted (certificates_at s' t)
      = totalCoursesCompleted (certificates_at s t)) \/
     totalCoursesCompleted (certificates_at s' t)
     = wrap (totalCoursesCompleted (certificates_at s t)
             + Z.of_nat (length (appended_courses c)))))).
Proof.
  intros E Ht. run_inv E; exists_lia.
  all: cbn [appended_courses paymentHash_of length].
  all: repeat match goal with |- _ /\ _ => split end; try fin2.
Qed.

(** The record a mint creates, and the token it credits. *)
Lemma run_mint env msg c s s' log :
  run env msg c s = inr (s', log) ->
  _nextTokenId s' <> _nextTokenId s ->
  match c with
  | MintOrUpdateCertificate courseId recipientName ipfsCID paymentReceiptHash baseRoute =>
      certificates_at s' (_nextTokenId s)
      = mkCertificate (_nextTokenId s) (defaultPlatformName s) recipientName
          (sender msg) true true ipfsCID baseRoute (timestamp msg) (timestamp msg) 1
          paymentReceiptHash [courseId] /\
      sender msg <> 0 /\ acceptsERC1155 env (sender msg) = true /\
      1 <= Z.of_nat (String.length recipientName) <= 100
  | _ => False
  end.
Proof.
  intros E Hn. run_inv E; try (exfalso; apply Hn; reflexivity).
  split; [fin2 |]. split; [assumption |]. split; [assumption |].
  match goal with
  | H : (_ =? 0) || (100 <? _) = false |- _ =>
      apply orb_false_iff in H; rewrite Z.eqb_neq, Z.ltb_ge in H; lia
  end.
Qed.

(** What a successful transaction does to the token balances. *)
Lemma run_balance env msg c s s' log u id :
  run env msg c s = inr (s', log) ->
  balanceOf s' u id =
  if decide (_nextTokenId s' <> _nextTokenId s /\ id = _nextTokenId s /\ u = sender msg)
  then balanceOf s u id + 1 else balanceOf s u id.
Proof.
  intros E. run_inv E; unfold balanceOf; fin2.
Qed.

(** Slots of unallocated identifiers stay untouched. *)
Lemma run_unallocated env msg c s s' log t :
  run env msg c s = inr (s', log) ->
  Inv s ->
  _exists s' t = false ->
  certificates_at s' t = certificates_at s t.
Proof.
  intros E HI Ht.
  pose proof (inv_user s HI (sender msg)) as Hu.
  pose proof (inv_next s HI) as Hn.
  run_inv E; exists_lia;
    try (match type of Hu with ?P -> _ => assert (Hp : P) by assumption end;
         specialize (Hu Hp); destruct Hu as [Hu _]; apply _exists_iff in Hu);
    fin2.
Qed.

(** ** Further invariants *)

Lemma ledger_step_next msg c s s' :
  ledger_step msg c s s' ->
  _nextTokenId s' = _nextTokenId s \/ _nextTokenId s' = _nextTokenId s + 1.
Proof.
  intros [_ (E1 & _) | course X _ _ (_ & _ & E1 & _) | t X _ _ _ (_ & _ & E1 & _)]; auto.
Qed.

Lemma ledger_step_used_inv msg c s s' h :
  ledger_step msg c s s' ->
  usedPaymentHashes_at s' h = true ->
  usedPaymentHashes_at s h = true \/ (paymentHash_of c = Some h /\ h <> 0).
Proof.
  intros [_ (_ & _ & E & _) | course X HX Hne (_ & _ & _ & _ & E & _)
         | t X HX Hne _ (_ & _ & _ & _ & E & _)]; rewrite E; auto;
    destruct (decide _) as [-> |]; auto.
Qed.

Lemma ConfigInv_constructor deployer cf pt cl pw route name s :
  constructor deployer cf pt cl pw route name = inr s -> ConfigInv s.
Proof.
  unfold constructor. intros H.
  repeat match type of H with
         | (if ?b then _ else _) = _ => destruct b eqn:?; [discriminate H |]
         end.
  injection H as <-. split; cbn.
  - split; [discriminate | unfold MAX_CERTIFICATE_PRICE; lia].
  - split; [discriminate | unfold MAX_CERTIFICATE_PRICE; lia].
  - apply Z.eqb_neq. assumption.
  - intros course. unfold courseCertificatePrices_at. cbn.
    rewrite lookup_empty. cbn. unfold MAX_CERTIFICATE_PRICE. lia.
Qed.

Lemma ConfigInv_run env msg c s s' log :
  run env msg c s = inr (s', log) -> ConfigInv s -> ConfigInv s'.
Proof.
  intros E [[A1 A2] [B1 B2] W P]. apply run_config in E.
  destruct E as (_ & HA & HB & HW & HP & _).
  split.
  - destruct HA as [-> | HA]; auto.
  - destruct HB as [-> | HB]; auto.
  - destruct HW as [-> | HW]; auto.
  - intros course. destruct (HP course) as [-> | (_ & H & _)]; auto.
Qed.

Lemma reachable_ConfigInv s : reachable s -> ConfigInv s.
Proof.
  induction 1 as [? ? ? ? ? ? ? ? Hc | ? ? ? ? ? ? _ IH Hr].
  - eapply ConfigInv_constructor. exact Hc.
  - eapply ConfigInv_run; eassumption.
Qed.

Lemma wrap_add_l a b : wrap (wrap a + b) = wrap (a + b).
Proof. unfold wrap. apply Zplus_mod_idemp_l. Qed.

Lemma RecordInv_constructor deployer cf pt cl pw route name s :
  constructor deployer cf pt cl pw route name = inr s -> RecordInv s.
Proof.
  unfold constructor. intros H.
  repeat match type of H with
         | (if ?b then _ else _) = _ => destruct b eqn:?; [discriminate H |]
         end.
  injection H as <-.
  assert (Hex : forall t, _exists
    (mkState cf pt cl 1 (10 ^ 15) (10 ^ 14) pw name route EmptyString
       ∅ ∅ ∅ ∅ ∅ ∅ ∅ deployer false false ∅ ∅) t = true -> False).
  { intros t Ht. apply _exists_iff in Ht. cbn in Ht. lia. }
  split; try (intros t Ht; exfalso; exact (Hex t Ht)).
  - reflexivity.
  - intros t _. reflexivity.
  - intros u id. unfold balanceOf. cbn. rewrite lookup_empty. cbn.
    destruct (decide _) as [[Ht _] |]; [| reflexivity].
    exfalso. exact (Hex id Ht).
Qed.

Lemma RecordInv_run env msg c s s' log :
  run env msg c s = inr (s', log) -> Inv s -> RecordInv s -> RecordInv s'.
Proof.
  intros E HI [R1 R2 R3 R4 R5 R6 R7 R8 R9].
  pose proof (run_ledger_step _ _ _ _ _ _ E) as (Hstep & _ & _).
  pose proof (ledger_step_next _ _ _ _ Hstep) as Hnext.
  pose proof (inv_next s HI) as Hn1.
  (* an identifier that exists afterwards existed before, or was just minted *)
  assert (Hcases : forall t, _exists s' t = true ->
            _exists s t = true \/
            (_exists s t = false /\ t = _nextTokenId s /\
             _nextTokenId s' <> _nextTokenId s)).
  { intros t Ht. apply _exists_iff in Ht.
    destruct (_exists s t) eqn:Hs; [auto |].
    right. split; [reflexivity |].
    apply not_true_iff_false in Hs. rewrite _exists_iff in Hs. lia. }
  assert (Hold : forall t, _exists s t = true ->
            recipientAddress (certificates_at s' t) = recipientAddress (certificates_at s t)).
  { intros t Ht. exact (proj2 (ledger_step_owner _ _ _ _ _ Hstep Ht)). }
  assert (Hnew : _nextTokenId s' <> _nextTokenId s ->
            exists course name cid X route,
              c = MintOrUpdateCertificate course name cid X route /\
              certificates_at s' (_nextTokenId s)
              = mkCertificate (_nextTokenId s) (defaultPlatformName s) name
                  (sender msg) true true cid route (timestamp msg) (timestamp msg) 1
                  X [course] /\
              sender msg <> 0).
  { intros Hne. pose proof (run_mint _ _ _ _ _ _ E Hne) as Hm.
    destruct c; try contradiction.
    destruct Hm as (Hm & Hs & _). eauto 10. }
  split.
  - intros t Ht. destruct (Hcases t Ht) as [Hs | (_ & -> & Hne)].
    + rewrite (proj1 (run_record _ _ _ _ _ _ t E Hs)). auto.
    + destruct (Hnew Hne) as (? & ? & ? & ? & ? & _ & -> & _). reflexivity.
  - intros t Ht. destruct (Hcases t Ht) as [Hs | (_ & -> & Hne)].
    + pose proof (run_record _ _ _ _ _ _ t E Hs) as (_ & _ & _ & -> & _). auto.
    + destruct (Hnew Hne) as (? & ? & ? & ? & ? & _ & -> & _). reflexivity.
  - intros t Ht. destruct (Hcases t Ht) as [Hs | (_ & -> & Hne)].
    + rewrite (Hold t Hs). auto.
    + destruct (Hnew Hne) as (? & ? & ? & ? & ? & _ & -> & Hs). exact Hs.
  - intros t Ht. destruct (Hcases t Ht) as [Hs | (_ & -> & Hne)].
    + pose proof (run_record _ _ _ _ _ _ t E Hs) as
        (_ & _ & _ & _ & _ & _ & _ & _ & [(_ & _ & -> & _) | (_ & _ & _ & -> & _)]).
      * auto.
      * intros Happ. apply app_eq_nil in Happ. destruct Happ as [Happ _].
        exact (R4 t Hs Happ).
    + destruct (Hnew Hne) as (? & ? & ? & ? & ? & _ & -> & _). discriminate.
  - intros t Ht. destruct (Hcases t Ht) as [Hs | (_ & -> & Hne)].
    + pose proof (run_record _ _ _ _ _ _ t E Hs) as
        (_ & _ & _ & _ & _ & _ & _ & _ &
         [(_ & _ & -> & ->) | (_ & _ & _ & -> & [[Hnil ->] | ->])]).
      * auto.
      * rewrite Hnil, app_nil_r. auto.
      * rewrite (R5 t Hs), wrap_add_l, length_app, Nat2Z.inj_add. reflexivity.
    + destruct (Hnew Hne) as (? & ? & ? & ? & ? & _ & -> & _). reflexivity.
  - intros t Ht. destruct (Hcases t Ht) as [Hs | (_ & -> & Hne)].
    + destruct (R6 t Hs) as [Hz Hu].
      pose proof (run_record _ _ _ _ _ _ t E Hs) as
        (_ & _ & _ & _ & _ & _ & _ & _ & [(_ & -> & _) | (_ & _ & HX & _)]).
      * split; [exact Hz |]. eapply ledger_step_used; eassumption.
      * destruct (ledger_step_consumes _ _ _ _ _ Hstep HX) as (? & _ & ?). auto.
    + destruct (Hnew Hne) as (? & ? & ? & X & ? & -> & -> & _).
      cbn [paymentReceiptHash].
      destruct (ledger_step_consumes _ _ _ _ X Hstep eq_refl) as (? & _ & ?). auto.
  - destruct (usedPaymentHashes_at s' 0) eqn:H0; [| reflexivity].
    destruct (ledger_step_used_inv _ _ _ _ _ Hstep H0) as [H | [_ H]]; congruence.
  - intros t Ht. rewrite (run_unallocated _ _ _ _ _ _ t E HI Ht).
    apply R8. destruct (_exists s t) eqn:Hs; [| reflexivity].
    apply _exists_iff in Hs. apply not_true_iff_false in Ht.
    rewrite _exists_iff in Ht. lia.
  - intros u id. rewrite (run_balance _ _ _ _ _ _ u id E), R9.
    destruct (decide (_nextTokenId s' <> _nextTokenId s /\ id = _nextTokenId s /\
                      u = sender msg)) as [(Hne & -> & ->) | Hnot].
    + destruct (Hnew Hne) as (? & ? & ? & ? & ? & _ & Hc & _).
      rewrite decide_False.
      * rewrite decide_True; [reflexivity |].
        split; [apply _exists_iff; lia | rewrite Hc; reflexivity].
      * intros [Hs _]. apply _exists_iff in Hs. lia.
    + destruct (decide (_exists s id = true /\
                        recipientAddress (certificates_at s id) = u)) as [[Hs Ho] | Hno].
      * rewrite decide_True; [reflexivity |].
        split; [exact (proj1 (ledger_step_owner _ _ _ _ _ Hstep Hs)) |].
        rewrite (Hold id Hs). exact Ho.
      * rewrite decide_False; [reflexivity |].
        intros [Hs' Ho']. destruct (Hcases id Hs') as [Hs | (_ & -> & Hne)].
        -- apply Hno. split; [exact Hs |]. rewrite <- (Hold id Hs). exact Ho'.
        -- destruct (Hnew Hne) as (? & ? & ? & ? & ? & _ & Hc & _).
           rewrite Hc in Ho'. cbn [recipientAddress] in Ho'.
           apply Hnot. auto.
Qed.

Lemma reachable_RecordInv s : reachable s -> RecordInv s.
Proof.
  induction 1 as [? ? ? ? ? ? ? ? Hc | ? ? ? ? ? ? Hs IH Hr].
  - eapply RecordInv_constructor. exact Hc.
  - eapply RecordInv_run; [exact Hr | apply reachable_Inv; exact Hs | exact IH].
Qed.

(** ** Configuration *)

(** X1. In every reachable state the two default fees are nonzero and at
    most [MAX_CERTIFICATE_PRICE], the platform wallet is not the zero
    address, every creator-set price is at most [MAX_CERTIFICATE_PRICE],
    and so the price [_getCertificatePrice] resolves for any course, which
    is also what the view [getCourseCertificatePrice] returns, is nonzero
    and at most [MAX_CERTIFICATE_PRICE]. *)
Theorem configuration_within_bounds s :
  reachable s ->
  (defaultCertificateFee s <> 0 /\ defaultCertificateFee s <= MAX_CERTIFICATE_PRICE) /\
  (defaultCourseAdditionFee s <> 0 /\
   defaultCourseAdditionFee s <= MAX_CERTIFICATE_PRICE) /\
  platformWallet s <> 0 /\
  (forall course,
     courseCertificatePrices_at s course <= MAX_CERTIFICATE_PRICE /\
     _getCertificatePrice s course <> 0 /\
     _getCertificatePrice s course <= MAX_CERTIFICATE_PRICE /\
     getCourseCertificatePrice s course = _getCertificatePrice s course).
Proof.
  intros Hr. destruct (reachable_ConfigInv s Hr) as [A B W P].
  split; [exact A |]. split; [exact B |]. split; [exact W |].
  intros course. split; [apply P |].
  unfold getCourseCertificatePrice, _getCertificatePrice.
  destruct (0 <? courseCertificatePrices_at s course) eqn:E.
  - apply Z.ltb_lt in E. specialize (P course). repeat split; [lia | exact P].
  - destruct A. repeat split; assumption.
Qed.

Lemma configuration_within_bounds_witness :
  _getCertificatePrice s2 7 = 10 ^ 15 /\
  _getCertificatePrice s2 7 <= MAX_CERTIFICATE_PRICE.
Proof.
  split; [reflexivity |].
  exact (proj1 (proj2 (proj2 (proj2 (proj2 (proj2
           (configuration_within_bounds s2 reachable_s2))) 7)))).
Defined.

(** ** Records *)

Lemma steps_record s s' t :
  steps s s' -> _exists s t = true ->
  _exists s' t = true /\
  tokenId (certificates_at s' t) = tokenId (certificates_at s t) /\
  platformName (certificates_at s' t) = platformName (certificates_at s t) /\
  recipientName (certificates_at s' t) = recipientName (certificates_at s t) /\
  lifetimeFlag (certificates_at s' t) = lifetimeFlag (certificates_at s t) /\
  issuedAt (certificates_at s' t) = issuedAt (certificates_at s t) /\
  (isValid (certificates_at s t) = false -> isValid (certificates_at s' t) = false) /\
  exists cs,
    completedCourses (certificates_at s' t) = completedCourses (certificates_at s t) ++ cs.
Proof.
  induction 1 as [| ? ? ? ? ? ? ? _ IH Hr].
  - intros Ht. repeat (split; [auto |]). exists []. rewrite app_nil_r. reflexivity.
  - intros Ht. destruct (IH Ht) as (Ht' & I1 & I2 & I3 & I4 & I5 & I6 & cs & I7).
    pose proof (run_ledger_step _ _ _ _ _ _ Hr) as (Hstep & _ & _).
    pose proof (run_record _ _ _ _ _ _ t Hr Ht') as
      (J1 & J2 & J3 & J4 & J5 & J6 & _ & _ & J9).
    split; [exact (proj1 (ledger_step_owner _ _ _ _ _ Hstep Ht')) |].
    split; [congruence |]. split; [congruence |]. split; [congruence |].
    split; [congruence |]. split; [congruence |]. split.
    + intros Hv. specialize (I6 Hv). destruct J6 as [J6 | [J6 _]]; congruence.
    + destruct J9 as [(_ & _ & J9 & _) | (_ & _ & _ & J9 & _)]; rewrite J9, I7.
      * exists cs. reflexivity.
      * eexists. rewrite <- app_assoc. reflexivity.
Qed.

(** X3. Record history: whatever successful transactions follow, an
    existing certificate keeps its [tokenId], [platformName],
    [recipientName], [lifetimeFlag] and [issuedAt], and its
    [completedCourses] only grows at the end: the earlier list is a prefix
    of the later one, so no course is ever removed or reordered. *)
Theorem record_history s s' t :
  steps s s' ->
  _exists s t = true ->
  tokenId (certificates_at s' t) = tokenId (certificates_at s t) /\
  platformName (certificates_at s' t) = platformName (certificates_at s t) /\
  recipientName (certificates_at s' t) = recipientName (certificates_at s t) /\
  lifetimeFlag (certificates_at s' t) = lifetimeFlag (certificates_at s t) /\
  issuedAt (certificates_at s' t) = issuedAt (certificates_at s t) /\
  exists cs,
    completedCourses (certificates_at s' t) = completedCourses (certificates_at s t) ++ cs.
Proof.
  intros Hs Ht.
  destruct (steps_record s s' t Hs Ht) as (_ & I1 & I2 & I3 & I4 & I5 & _ & I7).
  auto 10.
Qed.

Lemma record_history_witness :
  recipientName (certificates_at s2 1) = "Ann" /\
  exists cs, completedCourses (certificates_at s2 1) = [5] ++ cs.
Proof.
  pose proof (record_history s1 s2 1 steps_s1_s2 eq_refl) as (_ & _ & H3 & _ & _ & H6).
  split; [rewrite H3; reflexivity | exact H6].
Defined.

(** X4. Revocation is permanent: once an existing certificate is invalid,
    it is invalid after every sequence of successful transactions, and
    [verifyCertificate] returns false for it. *)
Theorem revocation_is_permanent s s' t :
  steps s s' ->
  _exists s t = true ->
  isValid (certificates_at s t) = false ->
  isValid (certificates_at s' t) = false /\ verifyCertificate s' t = false.
Proof.
  intros Hs Ht Hv.
  destruct (steps_record s s' t Hs Ht) as (_ & _ & _ & _ & _ & _ & I6 & _).
  specialize (I6 Hv). split; [exact I6 |].
  unfold verifyCertificate. rewrite I6. apply andb_false_r.
Qed.

(** X5. Every existing certificate of a reachable state is well formed:
    its [tokenId] field is its identifier, [lifetimeFlag] is set, its
    recipient is not the zero address, it lists at least one course,
    [totalCoursesCompleted] is the length of [completedCourses] (modulo
    [2^256], the counter being incremented unchecked), and its
    [paymentReceiptHash] is a nonzero identifier marked as used. The zero
    identifier is never marked as used, and the slot of an identifier that
    was not allocated holds the zero record. *)
Theorem records_well_formed s :
  reachable s ->
  (forall t, _exists s t = true ->
     tokenId (certificates_at s t) = t /\
     lifetimeFlag (certificates_at s t) = true /\
     recipientAddress (certificates_at s t) <> 0 /\
     completedCourses (certificates_at s t) <> [] /\
     totalCoursesCompleted (certificates_at s t)
     = wrap (Z.of_nat (length (completedCourses (certificates_at s t)))) /\
     paymentReceiptHash (certificates_at s t) <> 0 /\
     usedPaymentHashes_at s (paymentReceiptHash (certificates_at s t)) = true) /\
  usedPaymentHashes_at s 0 = false /\
  (forall t, _exists s t = false -> certificates_at s t = zeroCertificate).
Proof.
  intros Hr. destruct (reachable_RecordInv s Hr) as [R1 R2 R3 R4 R5 R6 R7 R8 R9].
  split; [| split; [exact R7 | exact R8]].
  intros t Ht. destruct (R6 t Ht). auto 10.
Qed.

Lemma records_well_formed_witness :
  completedCourses (certificates_at s3 1) = [5; 9; 9] /\
  totalCoursesCompleted (certificates_at s3 1) = wrap 3 /\
  certificates_at s3 2 = zeroCertificate.
Proof.
  pose proof (records_well_formed s3 reachable_s3) as (H & _ & Hz).
  split; [reflexivity |]. split.
  - rewrite (proj1 (proj2 (proj2 (proj2 (proj2 (H 1 eq_refl)))))). reflexivity.
  - apply Hz. reflexivity.
Defined.

(** X6. Soulbound balances: in every reachable state the ERC-1155 balance
    of an account for an identifier is 1 when the identifier is an
    existing certificate whose recipient is that account, and 0 otherwise;
    a certificate token is held by its recipient and by nobody else. *)
Theorem soulbound_balances s u id :
  reachable s ->
  balanceOf s u id =
  if decide (_exists s id = true /\ recipientAddress (certificates_at s id) = u)
  then 1 else 0.
Proof. intros Hr. apply (rec_balance s (reachable_RecordInv s Hr)). Qed.

Lemma soulbound_balances_witness :
  balanceOf s2 student 1 = 1 /\ balanceOf s2 1005 1 = 0 /\ balanceOf s2 student 2 = 0.
Proof.
  rewrite !(fun u id => soulbound_balances s2 u id reachable_s2).
  repeat split; reflexivity.
Defined.

(** X7. The membership index agrees with the list: in every reachable
    state [isCourseInCertificate tokenId courseId] returns true exactly
    when [getCertificateCompletedCourses tokenId] returns a list that
    contains [courseId]. *)
Theorem index_matches_list s t c :
  reachable s ->
  isCourseInCertificate s t c = true <->
  exists l, getCertificateCompletedCourses s t = inr l /\ In c l.
Proof.
  intros Hr. pose proof (reachable_Inv s Hr) as [_ _ _ _ I5].
  unfold isCourseInCertificate, getCertificateCompletedCourses.
  destruct (_exists s t) eqn:Ht; cbn [negb].
  - rewrite I5. split.
    + intros [_ Hin]. eexists. split; [reflexivity |].
      apply list_elem_of_In. exact Hin.
    + intros (l & Hl & Hin). injection Hl as <-.
      split; [exact Ht | apply list_elem_of_In; exact Hin].
  - split; [discriminate |]. intros (l & Hl & _). discriminate.
Qed.

Lemma index_matches_list_witness :
  isCourseInCertificate s2 1 7 = true /\ isCourseInCertificate s2 1 9 = false.
Proof.
  split.
  - apply (index_matches_list s2 1 7 reachable_s2).
    exists [5; 7]. split; [vm_compute; reflexivity | right; left; reflexivity].
  - destruct (isCourseInCertificate s2 1 9) eqn:E; [| reflexivity].
    apply (index_matches_list s2 1 9 reachable_s2) in E.
    destruct E as (l & Hl & Hin). vm_compute in Hl. injection Hl as <-.
    cbn in Hin. intuition discriminate.
Defined.

(** X8. The identifier [getUserCertificate] returns always resolves: in a
    reachable state either it is 0, [getUserCertificateStats] returns four
    zeros and the service's [hasCertificate] is false; or it is at least 1,
    [getCertificate] does not revert on it and returns a record whose
    recipient is the user and whose [tokenId] is that identifier,
    [getUserCertificateStats] returns that record's counters, and
    [hasCertificate] is true. *)
Theorem user_certificate_resolves s user :
  reachable s ->
  (getUserCertificate s user = 0 /\
   getUserCertificateStats s user = (0, 0, 0, 0) /\
   Service.hasCertificate s user = false) \/
  (1 <= getUserCertificate s user /\
   Service.hasCertificate s user = true /\
   exists cert,
     getCertificate s (getUserCertificate s user) = inr cert /\
     recipientAddress cert = user /\
     tokenId cert = getUserCertificate s user /\
     getUserCertificateStats s user
     = (getUserCertificate s user, totalCoursesCompleted cert, issuedAt cert,
        lastUpdated cert)).
Proof.
  intros Hr. pose proof (reachable_Inv s Hr) as [_ _ I3 _ _].
  pose proof (reachable_RecordInv s Hr) as [R1 _ _ _ _ _ _ _ _].
  unfold getUserCertificateStats, Service.hasCertificate, Service.getUserCertificateId,
    getUserCertificate, getCertificate.
  destruct (decide (userCertificates_at s user = 0)) as [E | E].
  - left. rewrite E. auto.
  - right. destruct (I3 user E) as [Ht Ho].
    pose proof Ht as Ht'. apply _exists_iff in Ht'.
    split; [lia |]. split; [apply Z.ltb_lt; lia |].
    exists (certificates_at s (userCertificates_at s user)).
    rewrite Ht. cbn [negb]. split; [reflexivity |]. split; [exact Ho |].
    split; [apply R1; exact Ht |].
    apply Z.eqb_neq in E. rewrite E. reflexivity.
Qed.

Lemma user_certificate_resolves_witness :
  getUserCertificateStats s2 student = (1, 2, 1000, 2000) /\
  getUserCertificateStats s2 1005 = (0, 0, 0, 0).
Proof.
  split.
  - destruct (user_certificate_resolves s2 student reachable_s2)
      as [(H & _) | (_ & _ & cert & Hc & _ & _ & Hs)].
    + vm_compute in H. discriminate H.
    + rewrite Hs. vm_compute in Hc. injection Hc as <-. reflexivity.
  - destruct (user_certificate_resolves s2 1005 reachable_s2)
      as [(_ & H & _) | (H & _)].
    + exact H.
    + vm_compute in H. exfalso. apply H. reflexivity.
Defined.

(** ** When the user operations succeed *)




Lemma fee_bounds R k :
  0 <= R -> 0 <= k <= 10000 -> 0 <= R * k / 10000 <= R.
Proof.
  intros HR Hk. split.
  - apply Z.div_pos; nia.
  - apply Z.div_le_upper_bound; nia.
Qed.










(** Closed side conditions of the concrete executions. *)
Ltac closed :=
  vm_compute;
  first [ reflexivity | discriminate
        | split; first [reflexivity | discriminate]
        | intros; reflexivity | intros; discriminate ].

(** Where a transaction records a completion date. *)
Lemma run_date env msg c s s' log t course :
  run env msg c s = inr (s', log) ->
  certificateCourseCompletionDate_at s' t course =
  match c with
  | MintOrUpdateCertificate courseId _ _ _ _ =>
      if decide (userCertificates_at s (sender msg) <> 0 /\
                 t = userCertificates_at s (sender msg) /\ course = courseId /\
                 0 < getCourseSections_length env courseId)
      then getSectionProgress_completedAt env (sender msg) courseId
             (getCourseSections_length env courseId - 1)
      else certificateCourseCompletionDate_at s t course
  | _ => certificateCourseCompletionDate_at s t course
  end.
Proof.
  intros E. run_inv E; unfold certificateCourseCompletionDate_at; try solve [fin2].
Qed.


Ltac discharge H :=
  repeat match type of H with
         | ?P -> _ =>
             let HP := fresh in
             assert (HP : P) by closed; specialize (H HP); clear HP
         end.

Lemma run_mintOrUpdateCertificate env msg course name cid X route s s' log :
  run env msg (MintOrUpdateCertificate course name cid X route) s = inr (s', log) ->
  (userCertificates_at s (sender msg) = 0 /\
   ledger_mint (sender msg) course X s s') \/
  (userCertificates_at s (sender msg) <> 0 /\
   ledger_append (userCertificates_at s (sender msg)) [course] X s s').
Proof.
  unfold run. cbn [dispatch].
  destruct (mintOrUpdateCertificate env msg course name cid X route s [])
    as [e | [[u s1] l1]] eqn:D; [discriminate |].
  intros H. injection H as <- <-.
  apply mintOrUpdateCertificate_inr in D.
  destruct D as (_ & _ & _ & _ & _ & _ & _ & _ & [(Hu & Hl & _) | (Hu & Hl & _)]); auto.
Qed.





(** ** Administration *)

Ltac exec :=
  cbv beta iota zeta delta
    [run dispatch bind get modify emit ret revert revertIf require onlyOwner
     whenNotPaused whenPaused validStringLength nonReentrant revokeCertificate pause
     unpause setCourseCertificatePrice updateBaseRoute batchUpdateBaseRoute
     setDefaultCertificateFee setDefaultCourseAdditionFee setPlatformWallet
     setDefaultPlatformName setTokenURI updateDefaultBaseRoute
     updateDefaultMetadataBaseURI transferOwnership renounceOwnership negb].

Lemma owner_eqb msg s : sender msg = _owner s -> (_owner s =? sender msg) = true.
Proof. intros ->. apply Z.eqb_refl. Qed.

Lemma not_owner_eqb msg s : sender msg <> _owner s -> (_owner s =? sender msg) = false.
Proof. intros H. apply Z.eqb_neq. congruence. Qed.

(** X2. Only the owner administers: each of the fourteen functions that
    carry [onlyOwner] (the setters of the two default fees, the platform
    wallet, the platform name, a token URI, the base routes and the
    metadata URI, [batchUpdateBaseRoute], [revokeCertificate], [pause],
    [unpause], [transferOwnership], [renounceOwnership]) reverts for a
    sender that is not the owner, in every state and for all arguments;
    called without value, it reverts with [OwnableUnauthorizedAccount] of
    the sender. The modifier runs first, so nothing is written. *)
Theorem owner_only_functions env msg c s :
  guarded_by_onlyOwner c = true ->
  sender msg <> _owner s ->
  (exists e, run env msg c s = inl e) /\
  (value msg = 0 ->
   run env msg c s = inl (OwnableUnauthorizedAccount (sender msg))).
Proof.
  intros Hc Ho. apply not_owner_eqb in Ho.
  assert (H : run env msg c s = inl (OwnableUnauthorizedAccount (sender msg))).
  { destruct c; try discriminate Hc; exec; rewrite Ho; reflexivity. }
  split; [eauto | intros _; exact H].
Qed.

Lemma owner_only_functions_witness :
  run env0 (mkMsg student 0 7000) (RevokeCertificate 1 "fraud") s1
  = inl (OwnableUnauthorizedAccount student).
Proof.
  pose proof (owner_only_functions env0 (mkMsg student 0 7000)
                (RevokeCertificate 1 "fraud") s1) as H.
  discharge H. destruct H as [_ H]. discharge H. exact H.
Defined.

(** X11. [revokeCertificate], which is not payable, called without value:
    a sender other than the owner is rejected with
    [OwnableUnauthorizedAccount]; the owner is rejected with
    [CertificateNotFound] for an identifier that was not allocated; for an
    allocated identifier the owner's call succeeds, whether the certificate
    was still valid or already revoked, emits [CertificateRevoked], clears
    [isValid] of that record and nothing else of it, leaves every other
    record as it was, and [verifyCertificate] returns false afterwards. *)
Theorem revokeCertificate_spec env msg t reason s :
  value msg = 0 ->
  (sender msg <> _owner s ->
   run env msg (RevokeCertificate t reason) s
   = inl (OwnableUnauthorizedAccount (sender msg))) /\
  (sender msg = _owner s -> _exists s t = false ->
   run env msg (RevokeCertificate t reason) s = inl (CertificateNotFound t)) /\
  (sender msg = _owner s -> _exists s t = true ->
   exists s',
     run env msg (RevokeCertificate t reason) s
     = inr (s', [Emit (CertificateRevoked t reason)]) /\
     certificates_at s' t = set_isValid false (certificates_at s t) /\
     verifyCertificate s' t = false /\
     (forall t', t' <> t -> certificates_at s' t' = certificates_at s t')).
Proof.
  intros _. split; [| split].
  - intros Ho. apply not_owner_eqb in Ho. exec. rewrite Ho. reflexivity.
  - intros Ho Ht. apply owner_eqb in Ho. exec. rewrite Ho, Ht. reflexivity.
  - intros Ho Ht. apply owner_eqb in Ho. eexists. split.
    + exec. rewrite Ho, Ht. reflexivity.
    + split; [map_simpl |]. split.
      * unfold verifyCertificate. map_pre. rewrite decide_True by reflexivity.
        cbn [isValid set_isValid]. apply andb_false_r.
      * intros t' Hne. map_simpl.
Qed.

Lemma revokeCertificate_spec_witness :
  exists s',
    run env0 msgR callR s1 = inr (s', [Emit (CertificateRevoked 1 "fraud")]) /\
    verifyCertificate s' 1 = false.
Proof.
  pose proof (revokeCertificate_spec env0 msgR 1 "fraud" s1) as H.
  discharge H. destruct H as (_ & _ & H).
  discharge H. destruct H as (s' & H1 & _ & H3 & _).
  exists s'. split; [exact H1 | exact H3].
Defined.

Lemma run_callR : run env0 msgR callR s1 = inr (sR, log_of (run env0 msgR callR s1)).
Proof. vm_compute. reflexivity. Qed.

Lemma reachable_sR : reachable sR.
Proof. exact (reachable_step _ _ _ _ _ _ reachable_s1 run_callR). Qed.

Lemma run_callP : run env0 msgR Pause sR = inr (sP, log_of (run env0 msgR Pause sR)).
Proof. vm_compute. reflexivity. Qed.

Lemma steps_sR_sP : steps sR sP.
Proof. exact (steps_step _ _ _ _ _ _ _ (steps_refl sR) run_callP). Qed.

Lemma ledger_step_user msg c s s' u :
  ledger_step msg c s s' ->
  userCertificates_at s u <> 0 ->
  userCertificates_at s' u = userCertificates_at s u.
Proof.
  intros [_ (_ & E & _) | course X _ _ (E0 & _ & _ & E & _)
         | t X _ _ _ (_ & _ & _ & E & _)] Hu; rewrite E; try reflexivity.
  destruct (decide _) as [-> |]; [contradiction | reflexivity].
Qed.

Lemma steps_user s s' u :
  steps s s' ->
  userCertificates_at s u <> 0 ->
  userCertificates_at s' u = userCertificates_at s u.
Proof.
  induction 1 as [| ? ? ? ? ? ? ? _ IH Hr]; [reflexivity |].
  intros Hu. specialize (IH Hu).
  apply run_ledger_step in Hr. destruct Hr as (Hs & _ & _).
  rewrite (ledger_step_user _ _ _ _ u Hs) by congruence. exact IH.
Qed.

(** A call that needs a valid certificate of the sender, or of the named
    identifier, fails when that certificate is revoked. *)
Lemma revoked_rejected env msg c s :
  match c with
  | MintOrUpdateCertificate _ _ _ _ _ | AddMultipleCoursesToCertificate _ _ _ =>
      userCertificates_at s (sender msg) <> 0 /\
      isValid (certificates_at s (userCertificates_at s (sender msg))) = false
  | UpdateCertificate t _ _ => isValid (certificates_at s t) = false
  | _ => False
  end ->
  exists e, run env msg c s = inl e.
Proof.
  intros H. destruct (run env msg c s) as [e | [s' log]] eqn:E; [eauto |].
  exfalso. unfold run in E.
  destruct (dispatch env msg c s []) as [e | [[u s1] l1]] eqn:D; [discriminate |].
  destruct c; try contradiction; cbn [dispatch] in D.
  - destruct H as [Hu Hv]. apply mintOrUpdateCertificate_inr in D.
    destruct D as (_ & _ & _ & _ & _ & _ & _ & _ & [(Hu' & _) | (_ & _ & _ & Hv' & _)]);
      congruence.
  - apply updateCertificate_inr in D.
    destruct D as (_ & _ & _ & _ & _ & _ & _ & Hv' & _). congruence.
  - destruct H as [Hu Hv]. apply addMultipleCoursesToCertificate_inr in D.
    cbv zeta in D. destruct D as (_ & _ & _ & _ & _ & _ & _ & Hv' & _). congruence.
Qed.

(** X12. A revoked holder is locked out for good: once the certificate of
    an account is invalid, then after every sequence of successful
    transactions [getUserCertificate] still returns that certificate, and
    every call of [mintOrUpdateCertificate] or
    [addMultipleCoursesToCertificate] by the account, and every call of
    [updateCertificate] on the certificate by anyone, reverts. The account
    can neither extend the revoked certificate nor obtain a new one. *)
Theorem revoked_holder_locked_out s s' u env msg :
  reachable s ->
  getUserCertificate s u <> 0 ->
  isValid (certificates_at s (getUserCertificate s u)) = false ->
  steps s s' ->
  getUserCertificate s' u = getUserCertificate s u /\
  (sender msg = u ->
   (forall course name cid X route,
      exists e, run env msg (MintOrUpdateCertificate course name cid X route) s' = inl e) /\
   (forall courseIds cid X,
      exists e, run env msg (AddMultipleCoursesToCertificate courseIds cid X) s' = inl e)) /\
  (forall cid X,
     exists e, run env msg (UpdateCertificate (getUserCertificate s u) cid X) s' = inl e).
Proof.
  unfold getUserCertificate. intros Hr Hu Hv Hs.
  pose proof (reachable_Inv s Hr) as [_ _ I3 _ _]. destruct (I3 u Hu) as [Hex _].
  destruct (steps_record s s' _ Hs Hex) as (_ & _ & _ & _ & _ & _ & I6 & _).
  specialize (I6 Hv). pose proof (steps_user s s' u Hs Hu) as Hu'.
  split; [exact Hu' |]. split.
  - intros Hsend. subst u. split; intros; apply revoked_rejected; rewrite Hu'; auto.
  - intros. apply revoked_rejected. exact I6.
Qed.

Lemma revoked_holder_locked_out_witness :
  exists e, run env0 msgB callB sP = inl e.
Proof.
  pose proof (revoked_holder_locked_out sR sP student env0 msgB reachable_sR) as H.
  assert (H1 : getUserCertificate sR student <> 0) by (vm_compute; discriminate).
  assert (H2 : isValid (certificates_at sR (getUserCertificate sR student)) = false)
    by (vm_compute; reflexivity).
  destruct (H H1 H2 steps_sR_sP) as (_ & Hm & _).
  exact (proj1 (Hm eq_refl) 7 "Ann" "cidB" 78 EmptyString).
Defined.

(** X13. [pause] and [unpause], which are not payable, called without
    value: in a reachable, unpaused state the owner's [pause] succeeds; in the paused state every call of
    [mintOrUpdateCertificate], [updateCertificate] and
    [addMultipleCoursesToCertificate] reverts with [EnforcedPause], a
    second [pause] reverts with [EnforcedPause], and the owner's [unpause]
    restores exactly the storage before the pause; [unpause] of an unpaused
    contract reverts with [ExpectedPause]. *)
Theorem pause_unpause env msg s :
  reachable s ->
  value msg = 0 ->
  sender msg = _owner s ->
  _paused s = false ->
  exists sp,
    run env msg Pause s = inr (sp, [Emit (Paused (sender msg))]) /\
    _paused sp = true /\
    (forall env' msg' c,
       paymentHash_of c <> None -> run env' msg' c sp = inl EnforcedPause) /\
    run env msg Pause sp = inl EnforcedPause /\
    run env msg Unpause sp = inr (s, [Emit (Unpaused (sender msg))]) /\
    run env msg Unpause s = inl ExpectedPause.
Proof.
  intros Hr _ Ho Hp. pose proof (reachable_Inv s Hr) as [_ He _ _ _].
  apply owner_eqb in Ho. exists (set_paused true s).
  split; [exec; rewrite Ho, Hp; reflexivity |].
  split; [reflexivity |]. split; [| split; [| split]].
  - intros env' msg' c Hc.
    destruct c; try (exfalso; apply Hc; reflexivity); exec;
      unfold mintOrUpdateCertificate, updateCertificate, addMultipleCoursesToCertificate;
      exec; cbn [_entered set_paused]; rewrite He; reflexivity.
  - exec. cbn [_owner set_paused _paused]. rewrite Ho. reflexivity.
  - exec. cbn [_owner set_paused _paused]. rewrite Ho. cbv beta iota.
    destruct s; cbn in *; subst; reflexivity.
  - exec. rewrite Ho, Hp. reflexivity.
Qed.

Lemma pause_unpause_witness :
  exists sp,
    run env0 msgR Pause sR = inr (sp, [Emit (Paused 1)]) /\
    run env0 msgB callB sp = inl EnforcedPause /\
    run env0 msgR Unpause sp = inr (sR, [Emit (Unpaused 1)]).
Proof.
  pose proof (pause_unpause env0 msgR sR reachable_sR) as H.
  discharge H. destruct H as (sp & H1 & _ & H3 & _ & H5 & _).
  exists sp. split; [exact H1 |]. split; [apply H3; discriminate | exact H5].
Defined.

(** X14. [setCourseCertificatePrice], which is not payable, called
    without value: a price of zero is rejected with
    [ZeroAmount], a price above [MAX_CERTIFICATE_PRICE] with
    [ExceedsMaxPrice], and a sender who is not the creator of the course
    with the message of the [require]; the creator's call with a price in
    range succeeds, also while the contract is paused, and afterwards both
    [getCourseCertificatePrice] and the price the mint and append paths
    resolve are that price, while the price of every other course and the
    default fee are unchanged. *)
Theorem setCourseCertificatePrice_spec env msg course price s :
  value msg = 0 ->
  (price = 0 ->
   run env msg (SetCourseCertificatePrice course price) s = inl ZeroAmount) /\
  (MAX_CERTIFICATE_PRICE < price ->
   run env msg (SetCourseCertificatePrice course price) s = inl ExceedsMaxPrice) /\
  (0 < price <= MAX_CERTIFICATE_PRICE ->
   getCourse_creator env course <> sender msg ->
   run env msg (SetCourseCertificatePrice course price) s
   = inl (RevertMsg "Only course creator can set price")) /\
  (0 < price <= MAX_CERTIFICATE_PRICE ->
   getCourse_creator env course = sender msg ->
   exists s',
     run env msg (SetCourseCertificatePrice course price) s
     = inr (s', [Emit (CourseCertificatePriceSet course price (sender msg))]) /\
     getCourseCertificatePrice s' course = price /\
     _getCertificatePrice s' course = price /\
     defaultCertificateFee s' = defaultCertificateFee s /\
     (forall c, c <> course ->
        getCourseCertificatePrice s' c = getCourseCertificatePrice s c /\
        _getCertificatePrice s' c = _getCertificatePrice s c)).
Proof.
  intros _. assert (HM : 0 < MAX_CERTIFICATE_PRICE) by reflexivity.
  split; [| split; [| split]].
  - intros ->. reflexivity.
  - intros Hp. exec.
    replace (price =? 0) with false by (symmetry; apply Z.eqb_neq; lia).
    replace (MAX_CERTIFICATE_PRICE <? price) with true by (symmetry; apply Z.ltb_lt; lia).
    reflexivity.
  - intros Hp Hc. exec.
    replace (price =? 0) with false by (symmetry; apply Z.eqb_neq; lia).
    replace (MAX_CERTIFICATE_PRICE <? price) with false by (symmetry; apply Z.ltb_ge; lia).
    apply Z.eqb_neq in Hc. rewrite Hc. reflexivity.
  - intros Hp Hc. eexists. split.
    + exec.
      replace (price =? 0) with false by (symmetry; apply Z.eqb_neq; lia).
      replace (MAX_CERTIFICATE_PRICE <? price) with false
        by (symmetry; apply Z.ltb_ge; lia).
      apply Z.eqb_eq in Hc. rewrite Hc. reflexivity.
    + assert (Hpos : (0 <? price) = true) by (apply Z.ltb_lt; lia).
      unfold getCourseCertificatePrice, _getCertificatePrice.
      split; [map_pre; rewrite decide_True by reflexivity; rewrite Hpos; reflexivity |].
      split; [map_pre; rewrite decide_True by reflexivity; rewrite Hpos; reflexivity |].
      split; [reflexivity |].
      intros c Hne. split; map_pre; rewrite decide_False by congruence; reflexivity.
Qed.

Lemma setCourseCertificatePrice_spec_witness :
  exists s',
    run env0 (mkMsg 1007 0 6000) (SetCourseCertificatePrice 7 (5 * 10 ^ 14)) s1
    = inr (s', [Emit (CourseCertificatePriceSet 7 (5 * 10 ^ 14) 1007)]) /\
    _getCertificatePrice s' 7 = 5 * 10 ^ 14.
Proof.
  pose proof (setCourseCertificatePrice_spec env0 (mkMsg 1007 0 6000) 7
                (5 * 10 ^ 14) s1) as H.
  discharge H. destruct H as (_ & _ & _ & H).
  discharge H. destruct H as (s' & H1 & _ & H3 & _).
  exists s'. split; [exact H1 | exact H3].
Defined.

Lemma forEach_updateBaseRouteIfExists_total msg route ts s l :
  exists s' l', forEach (updateBaseRouteIfExists msg route) ts s l = inr (tt, s', l').
Proof.
  revert s l. induction ts as [| t ts IH]; intros s l.
  - eexists _, _. reflexivity.
  - cbn [forEach]. unfold updateBaseRouteIfExists.
    cbv beta iota delta [bind get]. destruct (_exists s t).
    + cbv beta iota delta [bind modify emit]. apply IH.
    + cbv beta iota delta [ret]. apply IH.
Qed.

(** X15. [batchUpdateBaseRoute] skips what [updateBaseRoute] rejects; both
    are not payable and are called without value: for
    the owner, a route of 1 to 200 bytes and a nonempty array, the batch
    succeeds whatever identifiers the array holds; it sets the base route
    and [lastUpdated] of exactly the listed certificates that exist and
    leaves every other record, and every other field, as it was; the single
    [updateBaseRoute] reverts with [CertificateNotFound] on an identifier
    that was not allocated, and an empty array is rejected with
    [EmptyCoursesArray]. *)
Theorem batchUpdateBaseRoute_skips_missing env msg tokenIds route s :
  value msg = 0 ->
  sender msg = _owner s ->
  1 <= Z.of_nat (String.length route) <= 200 ->
  (tokenIds = [] ->
   run env msg (BatchUpdateBaseRoute tokenIds route) s = inl EmptyCoursesArray) /\
  (tokenIds <> [] ->
   exists s' log,
     run env msg (BatchUpdateBaseRoute tokenIds route) s = inr (s', log) /\
     forall t,
       certificates_at s' t =
       if decide (t ∈ tokenIds /\ _exists s t = true)
       then set_lastUpdated (timestamp msg) (set_baseRoute route (certificates_at s t))
       else certificates_at s t) /\
  (forall t, _exists s t = false ->
     run env msg (UpdateBaseRoute t route) s = inl (CertificateNotFound t)).
Proof.
  intros _ Ho Hlen. apply owner_eqb in Ho.
  pose proof (string_length_ok route 200 Hlen) as Hs.
  split; [| split].
  - intros ->. exec. rewrite Ho, Hs. reflexivity.
  - intros Hne.
    destruct (forEach_updateBaseRouteIfExists_total msg route tokenIds s [])
      as (s' & l' & E).
    assert (Hn : (Z.of_nat (length tokenIds) =? 0) = false).
    { apply Z.eqb_neq. destruct tokenIds; [contradiction | cbn; lia]. }
    exists s', l'. split.
    + exec. rewrite Ho, Hs, Hn. cbv beta iota. rewrite E. reflexivity.
    + apply forEach_updateBaseRouteIfExists_exact in E.
      destruct E as (m1 & evs & -> & _ & Hm1). intros t. rewrite <- Hm1. reflexivity.
  - intros t Ht. exec. rewrite Ho, Hs, Ht. reflexivity.
Qed.

Lemma batchUpdateBaseRoute_skips_missing_witness :
  exists s' log,
    run env0 msgR (BatchUpdateBaseRoute [1; 8] "https://v2") s1 = inr (s', log) /\
    baseRoute (certificates_at s' 1) = "https://v2" /\
    certificates_at s' 8 = certificates_at s1 8.
Proof.
  pose proof (batchUpdateBaseRoute_skips_missing env0 msgR [1; 8] "https://v2" s1) as H.
  discharge H. destruct H as (_ & H & _).
  discharge H. destruct H as (s' & log & H1 & H2).
  exists s', log. split; [exact H1 |]. rewrite !H2. split; vm_compute; reflexivity.
Defined.

Lemma revocation_is_permanent_witness :
  isValid (certificates_at sP 1) = false /\ verifyCertificate sP 1 = false.
Proof.
  pose proof (revocation_is_permanent sR sP 1 steps_sR_sP) as H.
  discharge H. exact H.
Defined.

(** ** Settlement of a transaction *)

Lemma run_settlement env msg c s s' log :
  run env msg c s = inr (s', log) ->
  match settlement_of env msg s c with
  | Some (payee, R, bp) =>
      0 <= R <= value msg /\
      exists pre post observed,
        let legs := settlement_legs (platformWallet s) payee (sender msg) (value msg) R
                      (R * bp / 10000) observed in
        log = map Emit pre ++ legs ++ map Emit post /\ accepted env legs
  | None => exists evs, log = map Emit evs
  end.
Proof.
  intros E. run_inv_with ltac:(resolve_payments) E; cbn [settlement_of];
    unfold _getCertificatePrice in *; state_simpl;
    repeat match goal with
           | |- context [?a =? 0] => destruct (Z.eqb_spec a 0); try contradiction
           end.
  all: rewrite <- ?app_assoc; cbn [app].
  all: try solve
    [ first [ exists []; reflexivity | eexists [_]; reflexivity
            | eexists [_; _]; reflexivity | eexists; reflexivity ] ].
  all: try solve
    [ split; [lia |];
      first
        [ eexists [_], [_; _], _; split; [reflexivity | eassumption]
        | eexists [], [_; _], _; split; [reflexivity | eassumption]
        | eexists (map _ _), [_], _; split; [rewrite map_map; reflexivity | eassumption] ] ].
Qed.

Lemma transfers_of_framed pre legs post :
  transfers_of (map Emit pre ++ legs ++ map Emit post) = transfers_of legs.
Proof.
  rewrite !transfers_of_app, !transfers_of_emits, app_nil_r. reflexivity.
Qed.

Lemma settlement_rate env msg s c payee R bp :
  settlement_of env msg s c = Some (payee, R, bp) -> bp = 1000 \/ bp = 200.
Proof.
  destruct c; cbn [settlement_of]; try discriminate; intros H; injection H as _ _ <-;
    auto.
  destruct (_ =? 0); auto.
Qed.

Lemma run_transfers env msg c s s' log :
  run env msg c s = inr (s', log) ->
  match settlement_of env msg s c with
  | Some (payee, R, bp) =>
      0 <= R <= value msg /\
      transfers_of log =
        (if 0 <? R * bp / 10000 then [(platformWallet s, R * bp / 10000)] else []) ++
        (if 0 <? R - R * bp / 10000 then [(payee, R - R * bp / 10000)] else []) ++
        (if R <? value msg then [(sender msg, value msg - R)] else []) /\
      total_transferred log = value msg
  | None => transfers_of log = []
  end.
Proof.
  intros E. pose proof (run_settlement _ _ _ _ _ _ E) as H.
  destruct (settlement_of env msg s c) as [[[payee R] bp] |] eqn:Es.
  - destruct H as (HR & pre & post & observed & -> & _).
    split; [exact HR |].
    assert (Hb : 0 <= R * bp / 10000 <= R).
    { apply fee_bounds; [lia |]. destruct (settlement_rate _ _ _ _ _ _ _ Es); lia. }
    split.
    + rewrite transfers_of_framed. apply transfers_of_settlement_legs.
    + unfold total_transferred. rewrite transfers_of_framed.
      apply total_transferred_settlement_legs; lia.
  - destruct H as (evs & ->). apply transfers_of_emits.
Qed.

(** X16. Every payable entry point forwards exactly [msg.value]: a
    successful [mintOrUpdateCertificate] settles the resolved course price
    with the course creator as payee, at 1000 basis points for a first
    certificate and 200 for an append; a successful [updateCertificate]
    settles [defaultCourseAdditionFee], and a successful
    [addMultipleCoursesToCertificate] that fee times the number of courses,
    both at 1000 basis points with the platform wallet as payee. The
    transfers are the platform share (rounded down), the rest of the
    required amount to the payee and the excess back to the sender, zero
    amounts being skipped; they add up to [msg.value]. Every other
    successful transaction transfers nothing. *)
Theorem transaction_forwards_value env msg c s s' log :
  run env msg c s = inr (s', log) ->
  match settlement_of env msg s c with
  | Some (payee, R, bp) =>
      0 <= R <= value msg /\
      transfers_of log =
        (if 0 <? R * bp / 10000 then [(platformWallet s, R * bp / 10000)] else []) ++
        (if 0 <? R - R * bp / 10000 then [(payee, R - R * bp / 10000)] else []) ++
        (if R <? value msg then [(sender msg, value msg - R)] else []) /\
      total_transferred log = value msg
  | None => transfers_of log = []
  end.
Proof. apply run_transfers. Qed.

Lemma transaction_forwards_value_witness :
  transfers_of (log_of (run env0 msgB callB s1))
  = [(99, 2 * 10 ^ 13); (1007, 98 * 10 ^ 13)] /\
  total_transferred (log_of (run env0 msgB callB s1)) = 10 ^ 15.
Proof.
  pose proof (transaction_forwards_value _ _ _ _ _ _ run_callB) as (_ & H1 & H2).
  split; [rewrite H1; vm_compute; reflexivity | rewrite H2; reflexivity].
Defined.

(** X17. Settlement is all or nothing: in a successful transaction every
    value transfer was accepted by its recipient. If the platform wallet,
    the payee or, for a refund, the sender rejects the transfer, the whole
    transaction reverts. *)
Theorem transfers_all_accepted env msg c s s' log to amount :
  run env msg c s = inr (s', log) ->
  In (to, amount) (transfers_of log) ->
  callSucceeds env to amount = true.
Proof.
  intros E Hin. pose proof (run_settlement _ _ _ _ _ _ E) as H.
  destruct (settlement_of env msg s c) as [[[payee R] bp] |].
  - destruct H as (_ & pre & post & observed & -> & Hacc).
    rewrite transfers_of_framed in Hin. unfold accepted in Hacc.
    rewrite Forall_forall in Hacc. apply list_elem_of_In in Hin.
    exact (Hacc _ Hin).
  - destruct H as (evs & ->). rewrite transfers_of_emits in Hin. contradiction.
Qed.

Lemma transfers_all_accepted_witness : callSucceeds env0 1007 (98 * 10 ^ 13) = true.
Proof.
  apply (transfers_all_accepted env0 msgB callB s1 s2 _ 1007 (98 * 10 ^ 13) run_callB).
  vm_compute. right. left. reflexivity.
Defined.

(** ** The certificate service of the web application *)

(** X18. The price breakdown the service displays is the settlement the
    contract performs: for a successful [mintOrUpdateCertificate], with
    [calculateCertificatePrice] evaluated for the same course on the state
    before the call and with the first-certificate flag the eligibility
    check computes, [totalRequired] is covered by [msg.value], [platformFee]
    and [creatorFee] add up to [basePrice], and the contract transfers
    [platformFee] to the platform wallet, [creatorFee] to the course
    creator and the excess over [totalRequired] back to the sender. *)
Theorem price_breakdown_matches_settlement env msg course name cid X route s s' log :
  run env msg (MintOrUpdateCertificate course name cid X route) s = inr (s', log) ->
  let isFirst :=
    Service.isFirstCertificate
      (Service.checkEligibilityForCertificate env s (sender msg) course) in
  let q := Service.calculateCertificatePrice s course isFirst in
  Service.totalRequired q <= value msg /\
  Service.platformFee q + Service.creatorFee q = Service.basePrice q /\
  Service.platformFeePercentage q = (if isFirst then 10 else 2) /\
  transfers_of log =
    (if 0 <? Service.platformFee q
     then [(platformWallet s, Service.platformFee q)] else []) ++
    (if 0 <? Service.creatorFee q
     then [(getCourse_creator env course, Service.creatorFee q)] else []) ++
    (if Service.totalRequired q <? value msg
     then [(sender msg, value msg - Service.totalRequired q)] else []).
Proof.
  intros E.
  pose proof (run_transfers _ _ _ _ _ _ E) as H. cbn [settlement_of] in H.
  destruct H as (HR & Ht & _).
  assert (Hel : Service.isFirstCertificate
                  (Service.checkEligibilityForCertificate env s (sender msg) course)
                = (userCertificates_at s (sender msg) =? 0)).
  { unfold run in E. cbn [dispatch] in E.
    destruct (mintOrUpdateCertificate env msg course name cid X route s [])
      as [e | [[u s1] l1]] eqn:D; [discriminate |].
    apply mintOrUpdateCertificate_inr in D.
    destruct D as (_ & _ & _ & _ & _ & Hd & Hl & _ &
                   [(Hu & _) | (Hu & (_ & HF & _) & _)]);
      unfold Service.checkEligibilityForCertificate, Service.getUserCertificateId,
        getUserCertificate, isCourseInCertificate;
      rewrite Hd; apply Z.eqb_neq in Hl; rewrite Hl; cbn [negb].
    - rewrite Hu. reflexivity.
    - apply Forall_inv in HF. rewrite HF.
      destruct (negb _); rewrite andb_false_r; reflexivity. }
  cbv zeta. rewrite Hel.
  unfold Service.calculateCertificatePrice, Service.getCertificatePrice.
  cbn [Service.totalRequired Service.platformFee Service.creatorFee Service.basePrice
       Service.platformFeePercentage].
  change (getCourseCertificatePrice s course) with (_getCertificatePrice s course).
  set (R := _getCertificatePrice s course) in *.
  assert (Hq : Z.quot (R * ((if userCertificates_at s (sender msg) =? 0 then 10 else 2)
                            * 100)) 10000
               = R * (if userCertificates_at s (sender msg) =? 0 then 1000 else 200)
                 / 10000).
  { destruct (_ =? 0); cbn [Z.mul Pos.mul]; apply Z.quot_div_nonneg; lia. }
  rewrite Hq. split; [lia |]. split; [lia |]. split; [reflexivity |]. exact Ht.
Qed.

Lemma price_breakdown_matches_settlement_witness :
  Service.calculateCertificatePrice s1 7 false
  = Service.mkPrice (10 ^ 15) 2 (2 * 10 ^ 13) (98 * 10 ^ 13) (10 ^ 15) /\
  transfers_of (log_of (run env0 msgB callB s1))
  = [(99, 2 * 10 ^ 13); (1007, 98 * 10 ^ 13)].
Proof.
  pose proof (price_breakdown_matches_settlement _ _ _ _ _ _ _ _ _ _ run_callB)
    as (_ & _ & _ & H).
  split; [vm_compute; reflexivity |]. rewrite H. vm_compute. reflexivity.
Defined.

(** X19. The eligibility check of the service is necessary for the
    contract call: whenever [mintOrUpdateCertificate] succeeds,
    [checkEligibilityForCertificate], evaluated for the sender and the
    course on the state before the call, reports the user eligible with no
    reason, and its [isFirstCertificate] flag tells which path the contract
    took: it is true exactly when the call allocated a new certificate
    identifier, and false exactly when it appended to the sender's
    certificate. *)
Theorem eligibility_is_necessary env msg course name cid X route s s' log :
  run env msg (MintOrUpdateCertificate course name cid X route) s = inr (s', log) ->
  let e := Service.checkEligibilityForCertificate env s (sender msg) course in
  Service.eligible e = true /\
  Service.reason e = None /\
  (Service.isFirstCertificate e = true ->
   Service.hasCertificate s (sender msg) = false /\
   _nextTokenId s' = _nextTokenId s + 1 /\
   getUserCertificate s' (sender msg) = _nextTokenId s) /\
  (Service.isFirstCertificate e = false ->
   _nextTokenId s' = _nextTokenId s /\
   getUserCertificate s' (sender msg) = getUserCertificate s (sender msg) /\
   isCourseInCertificate s (getUserCertificate s (sender msg)) course = false).
Proof.
  intros E. cbv zeta.
  unfold run in E. cbn [dispatch] in E.
  destruct (mintOrUpdateCertificate env msg course name cid X route s [])
    as [e | [[u s1] l1]] eqn:D; [discriminate |].
  injection E as <- <-.
  apply mintOrUpdateCertificate_inr in D.
  destruct D as (_ & _ & _ & _ & _ & Hd & Hl & _ &
                 [(Hu & (_ & _ & L1 & L2 & _) & _)
                 | (Hu & (_ & HF & L1 & L2 & _) & _)]);
    unfold Service.checkEligibilityForCertificate, Service.hasCertificate,
      Service.getUserCertificateId, getUserCertificate, isCourseInCertificate;
    rewrite Hd; apply Z.eqb_neq in Hl; rewrite Hl; cbn [negb].
  - rewrite Hu. cbn. split; [reflexivity |]. split; [reflexivity |].
    split; [| discriminate]. intros _. split; [reflexivity |]. split; [exact L1 |].
    rewrite L2, decide_True by reflexivity. reflexivity.
  - apply Forall_inv in HF. rewrite HF.
    assert (Hb : (0 <? userCertificates_at s (sender msg))
                 && (if negb (_exists s (userCertificates_at s (sender msg)))
                     then false else false) = false)
      by (destruct (negb _); apply andb_false_r).
    rewrite Hb. cbn [Service.eligible Service.reason Service.isFirstCertificate].
    apply Z.eqb_neq in Hu. rewrite Hu.
    split; [reflexivity |]. split; [reflexivity |]. split; [discriminate |].
    intros _. split; [exact L1 |]. split; [apply L2 |].
    destruct (negb _); reflexivity.
Qed.

Lemma eligibility_is_necessary_witness :
  Service.checkEligibilityForCertificate env0 s1 student 7
  = Service.mkEligibility true false None /\
  _nextTokenId s2 = _nextTokenId s1.
Proof.
  pose proof (eligibility_is_necessary _ _ _ _ _ _ _ _ _ _ run_callB)
    as (_ & _ & _ & H).
  split; [vm_compute; reflexivity |]. exact (proj1 (H eq_refl)).
Defined.

Lemma sumPrices_lower s has fee cs : forall i total,
  Forall (fun c => fee <= getCourseCertificatePrice s c) cs ->
  total + fee * Z.of_nat (length cs) <= Service.sumPrices s has i cs total.
Proof.
  induction cs as [| c cs IH]; intros i total HF; cbn [Service.sumPrices length].
  - lia.
  - apply Forall_cons in HF. destruct HF as [Hc HF].
    specialize (IH (S i) (total + Service.getCertificatePrice s c
                                    (Nat.eqb i 0 && negb has)) HF).
    unfold Service.getCertificatePrice in *. lia.
Qed.

Lemma sumPrices_flag s cs : forall i total,
  Service.sumPrices s true i cs total = Service.sumPrices s false i cs total.
Proof.
  induction cs as [| c cs IH]; intros i total; cbn [Service.sumPrices]; [reflexivity |].
  unfold Service.getCertificatePrice. apply IH.
Qed.

(** X20. The batch quote of the service covers the fee of the contract:
    when no listed course is priced below [defaultCourseAdditionFee],
    [calculateBatchPrice] is at least the total
    [defaultCourseAdditionFee * courseIds.length] that
    [addMultipleCoursesToCertificate] requires, so a payment of the quoted
    amount is never rejected with [InsufficientPayment]; the quote does not
    depend on the [hasExistingCertificate] flag. *)
Theorem batch_quote_covers_fee s courseIds hasExistingCertificate :
  0 <= defaultCourseAdditionFee s ->
  Forall (fun c => defaultCourseAdditionFee s <= getCourseCertificatePrice s c)
    courseIds ->
  defaultCourseAdditionFee s * Z.of_nat (length courseIds)
  <= Service.calculateBatchPrice s courseIds hasExistingCertificate /\
  Service.calculateBatchPrice s courseIds hasExistingCertificate
  = Service.calculateBatchPrice s courseIds (negb hasExistingCertificate).
Proof.
  intros Hfee HF. unfold Service.calculateBatchPrice. split.
  - pose proof (sumPrices_lower s hasExistingCertificate _ courseIds 0%nat 0 HF) as H.
    set (total := Service.sumPrices s hasExistingCertificate 0 courseIds 0) in *.
    assert (0 <= Z.quot (total * 5) 100) by (apply Z.quot_pos; nia).
    nia.
  - destruct hasExistingCertificate; cbn [negb];
      rewrite (sumPrices_flag s courseIds 0%nat 0); reflexivity.
Qed.

Lemma batch_quote_covers_fee_witness :
  defaultCourseAdditionFee s1 * 2 <= Service.calculateBatchPrice s1 [9; 9] true /\
  Service.calculateBatchPrice s1 [9; 9] true = 21 * 10 ^ 14.
Proof.
  pose proof (batch_quote_covers_fee s1 [9; 9] true) as H.
  assert (H1 : 0 <= defaultCourseAdditionFee s1) by closed.
  assert (H2 : Forall (fun c => defaultCourseAdditionFee s1
                                <= getCourseCertificatePrice s1 c) [9; 9])
    by (repeat constructor; closed).
  split; [exact (proj1 (H H1 H2)) | vm_compute; reflexivity].
Defined.

(** ** Completion dates *)

Lemma DateInv_constructor deployer cf pt cl pw route name s :
  constructor deployer cf pt cl pw route name = inr s -> DateInv s.
Proof.
  unfold constructor. intros H.
  repeat match type of H with
         | (if ?b then _ else _) = _ => destruct b; [discriminate H |]
         end.
  injection H as <-. split.
  - intros t Ht. apply _exists_iff in Ht. cbn in Ht. lia.
  - intros t c Hd. exfalso. apply Hd. reflexivity.
Qed.

Lemma run_courses env msg c s s' log t :
  run env msg c s = inr (s', log) ->
  _exists s t = true ->
  _exists s' t = true /\ exists cs, courses_of s' t = courses_of s t ++ cs.
Proof.
  intros E Ht.
  destruct (steps_record s s' t (steps_step _ _ _ _ _ _ _ (steps_refl s) E) Ht)
    as (Ht' & _ & _ & _ & _ & _ & _ & Hcs).
  split; assumption.
Qed.

Lemma DateInv_run env msg c s s' log :
  run env msg c s = inr (s', log) -> reachable s -> DateInv s -> DateInv s'.
Proof.
  intros E Hr [D1 D2]. pose proof (reachable_Inv s Hr) as [I1 _ I3 _ I5].
  pose proof (run_ledger_step _ _ _ _ _ _ E) as (Hstep & _ & _).
  assert (Hkeep : forall t x,
            _exists s t = true ->
            (exists c0 rest, courses_of s t = c0 :: rest /\ x ∈ rest) ->
            _exists s' t = true /\
            exists c0 rest, courses_of s' t = c0 :: rest /\ x ∈ rest).
  { intros t x Ht (c0 & rest & Hc & Hin).
    destruct (run_courses _ _ _ _ _ _ t E Ht) as (Ht' & cs & Hcs).
    split; [exact Ht' |]. exists c0, (rest ++ cs).
    split; [rewrite Hcs, Hc; reflexivity | apply elem_of_app; auto]. }
  split.
  - intros t Ht'. apply _exists_iff in Ht'.
    destruct Hstep as [_ (E1 & _ & _ & _ & _ & E6)
                      | course X _ _ (_ & _ & E1 & _ & _ & _ & _ & E6)
                      | t0 X _ _ Ht0 (_ & HF & E1 & _ & _ & _ & _ & E6)];
      rewrite E6.
    + apply D1. apply _exists_iff. lia.
    + destruct (decide _) as [-> |].
      * exists course, []. split; [reflexivity | apply not_elem_of_nil].
      * apply D1. apply _exists_iff. lia.
    + assert (Hex : _exists s t = true) by (apply _exists_iff; lia).
      destruct (D1 t Hex) as (c0 & rest & Hc & Hn).
      destruct (decide _) as [-> |]; [| eauto].
      exists c0, (rest ++ appended_courses c).
      split; [rewrite Hc; reflexivity |].
      intros Hin. apply elem_of_app in Hin. destruct Hin as [Hin | Hin]; [auto |].
      rewrite Forall_forall in HF. specialize (HF c0 Hin).
      assert (Ht : certificateCourseExists_at s t0 c0 = true).
      { apply I5. split; [exact Hex |]. rewrite Hc. apply elem_of_cons. auto. }
      congruence.
  - intros t c0 Hd. rewrite (run_date _ _ _ _ _ _ t c0 E) in Hd.
    destruct c; try (destruct (D2 t c0 Hd) as [Ht Hc]; apply Hkeep; assumption).
    destruct (decide _) as [(Hu & -> & -> & _) |];
      [| destruct (D2 t c0 Hd) as [Ht Hc]; apply Hkeep; assumption].
    destruct (I3 _ Hu) as [Hex _].
    destruct (run_mintOrUpdateCertificate _ _ _ _ _ _ _ _ _ _ E)
      as [(Hu' & _) | (_ & Hl)]; [contradiction |].
    destruct Hl as (_ & _ & E1 & _ & _ & _ & _ & E6).
    split; [apply _exists_iff; apply _exists_iff in Hex; lia |].
    destruct (D1 _ Hex) as (c1 & rest & Hc & _).
    exists c1, (rest ++ [courseId]). rewrite E6, decide_True by reflexivity.
    split; [rewrite Hc; reflexivity |].
    apply elem_of_app. right. apply list_elem_of_singleton. reflexivity.
Qed.

Lemma reachable_DateInv s : reachable s -> DateInv s.
Proof.
  induction 1 as [? ? ? ? ? ? ? ? Hc | ? ? ? ? ? ? Hr IH Hrun].
  - eapply DateInv_constructor. exact Hc.
  - eapply DateInv_run; eassumption.
Qed.

(** X21. Completion dates exist for appended courses only: in a reachable
    state [getCourseCompletionDate] returns 0 for every identifier that was
    not allocated; an existing certificate lists the course it was minted
    with first and nowhere else, [getCourseCompletionDate] returns 0 for
    that course, and any course with a nonzero completion date occurs
    behind the first position of the list. The mint path never records the
    completion date of its course. *)
Theorem completion_dates_only_for_appended s t :
  reachable s ->
  (_exists s t = false -> forall c, getCourseCompletionDate s t c = 0) /\
  (_exists s t = true ->
   exists c0 rest,
     getCertificateCompletedCourses s t = inr (c0 :: rest) /\
     ~ In c0 rest /\
     getCourseCompletionDate s t c0 = 0 /\
     forall c, getCourseCompletionDate s t c <> 0 -> In c rest).
Proof.
  intros Hr. destruct (reachable_DateInv s Hr) as [D1 D2].
  unfold getCourseCompletionDate, getCertificateCompletedCourses. split.
  - intros Ht c.
    destruct (decide (certificateCourseCompletionDate_at s t c = 0)) as [| Hd];
      [assumption |].
    destruct (D2 t c Hd) as [Ht' _]. congruence.
  - intros Ht. destruct (D1 t Ht) as (c0 & rest & Hc & Hn).
    exists c0, rest. rewrite Ht. cbn [negb]. unfold courses_of in Hc.
    split; [rewrite Hc; reflexivity |].
    split; [rewrite <- list_elem_of_In; exact Hn |].
    assert (Hall : forall c, certificateCourseCompletionDate_at s t c <> 0 -> c ∈ rest).
    { intros c Hd. destruct (D2 t c Hd) as (_ & c1 & rest1 & Hc1 & Hin).
      unfold courses_of in Hc1. rewrite Hc in Hc1. injection Hc1 as <- <-. exact Hin. }
    split.
    + destruct (decide (certificateCourseCompletionDate_at s t c0 = 0)) as [| Hd];
        [assumption |].
      exfalso. apply Hn. apply Hall. exact Hd.
    + intros c Hd. apply list_elem_of_In. apply Hall. exact Hd.
Qed.

Lemma completion_dates_only_for_appended_witness :
  getCertificateCompletedCourses s2 1 = inr [5; 7] /\
  getCourseCompletionDate s2 1 5 = 0.
Proof.
  destruct (proj2 (completion_dates_only_for_appended s2 1 reachable_s2) eq_refl)
    as (c0 & rest & Hc & _ & Hd & _).
  assert (Hl : getCertificateCompletedCourses s2 1 = inr [5; 7])
    by (vm_compute; reflexivity).
  split; [exact Hl |].
  rewrite Hl in Hc. injection Hc as <- _. exact Hd.
Defined.

(** ** Duplicate-free lists *)

Lemma steps_distinct_steps s s' : steps_distinct s s' -> steps s s'.
Proof.
  induction 1 as [| ? ? ? ? ? ? ? _ IH _ Hr]; [apply steps_refl |].
  eapply steps_step; eassumption.
Qed.

(** X22. Without a repeated course inside a call the lists stay
    duplicate-free: from a reachable state whose certificates list no
    course twice, every sequence of successful transactions in which no
    single call names a course twice leads to a state whose certificates
    list no course twice. Repeats across calls are rejected by the
    contract; only a repeat inside one batch goes through. *)
Theorem courses_distinct_without_repeats s s' :
  reachable s ->
  (forall t, NoDup (completedCourses (certificates_at s t))) ->
  steps_distinct s s' ->
  forall t, NoDup (completedCourses (certificates_at s' t)).
Proof.
  intros Hr Hs Hsteps. induction Hsteps as [| ? ? ? ? ? ? ? Hpre IH Hnd Hrun]; [exact Hs |].
  specialize (IH Hr Hs).
  apply (courses_NoDup_step _ _ _ _ _ _
           (reachable_steps _ _ Hr (steps_distinct_steps _ _ Hpre)) Hrun Hnd IH).
Qed.

Lemma courses_distinct_without_repeats_witness :
  NoDup (completedCourses (certificates_at s2 1)).
Proof.
  apply (courses_distinct_without_repeats s0 s2 reachable_s0).
  - intros t. vm_compute. apply NoDup_nil_2.
  - eapply steps_distinct_step; [| | exact run_callB].
    + eapply steps_distinct_step; [apply steps_distinct_refl | | exact run_callA].
      apply NoDup_singleton.
    + apply NoDup_singleton.
Defined.

(** ** When a batch succeeds *)






